(** * Tool-use orchestration of anthropic-sdk-tools: a shallow embedding

    The development follows the two TypeScript clients of the repository:
    [AnthropicClientV2] of [src/v2.ts], the streamed client, with its async
    generators [invokeFunction], [invokeFunctions], [sendFinalResponse] and
    the single-consumer iterator of [stream]; and
    [AnthropicClient.runWithTools] of [src/index.ts], the buffered turn
    loop, with [runWithStructuredOutput] and the [invoke] of the first
    version of that client.

    JavaScript values are a small inductive type; an exception is the
    [Throw] of [result] in synchronous code and the [Raise] node of [prog]
    in async code.  An async function or generator is a finite tree of
    [Yield] and [Act] nodes: [Act] is a call that leaves the program (a
    request to the provider, the function of a tool, the abort of the
    controller), and [run] interprets a tree in a world, collecting the
    events it yields and the actions it performs.  The provider and the
    libraries the clients import (the XML parser, zod, JSON) are not part
    of the repository: they are the fields of the class [Externals].

    The model comes first, then the vocabulary of the properties and a
    concrete world, then the lemmas and theorems, and last the clients on
    concrete conversations. *)

From Stdlib Require Import String Ascii ZArith Lia.
From stdpp Require Import base option list strings gmap.

Local Open Scope string_scope.
Set Warnings "-register-all".

(** ** JavaScript values and strings *)

Module JS.

Inductive value : Type :=
| VUndefined
| VNull
| VBool (b : bool)
| VNum (z : Z)
| VStr (s : string)
| VError (name message : string)
| VArr (items : list value)
| VObj (fields : list (string * value)).

(** Synchronous code either returns or throws a value. *)
Inductive result (A : Type) : Type :=
| Ok (a : A)
| Throw (e : value).
Arguments Ok {A} a.
Arguments Throw {A} e.

#[global] Instance result_ret : MRet result := fun _ a => Ok a.
#[global] Instance result_bind : MBind result := fun _ _ f r =>
  match r with Ok a => f a | Throw e => Throw e end.

(** [ToBoolean]: what [if (v)], [!v] and [v || d] test.  Numbers are
    integers here, so the only falsy number is zero. *)
Definition truthy (v : value) : bool :=
  match v with
  | VUndefined | VNull => false
  | VBool b => b
  | VNum z => negb (z =? 0)%Z
  | VStr s => negb (String.eqb s "")
  | VError _ _ | VArr _ | VObj _ => true
  end.

(** [v !== undefined]. *)
Definition defined (v : value) : bool :=
  match v with VUndefined => false | _ => true end.

Definition isArray (v : value) : bool :=
  match v with VArr _ => true | _ => false end.

(** [name === v] for a string [name]. *)
Definition is_string (name : string) (v : value) : bool :=
  match v with VStr s => String.eqb name s | _ => false end.

Definition TypeError : value := VError "TypeError" "Cannot read properties of undefined".

Fixpoint assoc (k : string) (fields : list (string * value)) : value :=
  match fields with
  | [] => VUndefined
  | (k', v) :: rest => if String.eqb k k' then v else assoc k rest
  end.

(** [v.k] for the property names the clients read ([function_calls],
    [invoke], [tool_name], [context], [parameters], [properties], [type],
    [description], [items]): reading from [undefined] or [null] throws,
    an object answers with its field, every other value with
    [undefined]. *)
Definition get (v : value) (k : string) : result value :=
  match v with
  | VUndefined | VNull => Throw TypeError
  | VObj fields => Ok (assoc k fields)
  | _ => Ok VUndefined
  end.

(** [v?.k]. *)
Definition get_opt (v : value) (k : string) : value :=
  match get v k with Ok x => x | Throw _ => VUndefined end.

(** The line feed of the template literals. *)
Definition LF : string := String (ascii_of_nat 10) "".

(** [s.includes(sep)]. *)
Fixpoint includes (s sep : string) : bool :=
  if String.prefix sep s then true
  else match s with
       | EmptyString => false
       | String _ s' => includes s' sep
       end.

(** [s.split(sep)] for a separator that is not empty: the pieces between
    the successive occurrences of [sep], found from the left.  [skip]
    counts the characters of a separator still to be passed over,
    [piece] is the piece being collected. *)
Fixpoint split_go (sep : string) (skip : nat) (piece s : string) : list string :=
  match s with
  | EmptyString => [piece]
  | String c s' =>
      match skip with
      | S n => split_go sep n piece s'
      | O =>
          if String.prefix sep s
          then piece :: split_go sep (String.length sep - 1) "" s'
          else split_go sep 0 (piece ++ String c "") s'
      end
  end.

Definition split (s sep : string) : list string := split_go sep 0 "" s.

(** [`${x}`] for [x] a string or [undefined] (an array read out of
    range). *)
Definition interpolate (x : option string) : string :=
  match x with Some s => s | None => "undefined" end.

(** [x || ''] and [x || []] for an optional field. *)
Definition or_empty (x : option string) : string :=
  match x with Some s => s | None => "" end.

Definition or_nil {A} (x : option (list A)) : list A :=
  match x with Some l => l | None => [] end.

(** [s || null] as [getTextFromMessage] uses it. *)
Definition nonempty (s : string) : option string :=
  if String.eqb s "" then None else Some s.

(** [a[i] = x] on a JavaScript array: writing past the end extends the
    array, the slots in between stay empty. *)
Fixpoint array_set {A} (i : nat) (x : A) (a : list (option A)) : list (option A) :=
  match i, a with
  | O, [] => [Some x]
  | O, _ :: rest => Some x :: rest
  | S n, [] => None :: array_set n x []
  | S n, y :: rest => y :: array_set n x rest
  end.

(** [a[i]]: [None] is [undefined] (a hole or an index out of range). *)
Definition array_get {A} (i : nat) (a : list (option A)) : option A :=
  match a !! i with Some (Some x) => Some x | _ => None end.

End JS.
Export JS.

(** ** The data of the Anthropic SDK the clients handle *)

Inductive Role : Type := user | assistant.

(** A content block: the clients only read the text of [text] blocks. *)
Inductive ContentBlock : Type :=
| TextBlock (text : string)
| OtherBlock.

Inductive MessageContent : Type :=
| CString (s : string)
| CBlocks (blocks : list ContentBlock).

Record MessageParam : Type := {
  role : Role;
  content : MessageContent;
}.

(** The response of a request that does not stream. *)
Record Message : Type := {
  response_content : list ContentBlock;
}.

(** The events of a provider stream ([Anthropic.Messages.MessageStreamEvent]). *)
Inductive MessageStreamEvent : Type :=
| message_start
| message_delta
| message_stop
| content_block_start (index : nat) (text : string)
| content_block_delta (index : nat) (text : string)
| content_block_stop (index : nat).

(** What the provider delivers for a streaming request: the events it sends
    and, when the stream breaks off, the error it throws after them. *)
Record ProviderStream : Type := {
  chunks : list MessageStreamEvent;
  failure : option value;
}.

(** A request as the clients send it.  [messages_create] receives the
    caller's body with [tools] and [tools_model] deleted and the fields
    below overwritten. *)
Record Request : Type := {
  req_model : string;
  req_max_tokens : Z;
  req_system : option string;
  req_messages : list MessageParam;
  req_stop_sequences : option (list string);
  req_stream : bool;
}.

(** The request of the parameter resolver (v2.ts:329-342): its one message
    carries the context of the invocation, whatever value the XML parser
    produced for it. *)
Record ToolRequest : Type := {
  treq_model : string;
  treq_system : string;
  treq_context : value;
  treq_stop_sequences : list string;
  treq_max_tokens : Z;
}.

(** ** The collaborators outside the repository

    The provider, the tools and the libraries the clients import are not
    part of the sources.  The pure ones are functions; the provider answers
    a request in a world and may change it. *)

Class Externals : Type := {
  World : Type;
  (** zod *)
  ZodSchema : Type;
  safeParse : ZodSchema -> value -> value + value;
  zodToJsonSchema : ZodSchema -> value;
  (** fast-xml-parser *)
  XMLParser_parse : string -> result value;
  XMLBuilder_build : value -> string;
  (** built-ins: [JSON.stringify] inside a template literal, [JSON.parse],
      [String(v)] of a template literal for a number, an array, an object
      or an error, the properties [for (k in v)] visits with their values,
      and the regular-expression [replace] that drops a [parameters] tag
      pair around the JSON text *)
  JSON_stringify : value -> string;
  JSON_parse : string -> result value;
  ToString : value -> string;
  for_in : value -> list (string * value);
  replace_parameters : string -> string;
  (** [client.messages.create] *)
  messages_create : Request -> World -> result Message * World;
  messages_stream : Request -> World -> result ProviderStream * World;
  messages_tool_stream : ToolRequest -> World -> result ProviderStream * World;
  (** [stream.controller.abort()] *)
  controller_abort : World -> World;
}.

(** A settled promise. *)
Inductive settled : Type :=
| Resolved (v : value)
| Rejected (e : value).

Section Tools.
Context `{Externals}.

Record AnthropicToolDefinition : Type := {
  tool_name : string;
  description : string;
  parameters : ZodSchema;
}.

(** [function] is the caller's async function: it settles and may change
    the world. *)
Record ToolDefinition : Type := {
  anthropic : AnthropicToolDefinition;
  function : value -> World -> settled * World;
}.

(** The body a caller passes to [stream] or [runWithTools]. *)
Record MessageCreateParams : Type := {
  model : string;
  max_tokens : Z;
  system : option string;
  messages : list MessageParam;
  stop_sequences : option (list string);
  tools : option (list ToolDefinition);
  tools_model : option string;
}.

(** ** Async code

    A call that leaves the program, with the type of its answer. *)
Inductive action : Type -> Type :=
| create (body : Request) : action (result Message)
| create_stream (body : Request) : action (result ProviderStream)
| create_tool_stream (body : ToolRequest) : action (result ProviderStream)
| call (tool : ToolDefinition) (args : value) : action settled
| abort : action unit.

(** An async function or async generator: it returns, throws, yields an
    event to its consumer, or awaits an action. *)
Inductive prog (E R : Type) : Type :=
| Ret (r : R)
| Raise (e : value)
| Yield (ev : E) (k : prog E R)
| Act {A : Type} (a : action A) (k : A -> prog E R).

End Tools.

Arguments Ret {_ E R} r.
Arguments Raise {_ E R} e.
Arguments Yield {_ E R} ev k.
Arguments Act {_ E R A} a k.

Section Async.
Context `{Externals}.

Fixpoint bind {E R S} (p : prog E R) (f : R -> prog E S) : prog E S :=
  match p with
  | Ret r => f r
  | Raise e => Raise e
  | Yield ev k => Yield ev (bind k f)
  | Act a k => Act a (fun x => bind (k x) f)
  end.

#[global] Instance prog_ret {E} : MRet (prog E) := fun _ r => Ret r.
#[global] Instance prog_bind {E} : MBind (prog E) := fun _ _ f p => bind p f.

(** [await] of an action. *)
Definition await {E A} (a : action A) : prog E A := Act a Ret.

(** Synchronous code inside async code: its exception rejects. *)
Definition lift {E A} (r : result A) : prog E A :=
  match r with Ok a => Ret a | Throw e => Raise e end.

(** [try { p } catch (e) { h e }]. *)
Fixpoint try_catch {E R} (p : prog E R) (h : value -> prog E R) : prog E R :=
  match p with
  | Ret r => Ret r
  | Raise e => h e
  | Yield ev k => Yield ev (try_catch k h)
  | Act a k => Act a (fun x => try_catch (k x) h)
  end.

Inductive control : Type := Continue | Break.

(** [for await (const ev of g) { body }] with a loop state [s].  The body
    says whether the loop goes on; on [Break] the generator is closed where
    it stands, so what it had after that [yield] never runs (none of the
    generators here has a [finally]).  The loop reports [Some r] when the
    generator returned [r], [None] when the loop left it. *)
Fixpoint for_await {E E' R S} (g : prog E R)
    (body : E -> S -> prog E' (control * S)) (s : S) : prog E' (option R * S) :=
  match g with
  | Ret r => Ret (Some r, s)
  | Raise e => Raise e
  | Yield ev k =>
      bind (body ev s) (fun cs =>
        match cs.1 with
        | Break => Ret (None, cs.2)
        | Continue => for_await k body cs.2
        end)
  | Act a k => Act a (fun x => for_await (k x) body s)
  end.

(** [for await (const chunk of stream) { body }] over a provider stream,
    without [break]: the chunks in order, then the failure of the stream. *)
Fixpoint for_chunks {E S} (cs : list MessageStreamEvent)
    (body : MessageStreamEvent -> S -> prog E S) (s : S) : prog E S :=
  match cs with
  | [] => Ret s
  | c :: rest => bind (body c s) (for_chunks rest body)
  end.

Definition for_await_stream {E S} (src : ProviderStream)
    (body : MessageStreamEvent -> S -> prog E S) (s : S) : prog E S :=
  bind (for_chunks (chunks src) body s) (fun s' =>
    match failure src with
    | Some e => Raise e
    | None => Ret s'
    end).

(** A generator whose consumer leaves: a [for await] with a [break] or a
    [return] in its body takes the events up to number [n] (counted from
    [0]), and the generator is closed where it stands, at that [yield]; what
    the generator has in a [finally] around the [yield] runs then, [closed]
    here.  With [None] the consumer takes every event. *)
Fixpoint leaving {E R} (leave : option nat) (p : prog E R) (closed : prog E R) : prog E R :=
  match p with
  | Ret r => Ret r
  | Raise e => Raise e
  | Yield ev k =>
      Yield ev match leave with
               | Some O => closed
               | Some (S n) => leaving (Some n) k closed
               | None => leaving None k closed
               end
  | Act a k => Act a (fun x => leaving leave (k x) closed)
  end.

(** *** Running a program in a world *)

Inductive io : Type :=
| Io {A} (a : action A).

Record outcome (E R : Type) : Type := {
  events : list E;
  trace : list io;
  final : result R;
  world : World;
}.
Arguments events {E R} o.
Arguments trace {E R} o.
Arguments final {E R} o.
Arguments world {E R} o.
Arguments Io {A} a.

Definition perform {A} (a : action A) (w : World) : A * World :=
  match a in action T return T * World with
  | create body => messages_create body w
  | create_stream body => messages_stream body w
  | create_tool_stream body => messages_tool_stream body w
  | call tool args => function tool args w
  | abort => (tt, controller_abort w)
  end.

Definition emitted {E R} (ev : E) (o : outcome E R) : outcome E R :=
  {| events := ev :: events o; trace := trace o; final := final o; world := world o |}.

Definition performed {E R} (a : io) (o : outcome E R) : outcome E R :=
  {| events := events o; trace := a :: trace o; final := final o; world := world o |}.

Fixpoint run {E R} (p : prog E R) (w : World) : outcome E R :=
  match p with
  | Ret r => {| events := []; trace := []; final := Ok r; world := w |}
  | Raise e => {| events := []; trace := []; final := Throw e; world := w |}
  | Yield ev k => emitted ev (run k w)
  | Act a k => let xw := perform a w in performed (Io a) (run (k xw.1) xw.2)
  end.

End Async.

Arguments events {_ E R} o.
Arguments trace {_ E R} o.
Arguments final {_ E R} o.
Arguments world {_ E R} o.
Arguments Io {_ A} a.

(** ** The streamed client: [AnthropicClientV2] (src/v2.ts) *)

Section V2.
Context `{Externals}.

(** The events of the stream the client returns: the provider's events and
    the five tool events. *)
Inductive AnthropicStreamEvent : Type :=
| provider_event (chunk : MessageStreamEvent)
| tool_invoke (tool : ToolDefinition)
| tool_result (tool : ToolDefinition) (result : value)
| tool_error (tool : ToolDefinition) (error : value)
| tool_call (tool : ToolDefinition) (parameters : value)
| tool_results (tools : gmap string ToolDefinition) (results : gmap string value)
    (messages : list MessageParam).

Definition tools_preamble : string :=
"In this environment you have access to a set of tools you can use to answer the user's questions.
You will be given the name and description of each tool, and you just need to call the tool by name. Another model will handle calling the tool with the correct parameters. You MUST NOT write any parameters yourself.

You may call one or more tools like this, the tools will be called in the order they are listed, but the result of each tool will NOT be passed to the next tool:
<function_calls>
<invoke>
<tool_name>$TOOL_NAME</tool_name>
<context>$ALL_NECESSARY_CONTEXT_TO_SEND_TO_THE_OTHER_MODEL</context>
</invoke>
<invoke>
<tool_name>$TOOL_NAME</tool_name>
<context>$ALL_NECESSARY_CONTEXT_TO_SEND_TO_THE_OTHER_MODEL</context>
</invoke>
...
</function_calls>

Here are the tools available:
<tools>
".

(** The body of the [for (const tool of tools)] loop of
    [buildSystemMessage]. *)
Definition tool_description (tool : ToolDefinition) : string :=
  "<tool_description>" ++ LF ++
  "<name>" ++ tool_name (anthropic tool) ++ "</name>" ++ LF ++
  "<description>" ++ description (anthropic tool) ++ "</description>" ++ LF ++
  "</tool_description>" ++ LF.

Fixpoint concat_map {A} (f : A -> string) (l : list A) : string :=
  match l with
  | [] => ""
  | x :: rest => f x ++ concat_map f rest
  end.

Definition buildSystemMessage (tools : list ToolDefinition)
    (systemMessage : option string) : string :=
  let system :=
    if (0 <? length tools)%nat
    then tools_preamble ++ concat_map tool_description tools ++ "</tools>" ++ LF
    else "" in
  system ++ or_empty systemMessage.

(** The text of the content blocks of the running message: slot [i] is
    [content[i].text]. *)
Definition Content : Type := list (option string).

(** [processChunk]: every event is handed on; a block start sets its slot, a
    block delta appends to it (and throws on a slot never started).  The
    [content = []] of [message_start] rebinds the parameter, the array of
    the caller is untouched. *)
Definition processChunk (chunk : MessageStreamEvent) (content : Content)
    : prog AnthropicStreamEvent Content :=
  match chunk with
  | message_start => Yield (provider_event chunk) (Ret content)
  | message_delta | message_stop => Yield (provider_event chunk) (Ret content)
  | content_block_start index text =>
      Yield (provider_event chunk) (Ret (array_set index text content))
  | content_block_delta index text =>
      match array_get index content with
      | None => Raise TypeError
      | Some old => Yield (provider_event chunk) (Ret (array_set index (old ++ text) content))
      end
  | content_block_stop _ => Yield (provider_event chunk) (Ret content)
  end.

(** An invocation record: the two fields are whatever the XML parser left
    under [tool_name] and [context]. *)
Record FunctionCall : Type := {
  call_tool_name : value;
  call_context : value;
}.

Definition function_calls_open : string := "<function_calls>".
Definition function_calls_close : string := "</function_calls>".

(** [text.split('<function_calls>')[1]] between the two markers. *)
Definition function_calls_block (text : string) : string :=
  function_calls_open ++ LF ++
  interpolate (split text function_calls_open !! 1%nat) ++ LF ++
  function_calls_close.

Definition call_of_invoke (holder : value) : result FunctionCall :=
  invoke ← get holder "invoke";
  name ← get invoke "tool_name";
  invoke' ← get holder "invoke";
  context ← get invoke' "context";
  Ok {| call_tool_name := name; call_context := context |}.

(** [calls.map(f)] for an [f] that may throw. *)
Fixpoint map_result {A B} (f : A -> result B) (l : list A) : result (list B) :=
  match l with
  | [] => Ok []
  | x :: rest => y ← f x; ys ← map_result f rest; Ok (y :: ys)
  end.

Definition extractFunctionCalls (text : string) : result (list FunctionCall) :=
  if negb (includes text function_calls_open) then Ok []
  else
    parsed ← XMLParser_parse (function_calls_block text);
    calls ← get parsed "function_calls";
    match calls with
    | VArr items => map_result call_of_invoke items
    | _ => c ← call_of_invoke calls; Ok [c]
    end.

(** What [invokeFunction] yields: [{}], [{data}] or [{error}]; a property
    that is absent reads as [undefined]. *)
Record FunctionOutcome : Type := {
  data : value;
  error : value;
}.

Definition tool_caller_system (tool : ToolDefinition) : string :=
  "You are a tool caller. A model before you has chosen to call a tool. You will be given the name and description of the tool, along with the user's conversation. You will return JSON parameters to call the tool with. You are allowed to interpret what the user's intent is, and write the parameters accordingly. If you cannot interpret the user's intent, you will simply return <error>{{ASK FOR MORE INFORMATION}}</error>. The messages you see below are the messages between the previous model and the user.
The name of the tool you MUST call is " ++ tool_name (anthropic tool) ++ ", and the description is " ++ description (anthropic tool) ++ ". You must ALWAYS return JSON. Wrap the JSON in <parameters> and </parameters>. The JSON MUST be valid JSON. Do not return anything else.
You will return the parameters in JSON format following this JSON schema accurately. You must NOT return a JSON schema, but a valid JSON object that follows this schema:
" ++ JSON_stringify (zodToJsonSchema (parameters (anthropic tool))).

(** The body of the loop over the resolver's stream: one [{}] per chunk,
    then the bookkeeping of the text. *)
Definition resolver_chunk (chunk : MessageStreamEvent) (content : Content)
    : prog FunctionOutcome Content :=
  Yield {| data := VUndefined; error := VUndefined |}
    match chunk with
    | content_block_start index text => Ret (array_set index text content)
    | content_block_delta index text =>
        match array_get index content with
        | None => Raise TypeError
        | Some old => Ret (array_set index (old ++ text) content)
        end
    | _ => Ret content
    end.

(** [content.map(c => c.text).join('')]. *)
Definition join_text (content : Content) : string :=
  concat_map (fun slot : option string => or_empty slot) content.

Definition invokeFunction (tool : ToolDefinition) (tools_model : string)
    (context : value) : prog FunctionOutcome unit :=
  answer ← await (create_tool_stream {|
    treq_model := tools_model;
    treq_system := tool_caller_system tool;
    treq_context := context;
    treq_stop_sequences := ["</parameters>"];
    treq_max_tokens := 4000 |});
  toolStream ← lift answer;
  jsonParametersContent ← for_await_stream toolStream resolver_chunk [];
  let finalText := join_text jsonParametersContent in
  match JSON_parse (replace_parameters finalText) with
  | Throw e => Yield {| data := VUndefined; error := e |} (Ret ())
  | Ok jsonParameters =>
      match safeParse (parameters (anthropic tool)) jsonParameters with
      | inr zod_error => Yield {| data := VUndefined; error := zod_error |} (Ret ())
      | inl parsed =>
          outcome ← await (call tool parsed);
          match outcome with
          | Resolved result => Yield {| data := result; error := VUndefined |} (Ret ())
          | Rejected e => Yield {| data := VUndefined; error := e |} (Ret ())
          end
      end
  end.

(** The locals of [invokeFunctions] that its loops update. *)
Record Round : Type := {
  functionResults : string;
  results : gmap string value;
}.

Definition function_results_open : string := "<function_results>" ++ LF.

Definition error_block (rendered : string) : string :=
  "<function_results>" ++ LF ++ "<error>" ++ LF ++ rendered ++ LF ++ "</error>" ++ LF.

Definition function_result (name rendered : string) : string :=
  "<function_result>" ++ LF ++ "<tool_name>" ++ name ++ "</tool_name>" ++ LF ++
  "<result>" ++ rendered ++ "</result>" ++ LF ++ "</function_result>" ++ LF.

(** The body of the inner [for await] of [invokeFunctions] (v2.ts:276-297).
    In the error branch the event is yielded first and the reset of the
    block and the [break] come after it. *)
Definition on_outcome (tool : ToolDefinition) (result : FunctionOutcome) (st : Round)
    : prog AnthropicStreamEvent (control * Round) :=
  if truthy (error result) then
    Yield (tool_error tool (error result))
      (Ret (Break, {| functionResults := error_block (JSON_stringify (error result));
                      results := results st |}))
  else if defined (data result) then
    let st' := {|
      functionResults := functionResults st ++
        function_result (tool_name (anthropic tool)) (JSON_stringify (data result));
      results := <[tool_name (anthropic tool) := data result]> (results st) |} in
    Yield (tool_result tool (data result)) (Ret (Continue, st'))
  else Ret (Continue, st).

Definition find_tool (tools : list ToolDefinition) (name : value) : option ToolDefinition :=
  List.find (fun tool => is_string (tool_name (anthropic tool)) name) tools.

(** [`Tool ${func} not found`]: [func] is an object. *)
Definition tool_not_found_v2 : value := VError "Error" "Tool [object Object] not found".

(** The outer [for] of [invokeFunctions] (v2.ts:264-298). *)
Fixpoint invoke_each (tools : list ToolDefinition) (tools_model : string)
    (functionCallsArray : list FunctionCall) (st : Round) : prog AnthropicStreamEvent Round :=
  match functionCallsArray with
  | [] => Ret st
  | func :: rest =>
      match find_tool tools (call_tool_name func) with
      | None => Raise tool_not_found_v2
      | Some tool =>
          Yield (tool_invoke tool)
            (inner ← for_await (invokeFunction tool tools_model (call_context func))
                       (on_outcome tool) st;
             invoke_each tools tools_model rest inner.2)
      end
  end.

(** [Object.fromEntries(tools.map(tool => [name, tool]))]: a later tool of
    the same name replaces an earlier one. *)
Definition tools_by_name (tools : list ToolDefinition) : gmap string ToolDefinition :=
  foldl (fun m tool => <[tool_name (anthropic tool) := tool]> m) ∅ tools.

Definition follow_up (st : Round) : MessageParam :=
  {| role := user; content := CString (functionResults st ++ "</function_results>") |}.

Definition invokeFunctions (functionCallsArray : list FunctionCall)
    (tools : list ToolDefinition) (tools_model : string) : prog AnthropicStreamEvent unit :=
  st ← invoke_each tools tools_model functionCallsArray
         {| functionResults := function_results_open; results := ∅ |};
  Yield (tool_results (tools_by_name tools) (results st) [follow_up st]) (Ret ()).

Definition final_system (body : MessageCreateParams) : string :=
  "You have finished calling the tools. You MUST NOT call any more tools. Just tell the user the results of the tools you called." ++ LF ++ interpolate (system body).

Definition final_request (body : MessageCreateParams) (messages : list MessageParam) : Request :=
  {| req_model := model body;
     req_max_tokens := max_tokens body;
     req_system := Some (final_system body);
     req_messages := messages;
     req_stop_sequences := stop_sequences body;
     req_stream := true |}.

Definition sendFinalResponse (body : MessageCreateParams) (messages : list MessageParam)
    : prog AnthropicStreamEvent unit :=
  answer ← await (create_stream (final_request body messages));
  finalResponse ← lift answer;
  for_await_stream finalResponse
    (fun chunk _ => Yield (provider_event chunk) (Ret ())) ().

End V2.

Section V2_stream.
Context `{Externals}.

(** [body.tools || []] and [body.tools_model || body.model]. *)
Definition stream_tools (body : MessageCreateParams) : list ToolDefinition :=
  or_nil (tools body).

Definition stream_tools_model (body : MessageCreateParams) : string :=
  match tools_model body with
  | Some m => if String.eqb m "" then model body else m
  | None => model body
  end.

Definition stream_stop_sequences (body : MessageCreateParams) : list string :=
  if (0 <? length (stream_tools body))%nat
  then (or_nil (stop_sequences body) ++ [function_calls_close])%list
  else [].

(** The first request of [stream] (v2.ts:71-77). *)
Definition stream_request (body : MessageCreateParams) : Request :=
  {| req_model := model body;
     req_max_tokens := max_tokens body;
     req_system := Some (buildSystemMessage (stream_tools body) (system body));
     req_messages := messages body;
     req_stop_sequences := Some (stream_stop_sequences body);
     req_stream := true |}.

(** The stream object: what the closure [iterator] captures.  [content]
    starts empty and only the one iteration that is let through writes to
    it, so it is a local of that iteration here. *)
Record Stream : Type := {
  stream_body : MessageCreateParams;
  source : ProviderStream;
  consumed : bool;
}.

Definition stream (body : MessageCreateParams) : prog Empty_set Stream :=
  answer ← await (create_stream (stream_request body));
  src ← lift answer;
  Ret {| stream_body := body; source := src; consumed := false |}.

(** The body of the [for await] over [invokeFunctions] (v2.ts:109-123); its
    state is the local [result]. *)
Definition forward (chunk : AnthropicStreamEvent)
    (result : option (list MessageParam * gmap string value))
    : prog AnthropicStreamEvent (control * option (list MessageParam * gmap string value)) :=
  match chunk with
  | tool_error _ _ => Yield chunk (Ret (Break, result))
  | tool_result _ _ => Yield chunk (Ret (Continue, result))
  | tool_results _ results messages => Yield chunk (Ret (Continue, Some (messages, results)))
  | _ => Ret (Continue, result)
  end.

(** v2.ts:99-127, once the provider stream is drained. *)
Definition after_stream (body : MessageCreateParams) (content : Content)
    : prog AnthropicStreamEvent unit :=
  match array_get 0 content with
  | None => Raise TypeError
  | Some text =>
      if includes text function_calls_open then
        functionCallsArray ← lift (extractFunctionCalls text);
        if (0 <? length functionCallsArray)%nat then
          _ ← for_await
                (invokeFunctions functionCallsArray (stream_tools body) (stream_tools_model body))
                forward None;
          sendFinalResponse body (messages body)
        else Ret ()
      else Ret ()
  end.

Definition iterator_try (s : Stream) : prog AnthropicStreamEvent unit :=
  content ← for_await_stream (source s) processChunk [];
  after_stream (stream_body s) content.

Definition is_abort_error (e : value) : bool :=
  match e with
  | VError name _ => String.eqb name "AbortError"
  | _ => false
  end.

(** [try { ...; done = true } catch (e) { ... } finally { if (!done) abort }]
    (v2.ts:92-140) for a consumer that leaves after event number [leave], or
    never: [done] is set only when the [try] block ends, so the [finally]
    aborts the controller on the two paths through [catch] and when the
    consumer closes the generator at a [yield] of the [try] block. *)
Definition iteration (leave : option nat) (s : Stream) : prog AnthropicStreamEvent unit :=
  try_catch (leaving leave (iterator_try s) (_ ← await abort; Ret ()))
    (fun e =>
       _ ← await abort;
       if is_abort_error e then Ret () else Raise e).

(** The iteration of a consumer that takes every event. *)
Definition iterator_body (s : Stream) : prog AnthropicStreamEvent unit :=
  iteration None s.

Definition consumed_error : value :=
  VError "Error" "Cannot iterate over a consumed stream, use `.tee()` to split the stream.".

(** One iteration of the stream: the stream object afterwards and what the
    iteration does for a consumer that takes every event ([iteration] has
    the consumer that leaves). *)
Definition iterator (s : Stream) : Stream * prog AnthropicStreamEvent unit :=
  if consumed s then (s, Raise consumed_error)
  else ({| stream_body := stream_body s; source := source s; consumed := true |},
        iterator_body s).

End V2_stream.

(** ** The buffered client: [AnthropicClient.runWithTools] (src/index.ts) *)

Section Buffered.
Context `{Externals}.

Definition getTextFromContent (c : MessageContent) : option string :=
  match c with
  | CString s => nonempty s
  | CBlocks [] => None
  | CBlocks (TextBlock text :: _) => nonempty text
  | CBlocks (OtherBlock :: _) => None
  end.

Definition getTextFromMessage (message : MessageParam) : option string :=
  getTextFromContent (content message).

(** The filter of [filteredMessages]. *)
Definition is_plain (message : MessageParam) : bool :=
  match getTextFromMessage message with
  | None => true
  | Some text =>
      negb (includes text "<function_calls>") && negb (includes text "<function_results>")
  end.

(** [`${v}`]. *)
Definition template (v : value) : string :=
  match v with
  | VStr s => s
  | VUndefined => "undefined"
  | VNull => "null"
  | VBool true => "true"
  | VBool false => "false"
  | _ => ToString v
  end.

Definition buffered_preamble : string :=
"In this environment you have access to a set of tools you can use to answer the user's question.

You may call them like this:
<function_calls>
<invoke>
<tool_name>$TOOL_NAME</tool_name>
<parameters>
<$PARAMETER_NAME>$PARAMETER_VALUE</$PARAMETER_NAME>
...
</parameters>
</invoke>
</function_calls>

Here are the tools available:
<tools>
".

(** The body of the loop over the properties of the JSON schema
    (index.ts:349-366). *)
Definition parameter_description (key : string) (parameterData : value) : result string :=
  type ← get parameterData "type";
  descr ← get parameterData "description";
  items ← get parameterData "items";
  items_part ←
    (if is_string "array" type && truthy items
     then item_properties ← get items "properties";
          Ok ("<items>" ++ XMLBuilder_build item_properties ++ "</items>" ++ LF)
     else Ok "");
  properties ← get parameterData "properties";
  let properties_part :=
    if truthy properties
    then "<properties>" ++ XMLBuilder_build properties ++ "</properties>" ++ LF
    else "" in
  Ok ("<parameter>" ++ LF ++
      "<name>" ++ key ++ "</name>" ++ LF ++
      "<type>" ++ template type ++ "</type>" ++ LF ++
      "<description>" ++ template descr ++ "</description>" ++ LF ++
      items_part ++ properties_part ++
      "</parameter>" ++ LF).

Fixpoint concat_result {A} (f : A -> result string) (l : list A) : result string :=
  match l with
  | [] => Ok ""
  | x :: rest => s ← f x; t ← concat_result f rest; Ok (s ++ t)
  end.

(** The body of the loop over the tools (index.ts:340-370). *)
Definition buffered_tool_description (tool : ToolDefinition) : result string :=
  let parametersProperties :=
    get_opt (zodToJsonSchema (parameters (anthropic tool))) "properties" in
  described ← concat_result (fun kv => parameter_description kv.1 kv.2)
                 (for_in parametersProperties);
  Ok ("<tool_description>" ++ LF ++
      "<name>" ++ tool_name (anthropic tool) ++ "</name>" ++ LF ++
      "<description>" ++ description (anthropic tool) ++ "</description>" ++ LF ++
      "<parameters>" ++ LF ++ described ++ "</parameters>" ++ LF ++
      "</tool_description>" ++ LF).

(** index.ts:321-377: the system prompt and the stop sequences of the
    request. *)
Definition buffered_system (tools : list ToolDefinition) (system : option string)
    : result string :=
  described ← concat_result buffered_tool_description tools;
  let system' :=
    (if (0 <? length tools)%nat then buffered_preamble else "") ++ described ++
    (if (0 <? length tools)%nat then "</tools>" ++ LF else "") in
  Ok (system' ++ or_empty system).

Definition buffered_stop_sequences (tools : list ToolDefinition)
    (stop_sequences : option (list string)) : option (list string) :=
  if (0 <? length tools)%nat
  then Some (or_nil stop_sequences ++ ["</function_calls>"])%list
  else stop_sequences.

End Buffered.

Section Buffered_loop.
Context `{Externals}.

(** An entry of [functions]: the name and the object [parameterValues]. *)
Record Invocation : Type := {
  inv_name : value;
  inv_parameters : value;
}.

(** The body of the loop over [invokeArray] (index.ts:427-440). *)
Definition invocation_of (invoke : value) : result Invocation :=
  inner ← get invoke "invoke";
  toolName ← get inner "tool_name";
  inner' ← get invoke "invoke";
  parameters ← get inner' "parameters";
  Ok {| inv_name := toolName; inv_parameters := VObj (for_in parameters) |}.

(** index.ts:419-440: the invocations of the block of [text]. *)
Definition parse_invocations (text : string) : result (list Invocation) :=
  parsed ← XMLParser_parse (function_calls_block text);
  calls ← get parsed "function_calls";
  let invokeArray := match calls with VArr items => items | _ => [calls] end in
  map_result invocation_of invokeArray.

Definition tool_not_found (name : value) : value :=
  VError "Error" ("Tool " ++ template name ++ " not found").

(** [for (const x of l) { body }] with [break] and a loop state. *)
Fixpoint for_each {E A S} (l : list A) (body : A -> S -> prog E (control * S)) (s : S)
    : prog E (control * S) :=
  match l with
  | [] => Ret (Continue, s)
  | x :: rest =>
      bind (body x s) (fun cs =>
        match cs.1 with
        | Break => Ret (Break, cs.2)
        | Continue => for_each rest body cs.2
        end)
  end.

(** The body of the loop over [functions] (index.ts:445-475); the loop
    state is [functionResults]. *)
Definition execute_one (tools : list ToolDefinition) (func : Invocation)
    (functionResults : string) : prog Empty_set (control * string) :=
  match find_tool tools (inv_name func) with
  | None => Raise (tool_not_found (inv_name func))
  | Some tool =>
      match safeParse (parameters (anthropic tool)) (inv_parameters func) with
      | inr _ => Ret (Break, error_block "Invalid parameters passed to the function")
      | inl parsed =>
          outcome ← await (call tool parsed);
          match outcome with
          | Resolved result =>
              Ret (Continue,
                   functionResults ++
                   function_result (template (inv_name func)) (JSON_stringify result))
          | Rejected e => Ret (Break, error_block (JSON_stringify e))
          end
      end
  end.

Definition execute_each (tools : list ToolDefinition) (functions : list Invocation)
    : prog Empty_set (control * string) :=
  for_each functions (execute_one tools) function_results_open.

(** The variables the [while] loop updates: [body.messages] inside the
    request, [response], [text], [first] and the array [functions]. *)
Record Turn : Type := {
  request : Request;
  response : Message;
  text : string;
  first : bool;
  functions : list Invocation;
}.

Record RunResult : Type := {
  final_response : Message;
  fullMessages : list MessageParam;
  filteredMessages : list MessageParam;
}.

Definition finished (response : Message) (messages : list MessageParam) : RunResult :=
  {| final_response := response;
     fullMessages := messages;
     filteredMessages := List.filter is_plain messages |}.

Definition with_messages (body : Request) (messages : list MessageParam) : Request :=
  {| req_model := req_model body;
     req_max_tokens := req_max_tokens body;
     req_system := req_system body;
     req_messages := messages;
     req_stop_sequences := req_stop_sequences body;
     req_stream := req_stream body |}.

(** [response.content[0].text] where the loop reads it: the response passed
    the tests of index.ts:395 or index.ts:497, so its first block is a text
    block. *)
Definition head_text (response : Message) : string :=
  match response_content response with
  | TextBlock text :: _ => text
  | _ => ""
  end.

Definition assistant_text (response : Message) : MessageParam :=
  {| role := assistant; content := CString (head_text response) |}.

(** index.ts:477-513: the result block is closed and appended as a user
    message, the request is sent again, and the call returns or the loop
    goes on with the new response. *)
Definition feedback (st : Turn) (functions' : list Invocation) (block : string)
    : prog Empty_set (RunResult + Turn) :=
  let functionResults := block ++ "</function_results>" in
  let messages' :=
    (req_messages (request st) ++
     (if first st then [] else [assistant_text (response st)]) ++
     [{| role := user; content := CString functionResults |}])%list in
  let body' := with_messages (request st) messages' in
  answer ← await (create body');
  response' ← lift answer;
  match getTextFromContent (CBlocks (response_content response')) with
  | None => Ret (inl (finished response' messages'))
  | Some text' =>
      Ret (inr {| request := body'; response := response'; text := text';
                  first := false; functions := functions' |})
  end.

(** One pass through the body of [while (text.includes('<function_calls>'))]
    (index.ts:419-526): the call returns, or the loop goes on with new
    variables. *)
Definition turn (tools : list ToolDefinition) (st : Turn) : prog Empty_set (RunResult + Turn) :=
  parsed ← lift (parse_invocations (text st));
  let functions' := (functions st ++ parsed)%list in
  if (0 <? length functions')%nat then
    executed ← execute_each tools functions';
    feedback st functions' executed.2
  else
    let messages' :=
      if first st then req_messages (request st)
      else (req_messages (request st) ++ [assistant_text (response st)])%list in
    Ret (inr {| request := with_messages (request st) messages';
                response := response st; text := text st;
                first := false; functions := functions' |}).

(** The [while] loop and what follows it (index.ts:418-551).  The source
    puts no bound on the number of rounds; [None] is a loop still going
    when the fuel is used up. *)
Fixpoint turn_loop (fuel : nat) (tools : list ToolDefinition) (st : Turn)
    : prog Empty_set (option RunResult) :=
  if includes (text st) function_calls_open then
    match fuel with
    | O => Ret None
    | S fuel' =>
        next ← turn tools st;
        match next with
        | inl done => Ret (Some done)
        | inr st' => turn_loop fuel' tools st'
        end
    end
  else
    let messages' :=
      if first st then req_messages (request st)
      else (req_messages (request st) ++ [assistant_text (response st)])%list in
    Ret (Some (finished (response st) messages')).

Definition buffered_request (body : MessageCreateParams) (system' : string) : Request :=
  {| req_model := model body;
     req_max_tokens := max_tokens body;
     req_system := Some system';
     req_messages := messages body;
     req_stop_sequences := buffered_stop_sequences (or_nil (tools body)) (stop_sequences body);
     req_stream := false |}.

Definition runWithTools (fuel : nat) (body : MessageCreateParams)
    : prog Empty_set (option RunResult) :=
  let tools := or_nil (tools body) in
  system' ← lift (buffered_system tools (system body));
  let body' := buffered_request body system' in
  answer ← await (create body');
  response ← lift answer;
  let messages' :=
    (messages body ++ [{| role := assistant; content := CBlocks (response_content response) |}])%list in
  match getTextFromContent (CBlocks (response_content response)) with
  | None => Ret (Some (finished response messages'))
  | Some text =>
      turn_loop fuel tools
        {| request := with_messages body' messages'; response := response;
           text := text; first := true; functions := [] |}
  end.

End Buffered_loop.

(** ** The other functions of the clients *)

Section Other_functions.
Context `{Externals}.

(** [updateMessages] of the streamed client (v2.ts:212-225): [for (const c
    of content)] visits the empty slots of the array too, as [undefined],
    and reading [c.text] there throws. *)
Fixpoint final_text (content : Content) (finalText : string) : result string :=
  match content with
  | [] => Ok finalText
  | Some text :: rest => final_text rest (finalText ++ text)
  | None :: _ => Throw TypeError
  end.

Definition updateMessages (messages : list MessageParam) (content : Content)
    : result (list MessageParam) :=
  finalText ← final_text content "";
  Ok (messages ++ [{| role := assistant; content := CString finalText |}])%list.

(** [ResponseFormat] (src/index.ts). *)
Inductive ResponseFormat : Type :=
| json | xml | yaml | csv | tsv | html | markdown | latex.

Definition format_name (f : ResponseFormat) : string :=
  match f with
  | json => "json" | xml => "xml" | yaml => "yaml" | csv => "csv"
  | tsv => "tsv" | html => "html" | markdown => "markdown" | latex => "latex"
  end.

(** The body a caller passes to [runWithStructuredOutput]. *)
Record StructuredParams : Type := {
  so_model : string;
  so_max_tokens : Z;
  so_system : option string;
  so_messages : list MessageParam;
  so_stop_sequences : option (list string);
  response_format : option ResponseFormat;
  schema : option ZodSchema;
}.

Definition response_format_required : value := VError "Error" "response_format is required".

(** [systemSchema] (index.ts:562) inside the template literal of
    index.ts:564: without a schema it is [null], which the literal prints. *)
Definition systemSchema (fmt : ResponseFormat) (schema : option ZodSchema) : string :=
  match schema with
  | Some sch =>
      LF ++ "This is the schema you MUST ALWAYS follow when returning your response in " ++
      format_name fmt ++ ": " ++ JSON_stringify (zodToJsonSchema sch)
  | None => "null"
  end.

Definition structured_system (fmt : ResponseFormat) (body : StructuredParams) : string :=
  "You are a " ++ format_name fmt ++ " generator. You will ALWAYS respond with valid " ++
  format_name fmt ++ "." ++ systemSchema fmt (schema body) ++ LF ++ or_empty (so_system body).

Definition structured_request (fmt : ResponseFormat) (body : StructuredParams) : Request :=
  {| req_model := so_model body;
     req_max_tokens := so_max_tokens body;
     req_system := Some (structured_system fmt body);
     req_messages := so_messages body;
     req_stop_sequences := so_stop_sequences body;
     req_stream := false |}.

(** [runWithStructuredOutput] (index.ts:554-594). *)
Definition runWithStructuredOutput (body : StructuredParams) : prog Empty_set RunResult :=
  match response_format body with
  | None => Raise response_format_required
  | Some fmt =>
      answer ← await (create (structured_request fmt body));
      response ← lift answer;
      Ret (finished response
             (so_messages body ++
              [{| role := assistant; content := CBlocks (response_content response) |}]))
  end.

(** *** The first client of src/index.ts: [AnthropicClient.invoke]

    Its loop is the loop of [runWithTools] with another body for the loop
    over [functions] (index.ts:175-189): the function of the tool is called
    with the parameters as parsed, there is no schema check, and the result
    and the error are printed by the template literal. *)
Definition invoke_execute_one (allTools : list ToolDefinition) (func : Invocation)
    (functionResults : string) : prog Empty_set (control * string) :=
  match find_tool allTools (inv_name func) with
  | None => Raise (tool_not_found (inv_name func))
  | Some tool =>
      outcome ← await (call tool (inv_parameters func));
      match outcome with
      | Resolved result =>
          Ret (Continue,
               functionResults ++ function_result (template (inv_name func)) (template result))
      | Rejected e => Ret (Break, error_block (template e))
      end
  end.

Definition invoke_execute_each (allTools : list ToolDefinition) (functions : list Invocation)
    : prog Empty_set (control * string) :=
  for_each functions (invoke_execute_one allTools) function_results_open.

(** index.ts:149-236. *)
Definition invoke_turn (allTools : list ToolDefinition) (st : Turn)
    : prog Empty_set (RunResult + Turn) :=
  parsed ← lift (parse_invocations (text st));
  let functions' := (functions st ++ parsed)%list in
  if (0 <? length functions')%nat then
    executed ← invoke_execute_each allTools functions';
    feedback st functions' executed.2
  else
    let messages' :=
      if first st then req_messages (request st)
      else (req_messages (request st) ++ [assistant_text (response st)])%list in
    Ret (inr {| request := with_messages (request st) messages';
                response := response st; text := text st;
                first := false; functions := functions' |}).

(** index.ts:148-262. *)
Fixpoint invoke_loop (fuel : nat) (allTools : list ToolDefinition) (st : Turn)
    : prog Empty_set (option RunResult) :=
  if includes (text st) function_calls_open then
    match fuel with
    | O => Ret None
    | S fuel' =>
        next ← invoke_turn allTools st;
        match next with
        | inl done => Ret (Some done)
        | inr st' => invoke_loop fuel' allTools st'
        end
    end
  else
    let messages' :=
      if first st then req_messages (request st)
      else (req_messages (request st) ++ [assistant_text (response st)])%list in
    Ret (Some (finished (response st) messages')).

Definition invoke_request (allTools : list ToolDefinition) (body : MessageCreateParams)
    (system' : string) : Request :=
  {| req_model := model body;
     req_max_tokens := max_tokens body;
     req_system := Some system';
     req_messages := messages body;
     req_stop_sequences := buffered_stop_sequences allTools (stop_sequences body);
     req_stream := false |}.

(** [invoke] (index.ts:51-262) of a client constructed with [this_tools]. *)
Definition invoke (this_tools : list ToolDefinition) (fuel : nat) (body : MessageCreateParams)
    : prog Empty_set (option RunResult) :=
  let allTools := (this_tools ++ or_nil (tools body))%list in
  system' ← lift (buffered_system allTools (system body));
  let body' := invoke_request allTools body system' in
  answer ← await (create body');
  response ← lift answer;
  let messages' :=
    (messages body ++ [{| role := assistant; content := CBlocks (response_content response) |}])%list in
  match getTextFromContent (CBlocks (response_content response)) with
  | None => Ret (Some (finished response messages'))
  | Some text =>
      invoke_loop fuel allTools
        {| request := with_messages body' messages'; response := response;
           text := text; first := true; functions := [] |}
  end.

End Other_functions.

(** ** The vocabulary of the properties *)

Section Vocabulary.
Context `{Externals}.

(** The outcome of [p] followed by what [f] makes of its value. *)
Definition and_then {E R S} (o : outcome E R) (f : R -> World -> outcome E S) : outcome E S :=
  match final o with
  | Ok r =>
      let o' := f r (world o) in
      {| events := events o ++ events o'; trace := trace o ++ trace o';
         final := final o'; world := world o' |}
  | Throw e =>
      {| events := events o; trace := trace o; final := Throw e; world := world o |}
  end.

(** The locals of [invokeFunctions] before its loop. *)
Definition round_start : Round :=
  {| functionResults := function_results_open; results := ∅ |}.

(** The outcome [o] with an exception in place of its value. *)
Definition failing {E R R'} (o : outcome E R) (e : value) : outcome E R' :=
  {| events := events o; trace := trace o; final := Throw e; world := world o |}.

Definition is_tool_invoke (ev : AnthropicStreamEvent) : bool :=
  match ev with tool_invoke _ => true | _ => false end.

Definition is_tool_result (ev : AnthropicStreamEvent) : bool :=
  match ev with tool_result _ _ => true | _ => false end.

Definition is_tool_error (ev : AnthropicStreamEvent) : bool :=
  match ev with tool_error _ _ => true | _ => false end.

Definition is_tool_results (ev : AnthropicStreamEvent) : bool :=
  match ev with tool_results _ _ _ => true | _ => false end.

(** The tools of the [tool_invoke] events, in order. *)
Definition invoked (evs : list AnthropicStreamEvent) : list ToolDefinition :=
  omap (fun ev => match ev with tool_invoke t => Some t | _ => None end) evs.

(** Every [tool_invoke] is followed by exactly one [tool_result] or
    [tool_error] before the next [tool_invoke] (or the end), and none comes
    before the first.  [owed] says that an invocation still waits for its
    outcome. *)
Fixpoint exactly_one_outcome (owed : bool) (evs : list AnthropicStreamEvent) : bool :=
  match evs with
  | [] => negb owed
  | ev :: rest =>
      if is_tool_invoke ev then negb owed && exactly_one_outcome true rest
      else if is_tool_result ev || is_tool_error ev then owed && exactly_one_outcome false rest
      else exactly_one_outcome owed rest
  end.

(** Every [tool_invoke] is followed by at most one [tool_result] or
    [tool_error] before the next [tool_invoke], and none comes before the
    first.  [open] says that the last invocation may still get its
    outcome. *)
Fixpoint at_most_one_outcome (open : bool) (evs : list AnthropicStreamEvent) : bool :=
  match evs with
  | [] => true
  | ev :: rest =>
      if is_tool_invoke ev then at_most_one_outcome true rest
      else if is_tool_result ev || is_tool_error ev then open && at_most_one_outcome false rest
      else at_most_one_outcome open rest
  end.

(** The invariant the specification states for the tool events of a round
    with the invocation records [calls]. *)
Definition one_outcome_per_record (calls : list FunctionCall)
    (evs : list AnthropicStreamEvent) : Prop :=
  length (invoked evs) = length calls /\ exactly_one_outcome false evs = true.

(** The events up to and including the first [tool_error]. *)
Fixpoint until_error (evs : list AnthropicStreamEvent) : list AnthropicStreamEvent :=
  match evs with
  | [] => []
  | ev :: rest => if is_tool_error ev then [ev] else ev :: until_error rest
  end.

(** What the loop of [stream] (v2.ts:109-123) takes out of a generator: it
    stops the generator at the first [tool_error].  [taken] hands on every
    event it takes; the loop of [stream] itself, [forward], hands on the
    [tool_result], [tool_error] and [tool_results] events only. *)
Definition take_event (ev : AnthropicStreamEvent) (st : unit)
    : prog AnthropicStreamEvent (control * unit) :=
  Yield ev (Ret (if is_tool_error ev then Break else Continue, st)).

Definition taken {R} (g : prog AnthropicStreamEvent R) : prog AnthropicStreamEvent (option R * unit) :=
  for_await g take_event ().

Definition forwarded (ev : AnthropicStreamEvent) : bool :=
  is_tool_error ev || is_tool_result ev || is_tool_results ev.

(** The text bookkeeping of the resolver's loop (v2.ts:349-362) without its
    [yield {}]. *)
Fixpoint resolver_content (cs : list MessageStreamEvent) (content : Content) : result Content :=
  match cs with
  | [] => Ok content
  | content_block_start index text :: rest =>
      resolver_content rest (array_set index text content)
  | content_block_delta index text :: rest =>
      match array_get index content with
      | None => Throw TypeError
      | Some old => resolver_content rest (array_set index (old ++ text) content)
      end
  | _ :: rest => resolver_content rest content
  end.

(** The request of the parameter resolver for a tool and a context. *)
Definition resolver_request (tool : ToolDefinition) (tools_model : string) (context : value)
    : ToolRequest :=
  {| treq_model := tools_model;
     treq_system := tool_caller_system tool;
     treq_context := context;
     treq_stop_sequences := ["</parameters>"];
     treq_max_tokens := 4000 |}.

(** The tool functions a trace called, with their arguments, in order. *)
Definition tool_call_of (a : io) : option (ToolDefinition * value) :=
  match a with
  | Io (call tool args) => Some (tool, args)
  | Io _ => None
  end.

Definition tool_calls (t : list io) : list (ToolDefinition * value) := omap tool_call_of t.

(** The requests a trace sent for a streamed response. *)
Definition stream_request_of (a : io) : option Request :=
  match a with
  | Io (create_stream body) => Some body
  | Io _ => None
  end.

Definition stream_requests (t : list io) : list Request := omap stream_request_of t.

(** What the resolver makes of a provider stream (v2.ts:344-385): it throws,
    or it has an error to report ([inl]), or it has the parameters to call
    the tool with ([inr]). *)
Definition resolved_parameters (tool : ToolDefinition) (src : ProviderStream)
    : result (value + value) :=
  content ← resolver_content (chunks src) [];
  match failure src with
  | Some e => Throw e
  | None =>
      match JSON_parse (replace_parameters (join_text content)) with
      | Throw e => Ok (inl e)
      | Ok jsonParameters =>
          match safeParse (parameters (anthropic tool)) jsonParameters with
          | inr zod_error => Ok (inl zod_error)
          | inl parsed => Ok (inr parsed)
          end
      end
  end.

(** The outcome a settled tool function is reported as (v2.ts:387-392). *)
Definition outcome_of (s : settled) : FunctionOutcome :=
  match s with
  | Resolved result => {| data := result; error := VUndefined |}
  | Rejected e => {| data := VUndefined; error := e |}
  end.

(** The event [on_outcome] yields for an outcome and the locals it leaves. *)
Definition outcome_events (tool : ToolDefinition) (r : FunctionOutcome)
    : list AnthropicStreamEvent :=
  if truthy (error r) then [tool_error tool (error r)]
  else if defined (data r) then [tool_result tool (data r)]
  else [].

Definition round_after (tool : ToolDefinition) (r : FunctionOutcome) (st : Round) : Round :=
  if truthy (error r) then
    {| functionResults := error_block (JSON_stringify (error r)); results := results st |}
  else if defined (data r) then
    {| functionResults := functionResults st ++
         function_result (tool_name (anthropic tool)) (JSON_stringify (data r));
       results := <[tool_name (anthropic tool) := data r]> (results st) |}
  else st.

Definition reported (tool : ToolDefinition) (r : FunctionOutcome) (st : Round) (w : World)
    : outcome AnthropicStreamEvent (option unit * Round) :=
  {| events := outcome_events tool r; trace := [];
     final := Ok (if truthy (error r) then None else Some (), round_after tool r st);
     world := w |}.

Definition thrown {E R} (e : value) (w : World) : outcome E R :=
  {| events := []; trace := []; final := Throw e; world := w |}.

(** The tool an invocation record names. *)
Definition tool_of (tools : list ToolDefinition) (func : FunctionCall) : option ToolDefinition :=
  find_tool tools (call_tool_name func).

(** The call the loop over [functions] makes for an invocation, when its
    tool is registered and its parameters pass the schema. *)
Definition plan (tools : list ToolDefinition) (func : Invocation)
    : option (ToolDefinition * value) :=
  match find_tool tools (inv_name func) with
  | None => None
  | Some tool =>
      match safeParse (parameters (anthropic tool)) (inv_parameters func) with
      | inl parsed => Some (tool, parsed)
      | inr _ => None
      end
  end.




(** The variables of the loop when [runWithTools] enters it. *)
Definition first_turn (body : MessageCreateParams) (system' : string) (response : Message)
    (txt : string) : Turn :=
  {| request := with_messages (buffered_request body system')
       (messages body ++ [{| role := assistant; content := CBlocks (response_content response) |}]);
     response := response; text := txt; first := true; functions := [] |}.

(** The message that carries the result block of a round back to the model. *)
Definition result_message (block : string) : MessageParam :=
  {| role := user; content := CString (block ++ "</function_results>") |}.

Definition feedback_request (st : Turn) (block : string) : Request :=
  with_messages (request st)
    (req_messages (request st) ++
     (if first st then [] else [assistant_text (response st)]) ++
     [result_message block]).

End Vocabulary.

(** Two programs that differ only in how their continuations are written. *)
Inductive same `{Externals} {E R : Type} : prog E R -> prog E R -> Prop :=
| same_ret (r : R) : same (Ret r) (Ret r)
| same_raise (e : value) : same (Raise e) (Raise e)
| same_yield (ev : E) (k k' : prog E R) : same k k' -> same (Yield ev k) (Yield ev k')
| same_act {A : Type} (a : action A) (k k' : A -> prog E R) :
    (forall x, same (k x) (k' x)) -> same (Act a k) (Act a k').

Section Vocabulary_of_the_other_properties.
Context `{Externals}.

(** The text of block [i] after the chunks [cs], from the text [acc] it had
    before: a start of block [i] sets it, a delta of block [i] extends it,
    the other chunks leave it. *)
Fixpoint block_text (i : nat) (cs : list MessageStreamEvent) (acc : option string)
    : option string :=
  match cs with
  | [] => acc
  | content_block_start index text :: rest =>
      block_text i rest (if Nat.eqb index i then Some text else acc)
  | content_block_delta index text :: rest =>
      block_text i rest
        (if Nat.eqb index i then option_map (fun old => old ++ text) acc else acc)
  | _ :: rest => block_text i rest acc
  end.

(** An action of a streamed round: a request of the parameter resolver, or
    the call of a registered tool with parameters its schema returned. *)
Definition round_action (tools : list ToolDefinition) (a : io) : Prop :=
  match a with
  | Io (create_tool_stream _) => True
  | Io (call tool args) =>
      In tool tools /\ exists input, safeParse (parameters (anthropic tool)) input = inl args
  | Io _ => False
  end.

(** How often a trace aborted the controller. *)
Definition abort_of (a : io) : option unit :=
  match a with
  | Io abort => Some ()
  | Io _ => None
  end.

Definition aborts (t : list io) : nat := length (omap abort_of t).

(** The requests a trace sent for a buffered response. *)
Definition request_of (a : io) : option Request :=
  match a with
  | Io (create body) => Some body
  | Io _ => None
  end.

Definition requests (t : list io) : list Request := omap request_of t.

(** A message is dropped from [filteredMessages] when its text has one of
    the two markers. *)
Definition free_of_markers (message : MessageParam) : Prop :=
  forall txt, getTextFromMessage message = Some txt ->
    includes txt "<function_calls>" = false /\ includes txt "<function_results>" = false.


(** No occurrence of [sep] in [pre ++ tail] starts inside [pre]. *)
Fixpoint starts_none (sep pre tail : string) : bool :=
  match pre with
  | EmptyString => true
  | String c q => negb (String.prefix sep (pre ++ tail)) && starts_none sep q tail
  end.

(** [v == null]: reading a property off such a value throws. *)
Definition nullish (v : value) : bool :=
  match v with VUndefined | VNull => true | _ => false end.

(** Whether a consumer that leaves after event number [leave] gets to
    leave an iteration of [n] events before it ends. *)
Definition leaves_early (leave : option nat) (n : nat) : bool :=
  match leave with
  | Some k => (k <? n)%nat
  | None => false
  end.

End Vocabulary_of_the_other_properties.

Section Vocabulary_of_the_rounds.
Context `{Externals}.


(** The descriptor block of a tool in the prompt of the streamed client:
    its name and its description. *)
Definition descriptor_block (name description : string) : string :=
  "<tool_description>" ++ LF ++
  "<name>" ++ name ++ "</name>" ++ LF ++
  "<description>" ++ description ++ "</description>" ++ LF ++
  "</tool_description>" ++ LF.

(** The properties of the JSON schema of the parameters of a tool. *)
Definition schema_properties (tool : ToolDefinition) : list (string * value) :=
  for_in (get_opt (zodToJsonSchema (parameters (anthropic tool))) "properties").

(** The block of one parameter in the structural description: its name,
    its type and its description, the properties of the items of an array
    and the properties of an object. *)
Definition parameter_block (key : string) (parameterData : value) : string :=
  "<parameter>" ++ LF ++
  "<name>" ++ key ++ "</name>" ++ LF ++
  "<type>" ++ template (get_opt parameterData "type") ++ "</type>" ++ LF ++
  "<description>" ++ template (get_opt parameterData "description") ++ "</description>" ++ LF ++
  (if is_string "array" (get_opt parameterData "type") && truthy (get_opt parameterData "items")
   then "<items>" ++ XMLBuilder_build (get_opt (get_opt parameterData "items") "properties") ++
        "</items>" ++ LF
   else "") ++
  (if truthy (get_opt parameterData "properties")
   then "<properties>" ++ XMLBuilder_build (get_opt parameterData "properties") ++
        "</properties>" ++ LF
   else "") ++
  "</parameter>" ++ LF.

(** The descriptor block of a tool in the prompt of the buffered clients:
    its name, its description and the structural description of its
    parameters. *)
Definition buffered_descriptor_block (tool : ToolDefinition) : string :=
  "<tool_description>" ++ LF ++
  "<name>" ++ tool_name (anthropic tool) ++ "</name>" ++ LF ++
  "<description>" ++ description (anthropic tool) ++ "</description>" ++ LF ++
  "<parameters>" ++ LF ++
  concat_map (fun kv : string * value => parameter_block kv.1 kv.2) (schema_properties tool) ++
  "</parameters>" ++ LF ++
  "</tool_description>" ++ LF.

(** A tool that the buffered prompt can describe: no property of its
    schema is [undefined] or [null]. *)
Definition describable (tool : ToolDefinition) : Prop :=
  Forall (fun kv : string * value => nullish kv.2 = false) (schema_properties tool).

End Vocabulary_of_the_rounds.

Section Vocabulary_of_the_streamed_rounds.
Context `{Externals}.

(** The inner loop of [invokeFunctions] on one outcome of [invokeFunction]. *)
Definition one_outcome (tool : ToolDefinition) (r : FunctionOutcome) (st : Round)
    : prog AnthropicStreamEvent (option unit * Round) :=
  for_await (Yield r (Ret ())) (on_outcome tool) st.

(** The inner loop of [invokeFunctions] over [invokeFunction] with the two
    loops merged: the request of the resolver, then what is made of its
    stream. *)
Definition invocation (tool : ToolDefinition) (tools_model : string) (context : value)
    (st : Round) : prog AnthropicStreamEvent (option unit * Round) :=
  Act (create_tool_stream (resolver_request tool tools_model context)) (fun answer =>
    match answer ≫= resolved_parameters tool with
    | Throw e => Raise e
    | Ok (inl e) => one_outcome tool {| data := VUndefined; error := e |} st
    | Ok (inr parsed) =>
        Act (call tool parsed) (fun settled => one_outcome tool (outcome_of settled) st)
    end).

(** The map [results] that the [tool_result] events of a list build, a
    later result of a tool name replacing an earlier one. *)
Definition results_of (evs : list AnthropicStreamEvent) (start : gmap string value)
    : gmap string value :=
  foldl (fun m ev =>
           match ev with
           | tool_result tool v => <[tool_name (anthropic tool) := v]> m
           | _ => m
           end) start evs.

(** The fragment of the result block that belongs to an event. *)
Definition fragment_of (ev : AnthropicStreamEvent) : string :=
  match ev with
  | tool_result tool v => function_result (tool_name (anthropic tool)) (JSON_stringify v)
  | _ => ""
  end.

End Vocabulary_of_the_streamed_rounds.

Section Vocabulary_of_the_buffered_calls.
Context `{Externals}.

(** An action of the buffered clients: a request for a buffered response,
    or the call of a registered tool with parameters its schema returned. *)
Definition buffered_action (tools : list ToolDefinition) (a : io) : Prop :=
  match a with
  | Io (create _) => True
  | Io (call tool args) =>
      In tool tools /\ exists input, safeParse (parameters (anthropic tool)) input = inl args
  | Io _ => False
  end.

(** An action of [invoke]: a request, or the call of a tool of [allTools]
    with the parameter object of an invocation, as the parser left it. *)
Definition invoke_action (allTools : list ToolDefinition) (a : io) : Prop :=
  match a with
  | Io (create _) => True
  | Io (call tool args) => In tool allTools /\ exists parameters, args = VObj (for_in parameters)
  | Io _ => False
  end.

(** The transcript of a result: it starts with [start], goes on with
    assistant messages and messages that the filter drops, and
    [filteredMessages] is what the filter leaves of it. *)
Definition grown_from (start : list MessageParam) (r : RunResult) : Prop :=
  (exists more,
     fullMessages r = (start ++ more)%list
     /\ Forall (fun m => role m = assistant \/ is_plain m = false) more)
  /\ filteredMessages r = List.filter is_plain (fullMessages r).

End Vocabulary_of_the_buffered_calls.

(** ** A concrete world

    A scripted provider, three tools and stand-ins for the libraries, to run
    the clients on concrete conversations. *)

Module Demo.

(** The answers the provider will give, in order, for each kind of request. *)
Record Script : Type := {
  replies : list Message;
  streams : list ProviderStream;
  resolver_streams : list ProviderStream;
  aborts : nat;
}.

Definition exhausted : value := VError "Error" "the script has no answer left".

Definition next_reply (w : Script) : result Message * Script :=
  match replies w with
  | [] => (Throw exhausted, w)
  | r :: rest =>
      (Ok r, {| replies := rest; streams := streams w;
                resolver_streams := resolver_streams w; aborts := aborts w |})
  end.

Definition next_stream (w : Script) : result ProviderStream * Script :=
  match streams w with
  | [] => (Throw exhausted, w)
  | r :: rest =>
      (Ok r, {| replies := replies w; streams := rest;
                resolver_streams := resolver_streams w; aborts := aborts w |})
  end.

Definition next_resolver_stream (w : Script) : result ProviderStream * Script :=
  match resolver_streams w with
  | [] => (Throw exhausted, w)
  | r :: rest =>
      (Ok r, {| replies := replies w; streams := streams w;
                resolver_streams := rest; aborts := aborts w |})
  end.

Definition count_abort (w : Script) : Script :=
  {| replies := replies w; streams := streams w;
     resolver_streams := resolver_streams w; aborts := S (aborts w) |}.

(** A schema accepts every value or none. *)
Inductive Schema : Type := accept_all | reject_all.

Definition schema_parse (sch : Schema) (v : value) : value + value :=
  match sch with
  | accept_all => inl v
  | reject_all => inr (VError "ZodError" "invalid")
  end.

(** The text between the first [opening] and the next [closing]. *)
Definition between (opening closing s : string) : string :=
  match split s opening !! 1%nat with
  | Some rest => match split rest closing !! 0%nat with Some x => x | None => "" end
  | None => ""
  end.

(** The object of one [invoke] element: the text of its [tool_name], of its
    [context] when it has one, and under [parameters] the one parameter [q]
    this script uses. *)
Definition invoke_object (piece : string) : value :=
  VObj ([("tool_name", VStr (between "<tool_name>" "</tool_name>" piece))] ++
        (if includes piece "<context>"
         then [("context", VStr (between "<context>" "</context>" piece))] else []) ++
        (if includes piece "<parameters>"
         then [("parameters",
                if includes piece "<q>"
                then VObj [("q", VStr (between "<q>" "</q>" piece))]
                else VStr "")]
         else [])).

(** The stand-in for the XML parser builds its object the way
    fast-xml-parser does by default: a tag that occurs once under its
    parent becomes a field holding the child, a tag that occurs several
    times becomes one field holding the array of the children. *)
Definition parse_block (doc : string) : result value :=
  match List.tail (split doc "<invoke>") with
  | [] => Ok (VObj [("function_calls", VStr "")])
  | [piece] => Ok (VObj [("function_calls", VObj [("invoke", invoke_object piece)])])
  | pieces => Ok (VObj [("function_calls", VObj [("invoke", VArr (map invoke_object pieces))])])
  end.

Definition DQ : string := String (ascii_of_nat 34) "".

Definition stringify (v : value) : string :=
  match v with
  | VStr s => DQ ++ s ++ DQ
  | VUndefined => "undefined"
  | VNull => "null"
  | VBool true => "true"
  | VBool false => "false"
  | VNum _ => "0"
  | VError _ _ => "{}"
  | VArr _ => "[]"
  | VObj _ => "{}"
  end.

Definition parse_json (s : string) : result value :=
  if String.eqb s "{}" then Ok (VObj [])
  else Throw (VError "SyntaxError" "Unexpected token").

Definition entries (v : value) : list (string * value) :=
  match v with VObj fields => fields | _ => [] end.

#[export] Instance externals : Externals := {|
  World := Script;
  ZodSchema := Schema;
  safeParse := schema_parse;
  zodToJsonSchema := fun _ => VObj [("type", VStr "object"); ("properties", VObj [])];
  XMLParser_parse := parse_block;
  XMLBuilder_build := fun _ => "";
  JSON_stringify := stringify;
  JSON_parse := parse_json;
  ToString := fun _ => "[object Object]";
  for_in := entries;
  replace_parameters := fun s => s;
  messages_create := fun _ => next_reply;
  messages_stream := fun _ => next_stream;
  messages_tool_stream := fun _ => next_resolver_stream;
  controller_abort := count_abort;
|}.

Definition tool (name : string) (sch : Schema) (f : value -> settled) : ToolDefinition :=
  {| anthropic := {| tool_name := name; description := name ++ " tool"; parameters := sch |};
     function := fun args w => (f args, w) |}.

(** [lookup] resolves, [compute] rejects, [silent] resolves with
    [undefined], [strict] accepts no parameters. *)
Definition lookup : ToolDefinition := tool "lookup" accept_all (fun _ => Resolved (VStr "Paris")).
Definition compute : ToolDefinition := tool "compute" accept_all (fun _ => Rejected (VError "Error" "boom")).
Definition silent : ToolDefinition := tool "silent" accept_all (fun _ => Resolved VUndefined).
Definition strict : ToolDefinition := tool "strict" reject_all (fun _ => Resolved (VStr "never")).

Definition registry : list ToolDefinition := [lookup; compute; silent; strict].

(** An [invoke] element of the streamed grammar and of the buffered one. *)
Definition invoke_context (name context : string) : string :=
  "<invoke>" ++ LF ++ "<tool_name>" ++ name ++ "</tool_name>" ++ LF ++
  "<context>" ++ context ++ "</context>" ++ LF ++ "</invoke>" ++ LF.

Definition invoke_q (name q : string) : string :=
  "<invoke>" ++ LF ++ "<tool_name>" ++ name ++ "</tool_name>" ++ LF ++
  "<parameters>" ++ LF ++ "<q>" ++ q ++ "</q>" ++ LF ++ "</parameters>" ++ LF ++
  "</invoke>" ++ LF.

(** A reply of the model that asks for the given elements. *)
Definition asking (elements : string) : string :=
  "Let me check. <function_calls>" ++ LF ++ elements.

(** The provider stream of a reply in one block, and the stream of the
    resolver that answers with an empty JSON object. *)
Definition streaming (text : string) : ProviderStream :=
  {| chunks := [message_start; content_block_start 0 ""; content_block_delta 0 text;
                content_block_stop 0; message_stop];
     failure := None |}.

Definition empty_json : ProviderStream :=
  {| chunks := [content_block_start 0 ""; content_block_delta 0 "{}"]; failure := None |}.

Definition replying (text : string) : Message :=
  {| response_content := [TextBlock text] |}.

Definition question : MessageParam :=
  {| role := user; content := CString "What is the capital of France?" |}.

Definition body (tools : list ToolDefinition) : MessageCreateParams :=
  {| model := "claude"; max_tokens := 1024; system := Some "Be brief.";
     messages := [question]; stop_sequences := Some ["STOP"];
     tools := Some tools; tools_model := None |}.

Definition script (replies : list string) (streams : list string) (resolver : nat) : Script :=
  {| replies := map replying replies; streams := map streaming streams;
     resolver_streams := repeat empty_json resolver; aborts := 0 |}.

(** The tool events of a list, by kind and tool name. *)
Definition label (ev : AnthropicStreamEvent) : string :=
  match ev with
  | provider_event _ => "chunk"
  | tool_invoke t => "invoke " ++ tool_name (anthropic t)
  | tool_result t _ => "result " ++ tool_name (anthropic t)
  | tool_error t _ => "error " ++ tool_name (anthropic t)
  | tool_call t _ => "call " ++ tool_name (anthropic t)
  | tool_results _ _ _ => "results"
  end.

(** The tool functions a trace called, by name. *)
Definition called (a : io) : list string :=
  match a with
  | Io (call t _) => [tool_name (anthropic t)]
  | Io _ => []
  end.

Definition call_of (name : string) : FunctionCall :=
  {| call_tool_name := VStr name; call_context := VStr "France" |}.

(** A stream whose one reply asks for the given [invoke] elements. *)
Definition asked (elements : string) : Stream :=
  {| stream_body := body registry; source := streaming (asking elements); consumed := false |}.

(** The provider answers the continuation request with a plain reply and
    the resolver with an empty JSON object. *)
Definition provider : Script := script [] ["The capital is Paris."] 3.

Definition labels {R} (o : outcome AnthropicStreamEvent R) : list string :=
  map label (events o).

Definition names_called {E R} (o : outcome E R) : list string :=
  concat (map called (trace o)).

(** The result blocks the [tool_results] events of a run carry. *)
Definition blocks_of (ev : AnthropicStreamEvent) : list MessageParam :=
  match ev with tool_results _ _ msgs => msgs | _ => [] end.

Definition result_blocks {R} (o : outcome AnthropicStreamEvent R) : list MessageParam :=
  concat (map blocks_of (events o)).

Definition unknown_call : FunctionCall := call_of "translate".

Definition unknown_invocation : Invocation :=
  {| inv_name := VStr "translate"; inv_parameters := VObj [("q", VStr "bonjour")] |}.

Definition lookup_invocation : Invocation :=
  {| inv_name := VStr "lookup"; inv_parameters := VObj [("q", VStr "France")] |}.

(** The variables of the buffered loop in a second round: [lookup] was
    parsed in the first, the reply at hand asks for a tool that is not
    registered. *)
Definition second_round : Turn :=
  {| request := buffered_request (body registry) "Be brief.";
     response := replying (asking (invoke_q "translate" "bonjour"));
     text := asking (invoke_q "translate" "bonjour");
     first := false;
     functions := [lookup_invocation] |}.




(** A tool whose function rejects with [null]. *)
Definition faint : ToolDefinition := tool "faint" accept_all (fun _ => Rejected VNull).

(** A provider stream that sends a delta for a block it never started, and
    one that sends nothing. *)
Definition unstarted : Stream :=
  {| stream_body := body registry;
     source := {| chunks := [message_start; content_block_delta 0 "Hello"]; failure := None |};
     consumed := false |}.

Definition nothing : Stream :=
  {| stream_body := body registry;
     source := {| chunks := []; failure := None |};
     consumed := false |}.

(** The same collaborators with an XML parser that rejects its input. *)
Definition malformed : value := VError "Error" "Unclosed tag".

Definition rejecting : Externals := {|
  World := Script;
  ZodSchema := Schema;
  safeParse := schema_parse;
  zodToJsonSchema := fun _ => VObj [("type", VStr "object"); ("properties", VObj [])];
  XMLParser_parse := fun _ => Throw malformed;
  XMLBuilder_build := fun _ => "";
  JSON_stringify := stringify;
  JSON_parse := parse_json;
  ToString := fun _ => "[object Object]";
  for_in := entries;
  replace_parameters := fun s => s;
  messages_create := fun _ => next_reply;
  messages_stream := fun _ => next_stream;
  messages_tool_stream := fun _ => next_resolver_stream;
  controller_abort := count_abort;
|}.

(** A body for [runWithStructuredOutput] without a schema. *)
Definition structured : StructuredParams :=
  {| so_model := "claude"; so_max_tokens := 1024; so_system := Some "Be brief.";
     so_messages := [question]; so_stop_sequences := None;
     response_format := Some json; schema := None |}.

(** A stream of the client with the rejecting parser. *)
Definition unparsed : @Stream rejecting :=
  {| stream_body := {| model := "claude"; max_tokens := 1024; system := None;
                       messages := [question]; stop_sequences := None;
                       tools := None; tools_model := None |};
     source := streaming (asking (invoke_context "lookup" "France"));
     consumed := false |}.


(** The system prompt of the buffered client for [body registry]. *)
Definition registry_system : string :=
  match buffered_system registry (Some "Be brief.") with
  | Ok s => s
  | Throw _ => ""
  end.

(** A conversation of one round: the model asks for [lookup], then
    answers. *)
Definition one_round : Script :=
  script [asking (invoke_q "lookup" "France"); "The capital is Paris."] [] 0.

(** The same collaborators with a schema translator that describes two
    parameters, a string and an array. *)
Definition documented : Externals := {|
  World := Script;
  ZodSchema := Schema;
  safeParse := schema_parse;
  zodToJsonSchema := fun _ =>
    VObj [("type", VStr "object");
          ("properties",
           VObj [("q", VObj [("type", VStr "string"); ("description", VStr "the query")]);
                 ("tags", VObj [("type", VStr "array"); ("description", VStr "the tags");
                                ("items", VObj [("properties", VObj [])])])])];
  XMLParser_parse := parse_block;
  XMLBuilder_build := fun _ => "";
  JSON_stringify := stringify;
  JSON_parse := parse_json;
  ToString := fun _ => "[object Object]";
  for_in := entries;
  replace_parameters := fun s => s;
  messages_create := fun _ => next_reply;
  messages_stream := fun _ => next_stream;
  messages_tool_stream := fun _ => next_resolver_stream;
  controller_abort := count_abort;
|}.

Definition finder : @ToolDefinition documented :=
  @Build_ToolDefinition documented
    (@Build_AnthropicToolDefinition documented "finder" "finds things" accept_all)
    (fun args w => (Resolved VNull, w)).

Definition catalogue : @MessageCreateParams documented :=
  @Build_MessageCreateParams documented "claude" 1024 (Some "Be brief.") [question]
    (Some ["STOP"]) (Some [finder]) None.

End Demo.

(** ** Strings and arrays on small inputs *)

Example includes_marker :
  includes "Sure. <function_calls><invoke>" "<function_calls>" = true.
Proof. reflexivity. Qed.

Example split_two_markers :
  split "a<x>bc<x>d" "<x>" = ["a"; "bc"; "d"].
Proof. reflexivity. Qed.

Example split_trailing_marker :
  split "ab<x>" "<x>" = ["ab"; ""].
Proof. reflexivity. Qed.

Example array_set_extends :
  array_set 2 "c" [Some "a"] = [Some "a"; None; Some "c"].
Proof. reflexivity. Qed.

(** ** Running composed programs *)

Section Run_lemmas.
Context `{Externals}.

Lemma and_then_emitted {E R S} (ev : E) (o : outcome E R) (f : R -> World -> outcome E S) :
  and_then (emitted ev o) f = emitted ev (and_then o f).
Proof. unfold and_then, emitted; simpl. destruct (final o); reflexivity. Qed.

Lemma and_then_performed {E R S} (a : io) (o : outcome E R) (f : R -> World -> outcome E S) :
  and_then (performed a o) f = performed a (and_then o f).
Proof. unfold and_then, performed; simpl. destruct (final o); reflexivity. Qed.

Lemma and_then_assoc {E R S T} (o : outcome E R) (f : R -> World -> outcome E S)
    (g : S -> World -> outcome E T) :
  and_then (and_then o f) g = and_then o (fun r w => and_then (f r w) g).
Proof.
  unfold and_then. destruct (final o) as [r|e]; simpl; [|reflexivity].
  destruct (final (f r (world o))); simpl; [|reflexivity].
  rewrite !app_assoc. reflexivity.
Qed.

Lemma and_then_ext {E R S} (o : outcome E R) (f g : R -> World -> outcome E S) :
  (forall r w, f r w = g r w) -> and_then o f = and_then o g.
Proof. intros Hfg. unfold and_then. destruct (final o); [rewrite Hfg|]; reflexivity. Qed.

Lemma run_bind {E R S} (p : prog E R) (f : R -> prog E S) (w : World) :
  run (bind p f) w = and_then (run p w) (fun r w' => run (f r) w').
Proof.
  revert w. induction p as [r|e|ev k IH|A a k IH]; intros w; simpl.
  - unfold and_then; simpl. destruct (run (f r) w); reflexivity.
  - reflexivity.
  - rewrite IH, and_then_emitted. reflexivity.
  - rewrite IH, and_then_performed. reflexivity.
Qed.

Lemma run_mbind {E R S} (p : prog E R) (f : R -> prog E S) (w : World) :
  run (p ≫= f) w = and_then (run p w) (fun r w' => run (f r) w').
Proof. apply run_bind. Qed.

(** A [for await] over a generator made of two parts. *)
Lemma run_for_await_bind {E E' R R' S} (p : prog E R) (f : R -> prog E R')
    (body : E -> S -> prog E' (control * S)) (s : S) (w : World) :
  run (for_await (bind p f) body s) w =
  and_then (run (for_await p body s) w) (fun os w' =>
    match os.1 with
    | Some r => run (for_await (f r) body os.2) w'
    | None => run (Ret (None, os.2)) w'
    end).
Proof.
  revert s w. induction p as [r|e|ev k IH|A a k IH]; intros s w; simpl.
  - unfold and_then; simpl. destruct (run (for_await (f r) body s) w); reflexivity.
  - reflexivity.
  - rewrite !run_bind, and_then_assoc. apply and_then_ext. intros [c s'] w'; simpl.
    destruct c; simpl.
    + apply IH.
    + unfold and_then; reflexivity.
  - rewrite IH, and_then_performed. reflexivity.
Qed.

Lemma run_for_await_mbind {E E' R R' S} (p : prog E R) (f : R -> prog E R')
    (body : E -> S -> prog E' (control * S)) (s : S) (w : World) :
  run (for_await (p ≫= f) body s) w =
  and_then (run (for_await p body s) w) (fun os w' =>
    match os.1 with
    | Some r => run (for_await (f r) body os.2) w'
    | None => run (Ret (None, os.2)) w'
    end).
Proof. apply run_for_await_bind. Qed.

(** A loop over a list splits at any point. *)
Lemma run_for_each_app {E A S} (l1 l2 : list A) (body : A -> S -> prog E (control * S))
    (s : S) (w : World) :
  run (for_each (l1 ++ l2) body s) w =
  and_then (run (for_each l1 body s) w) (fun cs w' =>
    match cs.1 with
    | Continue => run (for_each l2 body cs.2) w'
    | Break => run (Ret (Break, cs.2)) w'
    end).
Proof.
  revert s w. induction l1 as [|x l1 IH]; intros s w; simpl.
  - unfold and_then; simpl. destruct (run (for_each l2 body s) w); reflexivity.
  - rewrite !run_bind, and_then_assoc. apply and_then_ext. intros [c s'] w'; simpl.
    destruct c; simpl.
    + apply IH.
    + unfold and_then; reflexivity.
Qed.

End Run_lemmas.

(** ** The block after the start marker *)

Section Block.

Lemma split_go_nonempty (sep : string) (skip : nat) (piece s : string) :
  split_go sep skip piece s <> [].
Proof.
  revert skip piece. induction s as [|c s IH]; intros skip piece; cbn [split_go]; [done|].
  destruct skip; [|apply IH]. destruct (String.prefix sep (String c s)); [done | apply IH].
Qed.

(** Where [text] includes the marker, [text.split(marker)[1]] is a string:
    the block of [function_calls_block] never reads [undefined]. *)
Lemma split_second (s sep : string) :
  sep <> "" -> includes s sep = true -> exists block, split s sep !! 1%nat = Some block.
Proof.
  intros Hsep. unfold split. generalize "" as piece.
  induction s as [|c s IH]; intros piece; cbn [includes split_go].
  - destruct sep; [congruence | discriminate].
  - destruct (String.prefix sep (String c s)) eqn:Hprefix.
    + intros _. destruct (split_go sep (String.length sep - 1) "" s) as [|block rest] eqn:Hgo.
      * destruct (split_go_nonempty _ _ _ _ Hgo).
      * exists block. reflexivity.
    + intros Hincl. apply IH, Hincl.
Qed.

End Block.

(** ** The parser on a plain reply *)

Section Plain_reply.
Context `{Externals}.

(** C9.  A text without the start marker [<function_calls>] has no
    invocations: [extractFunctionCalls] returns the empty list; the streamed
    iteration ends after the provider's stream without looking up or
    calling a tool and without building a result block; the buffered loop
    returns at once, without a request, a tool call or a result block. *)
Theorem no_marker_no_invocations (txt : string) :
  includes txt "<function_calls>" = false ->
  extractFunctionCalls txt = Ok []
  /\ (forall body content,
        array_get 0 content = Some txt -> after_stream body content = Ret ())
  /\ (forall fuel tools st,
        text st = txt ->
        turn_loop fuel tools st =
        Ret (Some (finished (response st)
                     (if first st then req_messages (request st)
                      else req_messages (request st) ++ [assistant_text (response st)])))).
Proof.
  intros Hno. split; [|split].
  - unfold extractFunctionCalls, function_calls_open. rewrite Hno. reflexivity.
  - intros body content Hget. unfold after_stream, function_calls_open.
    rewrite Hget, Hno. reflexivity.
  - intros fuel tools st Htxt. destruct fuel; simpl;
      unfold function_calls_open; rewrite Htxt, Hno; reflexivity.
Qed.

End Plain_reply.

(** ** The system prompt and the stop sequences *)

Section Prompt.
Context `{Externals}.

(** The descriptors [concat_result] joins are one per element, in order. *)
Lemma concat_result_pieces {A} (f : A -> result string) (l : list A) (s : string) :
  concat_result f l = Ok s ->
  exists pieces, Forall2 (fun x piece => f x = Ok piece) l pieces
                 /\ s = concat_map (fun piece => piece) pieces.
Proof.
  revert s. induction l as [|x l IH]; intros s; simpl.
  - intros [= <-]. exists []. split; [constructor | reflexivity].
  - destruct (f x) as [piece|e] eqn:Hx; simpl; [|discriminate].
    destruct (concat_result f l) as [t|e] eqn:Hl; simpl; [|discriminate].
    intros [= <-]. destruct (IH t eq_refl) as (pieces & Hall & ->).
    exists (piece :: pieces). split; [constructor; assumption | reflexivity].
Qed.

Lemma append_cons (a : ascii) (s t : string) : String a s ++ t = String a (s ++ t).
Proof. reflexivity. Qed.

Lemma append_assoc (s t u : string) : (s ++ t) ++ u = s ++ (t ++ u).
Proof.
  induction s as [|a s IH]; [reflexivity|].
  rewrite !append_cons, IH. reflexivity.
Qed.

Lemma no_tools (l : list ToolDefinition) : l = [] -> (0 <? length l)%nat = false.
Proof. intros ->. reflexivity. Qed.

Lemma some_tools (l : list ToolDefinition) : l <> [] -> (0 <? length l)%nat = true.
Proof. destruct l; [congruence | reflexivity]. Qed.

Lemma concat_map_ext {A} (f g : A -> string) (l : list A) :
  (forall x, f x = g x) -> concat_map f l = concat_map g l.
Proof. intros Hfg. induction l as [|x l IH]; cbn; [reflexivity | rewrite Hfg, IH; reflexivity]. Qed.

Lemma concat_result_total {A} (f : A -> result string) (g : A -> string) (l : list A) :
  Forall (fun x => f x = Ok (g x)) l -> concat_result f l = Ok (concat_map g l).
Proof.
  induction 1 as [|x l Hx _ IH]; [reflexivity|]. cbn. rewrite Hx. cbn. rewrite IH. reflexivity.
Qed.

Lemma concat_result_ok {A} (f : A -> result string) (g : A -> string) (l : list A) (s : string) :
  (forall x t, f x = Ok t -> t = g x) -> concat_result f l = Ok s -> s = concat_map g l.
Proof.
  intros Hfg. revert s. induction l as [|x l IH]; intros s; cbn.
  - intros [= <-]. reflexivity.
  - destruct (f x) as [t|e] eqn:Hx; cbn; [|discriminate].
    destruct (concat_result f l) as [u|e]; cbn; [|discriminate].
    intros [= <-]. rewrite (Hfg _ _ Hx), (IH u eq_refl). reflexivity.
Qed.

(** The block of a parameter whose schema is not [undefined] or [null];
    on such a schema the reading of [type] throws. *)
Lemma parameter_description_total (key : string) (parameterData : value) :
  nullish parameterData = false ->
  parameter_description key parameterData = Ok (parameter_block key parameterData).
Proof.
  unfold parameter_description, parameter_block, get_opt.
  destruct parameterData as [| | | | | |items|fields]; try discriminate; intros _;
    try reflexivity.
  cbn [get mbind result_bind].
  destruct (is_string "array" (assoc "type" fields) && truthy (assoc "items" fields)) eqn:Harr.
  - apply andb_prop in Harr as (_ & Hitems).
    destruct (assoc "items" fields); try discriminate; reflexivity.
  - reflexivity.
Qed.

Lemma parameter_description_ok (key : string) (parameterData : value) (s : string) :
  parameter_description key parameterData = Ok s -> s = parameter_block key parameterData.
Proof.
  destruct (nullish parameterData) eqn:Hnull.
  - destruct parameterData; discriminate.
  - rewrite (parameter_description_total key _ Hnull). congruence.
Qed.

Lemma buffered_tool_description_total (tool : ToolDefinition) :
  describable tool -> buffered_tool_description tool = Ok (buffered_descriptor_block tool).
Proof.
  intros Htool. unfold buffered_tool_description, buffered_descriptor_block.
  fold (schema_properties tool).
  rewrite (concat_result_total _ (fun kv : string * value => parameter_block kv.1 kv.2)).
  - reflexivity.
  - eapply Forall_impl; [exact Htool|]. intros kv Hkv. apply parameter_description_total, Hkv.
Qed.

Lemma buffered_tool_description_ok (tool : ToolDefinition) (s : string) :
  buffered_tool_description tool = Ok s -> s = buffered_descriptor_block tool.
Proof.
  unfold buffered_tool_description, buffered_descriptor_block. fold (schema_properties tool).
  destruct (concat_result _ (schema_properties tool)) as [described|e] eqn:Hdescr; cbn;
    [|discriminate].
  intros [= <-].
  rewrite (concat_result_ok _ (fun kv : string * value => parameter_block kv.1 kv.2) _ _
             (fun kv t => parameter_description_ok kv.1 kv.2 t) Hdescr).
  reflexivity.
Qed.

(** C7.  Without tools the system prompt of the first request is the
    caller's system text and the closing marker is not added to the stop
    sequences (the buffered request keeps the caller's list, the streamed
    request has the empty list).  With tools the prompt is the preamble,
    one descriptor block per tool in order, the closing [</tools>] line and
    the caller's system text last; the block of a tool holds its name and
    its description and, in the buffered client, one parameter block for
    each property of its schema; the buffered prompt is built whenever no
    such property is [undefined] or [null], and the stop sequences are the
    caller's followed by [</function_calls>]. *)
Theorem system_prompt_and_stop_sequences (body : MessageCreateParams) :
  (or_nil (tools body) = [] ->
     req_system (stream_request body) = Some (or_empty (system body))
     /\ req_stop_sequences (stream_request body) = Some []
     /\ buffered_system (or_nil (tools body)) (system body) = Ok (or_empty (system body))
     /\ forall system', req_stop_sequences (buffered_request body system') = stop_sequences body)
  /\ (or_nil (tools body) <> [] ->
     req_system (stream_request body) =
       Some (tools_preamble ++
             concat_map (fun tool => descriptor_block (tool_name (anthropic tool))
                                       (description (anthropic tool)))
               (or_nil (tools body)) ++
             "</tools>" ++ LF ++ or_empty (system body))
     /\ req_stop_sequences (stream_request body) =
          Some (or_nil (stop_sequences body) ++ ["</function_calls>"])%list
     /\ (Forall describable (or_nil (tools body)) ->
         buffered_system (or_nil (tools body)) (system body) =
         Ok (buffered_preamble ++
             concat_map buffered_descriptor_block (or_nil (tools body)) ++
             "</tools>" ++ LF ++ or_empty (system body)))
     /\ (forall prompt, buffered_system (or_nil (tools body)) (system body) = Ok prompt ->
           prompt = buffered_preamble ++
                    concat_map buffered_descriptor_block (or_nil (tools body)) ++
                    "</tools>" ++ LF ++ or_empty (system body))
     /\ forall system', req_stop_sequences (buffered_request body system') =
          Some (or_nil (stop_sequences body) ++ ["</function_calls>"])%list).
Proof.
  split; intros Htools.
  - unfold stream_request, stream_stop_sequences, stream_tools, buffered_request,
      buildSystemMessage, buffered_system, buffered_stop_sequences; simpl.
    rewrite Htools; simpl. repeat split; reflexivity.
  - unfold stream_request, stream_stop_sequences, stream_tools, buffered_request,
      buildSystemMessage, buffered_system, buffered_stop_sequences; simpl.
    rewrite (some_tools _ Htools). repeat split.
    + rewrite !append_assoc. reflexivity.
    + intros Hall.
      rewrite (concat_result_total _ buffered_descriptor_block).
      * cbn. rewrite !append_assoc. reflexivity.
      * eapply Forall_impl; [exact Hall|]. intros tool. apply buffered_tool_description_total.
    + intros prompt.
      destruct (concat_result buffered_tool_description (or_nil (tools body)))
        as [described|e] eqn:Hdescr; simpl; [|discriminate].
      intros [= <-].
      rewrite (concat_result_ok _ buffered_descriptor_block _ _
                 buffered_tool_description_ok Hdescr).
      rewrite !append_assoc. reflexivity.
Qed.

End Prompt.

(** ** The single-consumer stream *)

Section Single_consumer.
Context `{Externals}.

Lemma stream_fresh (body : MessageCreateParams) (w : World) (s : Stream) :
  final (run (stream body) w) = Ok s -> consumed s = false.
Proof.
  unfold stream, await. simpl.
  destruct (messages_stream (stream_request body) w) as [[src|e] w']; simpl.
  - intros [= <-]. reflexivity.
  - discriminate.
Qed.

Lemma iterator_consumes (s : Stream) : consumed (iterator s).1 = true.
Proof. unfold iterator. destruct (consumed s) eqn:Hc; simpl; [assumption | reflexivity]. Qed.

Lemma iterator_again (s : Stream) (n : nat) :
  consumed s = true -> consumed (Nat.iter n (fun x => (iterator x).1) s) = true.
Proof. intros Hc. induction n as [|n IH]; simpl; [assumption | apply iterator_consumes]. Qed.

(** C8.  A stream that [stream] returns has not been consumed.  The first
    iteration of a stream that has not been consumed runs the body of the
    iterator; every later iteration of the same stream, however many came
    before, throws the usage error and does nothing else: it yields no
    event and performs no action. *)
Theorem stream_single_consumer (s : Stream) :
  consumed s = false ->
  (iterator s).2 = iterator_body s
  /\ forall n w,
       let s' := Nat.iter n (fun x => (iterator x).1) (iterator s).1 in
       (iterator s').2 = Raise consumed_error
       /\ run (iterator s').2 w =
          {| events := []; trace := []; final := Throw consumed_error; world := w |}.
Proof.
  intros Hfresh. split.
  - unfold iterator. rewrite Hfresh. reflexivity.
  - intros n w s'.
    assert (Hc : consumed s' = true) by (apply iterator_again, iterator_consumes).
    unfold iterator. rewrite Hc. split; reflexivity.
Qed.

End Single_consumer.

(** ** The generators of the streamed client under their consumers *)

Section Generators.
Context `{Externals}.

Lemma run_try_catch {E R} (p : prog E R) (h : value -> prog E R) (w : World) :
  run (try_catch p h) w =
  match final (run p w) with
  | Ok _ => run p w
  | Throw e =>
      let o' := run (h e) (world (run p w)) in
      {| events := events (run p w) ++ events o'; trace := trace (run p w) ++ trace o';
         final := final o'; world := world o' |}
  end.
Proof.
  revert w. induction p as [r|e|ev k IH|A a k IH]; intros w; simpl.
  - reflexivity.
  - destruct (run (h e) w); reflexivity.
  - rewrite IH. unfold emitted. destruct (run k w) as [evs tr [r|e] w']; reflexivity.
  - rewrite IH. unfold performed.
    destruct (run (k (perform a w).1) (perform a w).2) as [evs tr [r|e] w']; reflexivity.
Qed.

(** The inner loop of [invokeFunctions] on one outcome. *)
Lemma run_on_outcome (tool : ToolDefinition) (r : FunctionOutcome) (st : Round) (w : World) :
  run (for_await (Yield r (Ret ())) (on_outcome tool) st) w = reported tool r st w.
Proof.
  unfold reported, outcome_events, round_after. simpl. unfold on_outcome.
  destruct (truthy (error r)); [reflexivity|].
  destruct (defined (data r)); reflexivity.
Qed.

(** The [{}] of the resolver's chunks goes by without a trace. *)
Lemma run_resolver_chunks (tool : ToolDefinition) (cs : list MessageStreamEvent)
    (content : Content) (st : Round) (w : World) :
  run (for_await (for_chunks cs resolver_chunk content) (on_outcome tool) st) w =
  {| events := []; trace := [];
     final := match resolver_content cs content with
              | Ok c => Ok (Some c, st)
              | Throw e => Throw e
              end;
     world := w |}.
Proof.
  revert content. induction cs as [|c cs IH]; intros content; [reflexivity|].
  cbn [for_chunks]. rewrite run_for_await_bind.
  destruct c as [| | |index text|index text|index]; cbn;
    try (unfold and_then; cbn; rewrite IH; reflexivity).
  destruct (array_get index content) as [old|]; cbn.
  - unfold and_then; cbn. rewrite IH. reflexivity.
  - reflexivity.
Qed.

(** The inner loop of [invokeFunctions] over [invokeFunction] (v2.ts:276):
    the request of the resolver, then either an exception, or the report of
    an error, or the call of the tool function and the report of how it
    settled. *)
Lemma run_invokeFunction (tool : ToolDefinition) (tools_model : string) (context : value)
    (st : Round) (w : World) :
  run (for_await (invokeFunction tool tools_model context) (on_outcome tool) st) w =
  let aw := messages_tool_stream (resolver_request tool tools_model context) w in
  performed (Io (create_tool_stream (resolver_request tool tools_model context)))
    match aw.1 ≫= resolved_parameters tool with
    | Throw e => thrown e aw.2
    | Ok (inl e) => reported tool {| data := VUndefined; error := e |} st aw.2
    | Ok (inr parsed) =>
        let rw := function tool parsed aw.2 in
        performed (Io (call tool parsed)) (reported tool (outcome_of rw.1) st rw.2)
    end.
Proof.
  unfold invokeFunction, resolver_request. cbn -[for_await_stream].
  f_equal.
  destruct (messages_tool_stream _ w) as [[src|e] w1]; cbn -[for_await_stream];
    [|reflexivity].
  rewrite run_for_await_mbind. unfold for_await_stream.
  rewrite run_for_await_bind, run_resolver_chunks.
  unfold resolved_parameters.
  destruct (resolver_content (chunks src) []) as [content|e]; cbn; [|reflexivity].
  unfold and_then; cbn.
  destruct (failure src) as [e|]; cbn; [reflexivity|].
  assert (Hreport : forall r w', run (for_await (Yield r (Ret ())) (on_outcome tool) st) w' =
                                 reported tool r st w') by (intros; apply run_on_outcome).
  destruct (JSON_parse (replace_parameters (join_text content))) as [json|e];
    [destruct (safeParse (parameters (anthropic tool)) json) as [parsed|zod_error]|].
  - cbn -[for_await]. cbn [for_await run]. cbn -[for_await].
    destruct (function tool parsed w1) as [[v|e] w2]; cbn -[for_await];
      rewrite Hreport; reflexivity.
  - cbn -[for_await]. rewrite Hreport. reflexivity.
  - cbn -[for_await]. rewrite Hreport. reflexivity.
Qed.

End Generators.

(** ** Programs up to the writing of their continuations *)

Section Same.
Context `{Externals}.

Lemma same_refl {E R} (p : prog E R) : same p p.
Proof. induction p; constructor; auto. Qed.

Lemma same_run {E R} (p q : prog E R) (w : World) : same p q -> run p w = run q w.
Proof.
  intros Hpq. revert w. induction Hpq as [r|e|ev k k' _ IH|A a k k' _ IH]; intros w; simpl.
  - reflexivity.
  - reflexivity.
  - rewrite IH. reflexivity.
  - rewrite IH. reflexivity.
Qed.

Lemma same_bind {E R S} (p q : prog E R) (f g : R -> prog E S) :
  same p q -> (forall r, same (f r) (g r)) -> same (bind p f) (bind q g).
Proof.
  intros Hpq Hfg. induction Hpq; simpl; try constructor; auto.
Qed.

Lemma same_bind_assoc {E R S T} (p : prog E R) (f : R -> prog E S) (g : S -> prog E T)
    (h : R -> prog E T) :
  (forall r, same (h r) (bind (f r) g)) -> same (bind p h) (bind (bind p f) g).
Proof. intros Hh. induction p; simpl; try constructor; auto. Qed.

Lemma same_for_await {E E' R S} (p q : prog E R) (body : E -> S -> prog E' (control * S))
    (s : S) :
  same p q -> same (for_await p body s) (for_await q body s).
Proof.
  intros Hpq. revert s. induction Hpq as [r|e|ev k k' _ IH|A a k k' _ IH]; intros s; simpl.
  - constructor.
  - constructor.
  - apply same_bind; [apply same_refl|]. intros [c s']; simpl.
    destruct c; [apply IH | constructor].
  - constructor. intros x. apply IH.
Qed.

(** The outer loop of [invokeFunctions] splits at any point. *)
Lemma invoke_each_app (tools : list ToolDefinition) (tools_model : string)
    (pre post : list FunctionCall) (st : Round) :
  same (invoke_each tools tools_model (pre ++ post) st)
       (bind (invoke_each tools tools_model pre st) (invoke_each tools tools_model post)).
Proof.
  revert st. induction pre as [|func pre IH]; intros st.
  - apply same_refl.
  - cbn [app invoke_each].
    destruct (find_tool tools (call_tool_name func)) as [tool|]; cbn [bind]; [|constructor].
    constructor. unfold mbind, prog_bind. apply same_bind_assoc. intros inner. apply IH.
Qed.

Lemma same_leaving_none {E R} (p closed : prog E R) : same (leaving None p closed) p.
Proof. induction p; constructor; auto. Qed.

Lemma same_try_catch {E R} (p q : prog E R) (h : value -> prog E R) :
  same p q -> same (try_catch p h) (try_catch q h).
Proof. induction 1; simpl; try constructor; auto using same_refl. Qed.

(** For a consumer that takes every event the iteration is its [try]
    block with its [catch]. *)
Lemma run_iterator_body (s : Stream) (w : World) :
  run (iterator_body s) w =
  run (try_catch (iterator_try s)
         (fun e => _ ← await abort; if is_abort_error e then Ret () else Raise e)) w.
Proof. apply same_run, same_try_catch, same_leaving_none. Qed.

End Same.

(** ** One invocation of a streamed round *)

Section Streamed_round.
Context `{Externals}.

Lemma run_invoke_each_cons (tools : list ToolDefinition) (tools_model : string)
    (func : FunctionCall) (rest : list FunctionCall) (st : Round) (w : World)
    (tool : ToolDefinition) :
  find_tool tools (call_tool_name func) = Some tool ->
  run (invoke_each tools tools_model (func :: rest) st) w =
  emitted (tool_invoke tool)
    (and_then
       (run (for_await (invokeFunction tool tools_model (call_context func))
               (on_outcome tool) st) w)
       (fun inner w' => run (invoke_each tools tools_model rest inner.2) w')).
Proof.
  intros Hfind. cbn [invoke_each]. rewrite Hfind. cbn [run]. rewrite run_mbind. reflexivity.
Qed.

(** C10.  When the function of a tool resolves with [undefined], the
    invocation leaves one event, its [tool_invoke]: no [tool_result] and no
    [tool_error] is yielded, the round's locals are as before (no entry is
    added to [results], no fragment to [functionResults]), and the loop goes
    on with the next invocation. *)
Theorem undefined_result_is_silent (tools : list ToolDefinition) (tools_model : string)
    (func : FunctionCall) (rest : list FunctionCall) (st : Round) (w w1 w2 : World)
    (tool : ToolDefinition) (src : ProviderStream) (parsed : value) :
  find_tool tools (call_tool_name func) = Some tool ->
  messages_tool_stream (resolver_request tool tools_model (call_context func)) w = (Ok src, w1) ->
  resolved_parameters tool src = Ok (inr parsed) ->
  function tool parsed w1 = (Resolved VUndefined, w2) ->
  run (invoke_each tools tools_model (func :: rest) st) w =
  emitted (tool_invoke tool)
    (performed (Io (create_tool_stream (resolver_request tool tools_model (call_context func))))
       (performed (Io (call tool parsed))
          (run (invoke_each tools tools_model rest st) w2))).
Proof.
  intros Hfind Hstream Hparams Hcall.
  rewrite (run_invoke_each_cons _ _ _ _ _ _ _ Hfind), run_invokeFunction.
  rewrite Hstream. cbn [fst snd mbind result_bind]. rewrite Hparams, Hcall.
  cbn [fst snd outcome_of].
  rewrite !and_then_performed. do 3 f_equal.
Qed.

End Streamed_round.

(** ** An invocation of a tool that is not registered *)

Section Tool_not_found.
Context `{Externals}.

Lemma run_for_await_failing {E E' R R' S} (p : prog E R) (f : R -> prog E R')
    (body : E -> S -> prog E' (control * S)) (s s1 : S) (w : World) (r : R) (e : value) :
  final (run (for_await p body s) w) = Ok (Some r, s1) ->
  f r = Raise e ->
  run (for_await (bind p f) body s) w = failing (run (for_await p body s) w) e.
Proof.
  intros Hfinal Hf. rewrite run_for_await_bind. unfold and_then, failing.
  rewrite Hfinal. cbn. rewrite Hf. cbn. rewrite !app_nil_r. reflexivity.
Qed.

(** The loop of [stream] over a round whose invocation [func] names no
    registered tool, when the invocations before it let the loop go on:
    the events and the actions are those of the invocations before, and the
    loop throws. *)
Lemma stream_round_not_found (tools : list ToolDefinition) (tools_model : string)
    (pre rest : list FunctionCall) (func : FunctionCall) (w : World)
    (st1 : Round) (r r1 : option (list MessageParam * gmap string value)) :
  find_tool tools (call_tool_name func) = None ->
  final (run (for_await (invoke_each tools tools_model pre round_start) forward r) w)
    = Ok (Some st1, r1) ->
  run (for_await (invokeFunctions (pre ++ func :: rest) tools tools_model) forward r) w =
  failing (run (for_await (invoke_each tools tools_model pre round_start) forward r) w)
    tool_not_found_v2.
Proof.
  intros Hfind Hpre. unfold invokeFunctions, mbind, prog_bind. fold round_start.
  rewrite (same_run _ _ w
             (same_for_await _ _ forward r
                (same_bind _ _ _ _ (invoke_each_app tools tools_model pre (func :: rest) round_start)
                   (fun st => same_refl _)))).
  rewrite run_for_await_bind.
  rewrite (run_for_await_failing _ _ _ _ _ _ _ tool_not_found_v2 Hpre).
  - unfold and_then, failing. reflexivity.
  - cbn [invoke_each]. rewrite Hfind. reflexivity.
Qed.

Lemma execute_one_not_found (tools : list ToolDefinition) (func : Invocation) (fr : string) :
  find_tool tools (inv_name func) = None ->
  execute_one tools func fr = Raise (tool_not_found (inv_name func)).
Proof. intros Hfind. unfold execute_one. rewrite Hfind. reflexivity. Qed.

(** The loop of [runWithTools] over [functions] likewise. *)
Lemma execute_each_not_found (tools : list ToolDefinition)
    (pre rest : list Invocation) (func : Invocation) (w : World) (fr : string) :
  find_tool tools (inv_name func) = None ->
  final (run (for_each pre (execute_one tools) function_results_open) w) = Ok (Continue, fr) ->
  run (execute_each tools (pre ++ func :: rest)) w =
  failing (run (for_each pre (execute_one tools) function_results_open) w)
    (tool_not_found (inv_name func)).
Proof.
  intros Hfind Hpre. unfold execute_each. rewrite run_for_each_app.
  unfold and_then, failing. rewrite Hpre. cbn [fst snd for_each].
  rewrite (execute_one_not_found _ _ _ Hfind). cbn. rewrite !app_nil_r. reflexivity.
Qed.

(** C6.  When a round reaches an invocation whose name no registered tool
    has, the call throws the tool-not-found error there.  Streamed: the
    iteration yields the events of the provider's stream and of the
    invocations before, aborts the controller and throws; it yields no
    [tool_results] for the round and sends no further request.  Buffered:
    [runWithTools] throws out of its loop; after the calls of the
    invocations before, it performs nothing: no result block is built and
    no request is sent. *)
Theorem tool_not_found_is_fatal (tools : list ToolDefinition) :
  (forall (s : Stream) (w : World) (content : Content) (txt : string)
          (pre rest : list FunctionCall) (func : FunctionCall) (st1 : Round)
          (r1 : option (list MessageParam * gmap string value)),
     stream_tools (stream_body s) = tools ->
     let o1 := run (for_await_stream (source s) processChunk []) w in
     let o2 := run (for_await
                      (invoke_each tools (stream_tools_model (stream_body s)) pre round_start)
                      forward None) (world o1) in
     final o1 = Ok content ->
     array_get 0 content = Some txt ->
     includes txt "<function_calls>" = true ->
     extractFunctionCalls txt = Ok (pre ++ func :: rest)%list ->
     find_tool tools (call_tool_name func) = None ->
     final o2 = Ok (Some st1, r1) ->
     run (iterator_body s) w =
     {| events := events o1 ++ events o2;
        trace := trace o1 ++ trace o2 ++ [Io abort];
        final := Throw tool_not_found_v2;
        world := controller_abort (world o2) |})
  /\ (forall (fuel : nat) (st : Turn) (w : World) (parsed pre rest : list Invocation)
            (func : Invocation) (fr : string),
        includes (text st) "<function_calls>" = true ->
        parse_invocations (text st) = Ok parsed ->
        (functions st ++ parsed = pre ++ func :: rest)%list ->
        find_tool tools (inv_name func) = None ->
        final (run (for_each pre (execute_one tools) function_results_open) w)
          = Ok (Continue, fr) ->
        run (turn_loop (S fuel) tools st) w =
        failing (run (for_each pre (execute_one tools) function_results_open) w)
          (tool_not_found (inv_name func))).
Proof.
  split.
  - intros s w content txt pre rest func st1 r1 Htools o1 o2 Hcontent Htext Hmarker
      Hcalls Hfind Hpre.
    rewrite run_iterator_body, run_try_catch.
    assert (Htry : run (iterator_try s) w =
                   {| events := events o1 ++ events o2; trace := trace o1 ++ trace o2;
                      final := Throw tool_not_found_v2; world := world o2 |}).
    { unfold iterator_try. rewrite run_mbind. unfold and_then. fold o1. rewrite Hcontent.
      cbn zeta. unfold after_stream, function_calls_open.
      rewrite Htext, Hmarker, Hcalls. cbn [lift mbind prog_bind bind].
      rewrite length_app. cbn [length].
      replace (0 <? length pre + S (length rest))%nat with true
        by (symmetry; apply Nat.ltb_lt; lia).
      rewrite run_mbind, Htools.
      rewrite (stream_round_not_found _ _ _ _ _ _ _ _ _ Hfind Hpre).
      unfold and_then, failing. reflexivity. }
    rewrite Htry. cbn. unfold is_abort_error, tool_not_found_v2. cbn.
    rewrite <- !app_assoc, app_nil_r. reflexivity.
  - intros fuel st w parsed pre rest func fr Hmarker Hparse Hfunctions Hfind Hpre.
    cbn [turn_loop]. unfold function_calls_open. rewrite Hmarker.
    rewrite run_mbind. unfold turn. rewrite Hparse. cbn [lift mbind prog_bind bind].
    rewrite Hfunctions, length_app. cbn [length].
    replace (0 <? length pre + S (length rest))%nat with true
      by (symmetry; apply Nat.ltb_lt; lia).
    rewrite run_mbind, (execute_each_not_found _ _ _ _ _ _ Hfind Hpre).
    unfold and_then, failing. reflexivity.
Qed.

End Tool_not_found.

(** ** The tool events of a round, as [stream] takes them *)

Section Round_events.
Context `{Externals}.

Lemma run_taken {R} (g : prog AnthropicStreamEvent R) (w : World) :
  events (run (taken g) w) = until_error (events (run g w))
  /\ (existsb is_tool_error (events (run g w)) = false ->
      trace (run (taken g) w) = trace (run g w)
      /\ world (run (taken g) w) = world (run g w)
      /\ final (run (taken g) w) =
         match final (run g w) with Ok r => Ok (Some r, ()) | Throw e => Throw e end)
  /\ (existsb is_tool_error (events (run g w)) = true ->
      final (run (taken g) w) = Ok (None, ())).
Proof.
  revert w. induction g as [r|e|ev k IH|A a k IH]; intros w.
  - cbn. repeat split; discriminate.
  - cbn. repeat split; discriminate.
  - unfold taken. cbn [for_await take_event bind run fst snd].
    destruct (is_tool_error ev) eqn:Hev; cbn [events emitted existsb until_error orb].
    + rewrite Hev. cbn. split; [reflexivity|]. split; [discriminate | reflexivity].
    + rewrite Hev. cbn [orb]. destruct (IH w) as (Hevs & Hquiet & Herr).
      fold (taken k). cbn [trace world final emitted]. rewrite Hevs. repeat split.
      * apply Hquiet; assumption.
      * apply Hquiet; assumption.
      * apply Hquiet; assumption.
      * assumption.
  - unfold taken. cbn [for_await run]. fold (@taken _ R).
    cbn [events trace world final performed]. destruct (IH (perform a w).1 (perform a w).2) as (Hevs & Hquiet & Herr).
    split; [exact Hevs|]. split; [|exact Herr].
    intros Hq. destruct (Hquiet Hq) as (Ht & Hw & Hf).
    split; [f_equal; exact Ht|]. split; [exact Hw | exact Hf].
Qed.

(** The loop of [stream] takes the same events out of a generator as
    [taken] and performs the same actions; it hands on those that are a
    [tool_result], a [tool_error] or a [tool_results]. *)
Lemma stream_forwards {R} (g : prog AnthropicStreamEvent R)
    (r : option (list MessageParam * gmap string value)) (w : World) :
  events (run (for_await g forward r) w) = List.filter forwarded (events (run (taken g) w))
  /\ trace (run (for_await g forward r) w) = trace (run (taken g) w)
  /\ world (run (for_await g forward r) w) = world (run (taken g) w).
Proof.
  revert r w. induction g as [x|e|ev k IH|A a k IH]; intros r w.
  - cbn. auto.
  - cbn. auto.
  - unfold taken. cbn [for_await take_event bind run fst snd]. fold (taken k).
    destruct ev as [chunk|tool|tool v|tool e|tool ps|ts rs ms]; cbn.
    + apply IH.
    + apply IH.
    + destruct (IH r w) as (-> & -> & ->). auto.
    + auto.
    + apply IH.
    + destruct (IH (Some (ms, rs)) w) as (-> & -> & ->). auto.
  - unfold taken. cbn [for_await run]. fold (@taken _ R).
    cbn [events trace world performed].
    destruct (IH (perform a w).1 r (perform a w).2) as (-> & -> & ->). auto.
Qed.

Lemma at_most_one_outcome_open (evs : list AnthropicStreamEvent) :
  at_most_one_outcome false evs = true -> at_most_one_outcome true evs = true.
Proof.
  destruct evs as [|ev evs]; [reflexivity|]. cbn.
  destruct (is_tool_invoke ev); [auto|].
  destruct (is_tool_result ev || is_tool_error ev); [discriminate | ].
  revert ev. induction evs as [|ev' evs IH]; intros _; [reflexivity|]. cbn.
  destruct (is_tool_invoke ev'); [auto|].
  destruct (is_tool_result ev' || is_tool_error ev'); [discriminate | apply (IH ev')].
Qed.

Lemma at_most_one_outcome_last (b : bool) (evs : list AnthropicStreamEvent)
    (ev : AnthropicStreamEvent) :
  is_tool_results ev = true ->
  at_most_one_outcome b (evs ++ [ev]) = at_most_one_outcome b evs.
Proof.
  intros Hev. revert b. induction evs as [|ev' evs IH]; intros b; cbn.
  - destruct ev; try discriminate. reflexivity.
  - rewrite !IH. reflexivity.
Qed.

Lemma invoked_last (evs : list AnthropicStreamEvent) (ev : AnthropicStreamEvent) :
  is_tool_results ev = true -> invoked (evs ++ [ev]) = invoked evs.
Proof.
  intros Hev. unfold invoked. rewrite omap_app. destruct ev; try discriminate.
  cbn. apply app_nil_r.
Qed.

Lemma until_error_last (evs : list AnthropicStreamEvent) (ev : AnthropicStreamEvent) :
  existsb is_tool_error evs = false -> until_error (evs ++ [ev]) = (evs ++ [ev])%list.
Proof.
  induction evs as [|ev' evs IH]; cbn.
  - intros _. destruct (is_tool_error ev); reflexivity.
  - destruct (is_tool_error ev'); [discriminate|]. cbn. intros Hq. rewrite IH; auto.
Qed.

(** What [stream] takes out of the inner loop of one invocation: nothing and
    an exception, or a [tool_error] at which it stops, or at most a
    [tool_result] and the loop goes on. *)
Lemma taken_invocation (tool : ToolDefinition) (tools_model : string) (context : value)
    (st : Round) (w : World) :
  let o := run (taken (for_await (invokeFunction tool tools_model context)
                         (on_outcome tool) st)) w in
  (events o = [] /\ exists e, final o = Throw e)
  \/ (exists e, events o = [tool_error tool e] /\ final o = Ok (None, ()))
  \/ (exists inner, (events o = [] \/ exists v, events o = [tool_result tool v])
                    /\ final o = Ok (Some inner, ())).
Proof.
  cbn zeta.
  destruct (run_taken (for_await (invokeFunction tool tools_model context)
                         (on_outcome tool) st) w) as (Hevs & Hquiet & Herr).
  revert Hevs Hquiet Herr. rewrite run_invokeFunction. cbn zeta.
  set (aw := messages_tool_stream _ w).
  destruct (aw.1 ≫= resolved_parameters tool) as [[e|parsed]|e];
    cbn [events trace final world performed thrown reported].
  - unfold outcome_events. cbn [error data].
    destruct (truthy e) eqn:He; cbn.
    + intros -> _ ->; [|reflexivity]. right; left. eauto.
    + intros -> Hq _. destruct (Hq eq_refl) as (_ & _ & ->). right; right. eauto.
  - set (rw := function tool parsed aw.2). unfold outcome_events.
    destruct (truthy (error (outcome_of rw.1))) eqn:He; cbn.
    + intros -> _ ->; [|reflexivity]. right; left. eauto.
    + destruct (defined (data (outcome_of rw.1))); cbn;
        intros -> Hq _; destruct (Hq eq_refl) as (_ & _ & ->); right; right; eauto.
  - cbn. intros -> Hq _. destruct (Hq eq_refl) as (_ & _ & ->). left. eauto.
Qed.

Lemma taken_invoke_each (tools : list ToolDefinition) (tools_model : string)
    (calls : list FunctionCall) (st : Round) (w : World) :
  let o := run (taken (invoke_each tools tools_model calls st)) w in
  (exists k, map Some (invoked (events o)) = map (tool_of tools) (take k calls))
  /\ at_most_one_outcome false (events o) = true
  /\ until_error (events o) = events o
  /\ existsb is_tool_results (events o) = false
  /\ (forall st', final o = Ok (Some st', ()) ->
        length (invoked (events o)) = length calls
        /\ existsb is_tool_error (events o) = false).
Proof.
  cbn zeta. revert st w. induction calls as [|func rest IH]; intros st w.
  - cbn. split; [exists 0%nat; reflexivity|]. auto.
  - cbn [invoke_each]. destruct (find_tool tools (call_tool_name func)) as [tool|] eqn:Hfind.
    2:{ cbn. split; [exists 0%nat; reflexivity|]. repeat split; discriminate. }
    unfold taken. cbn [for_await take_event bind run fst snd is_tool_error].
    rewrite run_for_await_mbind.
    fold (taken (for_await (invokeFunction tool tools_model (call_context func))
                   (on_outcome tool) st)).
    destruct (taken_invocation tool tools_model (call_context func) st w)
      as [(Hevs & e & Hfinal) | [(e & Hevs & Hfinal) | (inner & Hevs & Hfinal)]];
      unfold and_then; rewrite Hfinal; cbn [events final emitted fst snd run].
    + rewrite Hevs. cbn. split; [exists 1%nat; cbn; unfold tool_of; rewrite Hfind; reflexivity|].
      repeat split; discriminate.
    + rewrite Hevs. cbn. split; [exists 1%nat; cbn; unfold tool_of; rewrite Hfind; reflexivity|].
      repeat split; discriminate.
    + fold (taken (invoke_each tools tools_model rest inner.2)).
      set (w' := world _).
      destruct (IH inner.2 w') as ((k & Hk) & Hone & Huntil & Hnone & Hdone).
      set (o' := run (taken (invoke_each tools tools_model rest inner.2)) w') in *.
      assert (Hinv : invoked (tool_invoke tool ::
                        events (run (taken (for_await
                          (invokeFunction tool tools_model (call_context func))
                          (on_outcome tool) st)) w) ++ events o') = tool :: invoked (events o')).
      { destruct Hevs as [-> | (v & ->)]; reflexivity. }
      split; [|split; [|split; [|split]]].
      * exists (S k). rewrite Hinv. cbn. unfold tool_of at 1. rewrite Hfind, Hk. reflexivity.
      * destruct Hevs as [-> | (v & ->)]; cbn.
        -- apply at_most_one_outcome_open, Hone.
        -- apply Hone.
      * destruct Hevs as [-> | (v & ->)]; cbn; rewrite Huntil; reflexivity.
      * destruct Hevs as [-> | (v & ->)]; cbn; exact Hnone.
      * intros st' Hfin. destruct (Hdone st' Hfin) as (Hlen & Hq). split.
        -- rewrite Hinv. cbn. rewrite Hlen. reflexivity.
        -- destruct Hevs as [-> | (v & ->)]; cbn; exact Hq.
Qed.

End Round_events.

(** ** The shapes of the parsed block *)

Section Parser_shapes.
Context `{Externals}.

(** The two shapes the parser of the clients tells apart: a
    [function_calls] that is one holder of an [invoke], and a
    [function_calls] that is an array of such holders.  Both become a list
    with one record per holder, and one holder gives the same record in
    either shape. *)
Lemma extractFunctionCalls_holder (txt : string) (root holder : value) (c : FunctionCall) :
  includes txt "<function_calls>" = true ->
  XMLParser_parse (function_calls_block txt) = Ok root ->
  get root "function_calls" = Ok holder ->
  isArray holder = false ->
  call_of_invoke holder = Ok c ->
  extractFunctionCalls txt = Ok [c].
Proof.
  intros Hmarker Hparse Hcalls Harr Hc. unfold extractFunctionCalls, function_calls_open.
  rewrite Hmarker, Hparse. cbn. rewrite Hcalls. cbn.
  destruct holder; try discriminate; rewrite Hc; reflexivity.
Qed.

Lemma map_result_length {A B} (f : A -> result B) (l : list A) (l' : list B) :
  map_result f l = Ok l' -> length l' = length l.
Proof.
  revert l'. induction l as [|x l IH]; intros l'; cbn.
  - intros [= <-]. reflexivity.
  - destruct (f x) as [y|e]; cbn; [|discriminate].
    destruct (map_result f l) as [ys|e]; cbn; [|discriminate].
    intros [= <-]. cbn. rewrite (IH ys eq_refl). reflexivity.
Qed.

Lemma extractFunctionCalls_array (txt : string) (root : value) (holders : list value)
    (cs : list FunctionCall) :
  includes txt "<function_calls>" = true ->
  XMLParser_parse (function_calls_block txt) = Ok root ->
  get root "function_calls" = Ok (VArr holders) ->
  map_result call_of_invoke holders = Ok cs ->
  extractFunctionCalls txt = Ok cs /\ length cs = length holders.
Proof.
  intros Hmarker Hparse Hcalls Hcs. unfold extractFunctionCalls, function_calls_open.
  rewrite Hmarker, Hparse. cbn. rewrite Hcalls. cbn.
  split; [assumption | eapply map_result_length; eassumption].
Qed.

(** C2 at the input on which the code fails.  A block with several
    [invoke] elements inside one [function_calls] element, the grammar of
    the system prompt, is parsed by the XML library into a
    [function_calls] object whose one field [invoke] holds the array of the
    elements.  [Array.isArray] is asked of [function_calls], not of its
    [invoke]: the clients take the object for a single holder and read
    [tool_name] and the payload off the array, so they return one record
    with [undefined] fields, however many elements the block has. *)
Theorem repeated_invoke_collapses (txt : string) (root : value)
    (fields : list (string * value)) (elements : list value) :
  includes txt "<function_calls>" = true ->
  XMLParser_parse (function_calls_block txt) = Ok root ->
  get root "function_calls" = Ok (VObj fields) ->
  assoc "invoke" fields = VArr elements ->
  extractFunctionCalls txt =
    Ok [{| call_tool_name := VUndefined; call_context := VUndefined |}]
  /\ parse_invocations txt =
    Ok [{| inv_name := VUndefined; inv_parameters := VObj (for_in VUndefined) |}].
Proof.
  intros Hmarker Hparse Hcalls Hinvoke. split.
  - unfold extractFunctionCalls, function_calls_open. rewrite Hmarker, Hparse. cbn.
    rewrite Hcalls. cbn. unfold call_of_invoke. cbn. rewrite Hinvoke. reflexivity.
  - unfold parse_invocations. rewrite Hparse. cbn. rewrite Hcalls. cbn.
    unfold invocation_of. cbn. rewrite Hinvoke. reflexivity.
Qed.

End Parser_shapes.

(** ** The rounds of the buffered loop *)

Section Buffered_rounds.
Context `{Externals}.


(** The loop over [functions] calls the functions planned for an initial
    segment of the list, in order, and for the whole list when it ends
    without [break]. *)
Lemma execute_each_calls (tools : list ToolDefinition) (fs : list Invocation)
    (b0 : string) (w : World) :
  let o := run (for_each fs (execute_one tools) b0) w in
  (exists k, map Some (tool_calls (trace o)) = map (plan tools) (take k fs))
  /\ (forall b, final o = Ok (Continue, b) ->
        map Some (tool_calls (trace o)) = map (plan tools) fs).
Proof.
  cbn zeta. revert b0 w. induction fs as [|func rest IH]; intros b0 w.
  - cbn. split; [exists 0%nat; reflexivity | reflexivity].
  - cbn [for_each]. rewrite run_bind.
    remember (for_each rest (execute_one tools)) as loop eqn:Hloop.
    unfold execute_one.
    destruct (find_tool tools (inv_name func)) as [tool|] eqn:Hfind.
    2:{ cbn. split; [exists 0%nat; reflexivity | discriminate]. }
    destruct (safeParse (parameters (anthropic tool)) (inv_parameters func))
      as [parsed|zod_error] eqn:Hsafe.
    2:{ cbn. split; [exists 0%nat; reflexivity | discriminate]. }
    cbn [mbind prog_bind bind await run]. rewrite and_then_performed.
    cbn [perform]. destruct (function tool parsed w) as [[v|e] w'] eqn:Hcall;
      cbn [fst snd run]; unfold and_then; cbn [final fst snd events trace world performed].
    + subst loop.
      destruct (IH (b0 ++ function_result (template (inv_name func)) (JSON_stringify v)) w')
        as ((k & Hk) & Hall).
      split.
      * exists (S k). cbn. unfold plan at 1. rewrite Hfind, Hsafe. f_equal. exact Hk.
      * intros b Hb. cbn. unfold plan at 1. rewrite Hfind, Hsafe. f_equal. exact (Hall b Hb).
    + cbn. split; [|discriminate].
      exists 1%nat. cbn. unfold plan. rewrite Hfind, Hsafe. reflexivity.
Qed.

(** After the loop over [functions], a round sends one request and calls no
    tool; when the loop goes on, [functions] is the list the round ran. *)
Lemma run_feedback (st : Turn) (fs : list Invocation) (block : string) (w : World) :
  let o := run (feedback st fs block) w in
  (exists t, trace o = Io (create (feedback_request st block)) :: t /\ tool_calls t = [])
  /\ (forall st', final o = Ok (inr st') -> functions st' = fs /\ first st' = false).
Proof.
  cbn zeta. unfold feedback, feedback_request, result_message.
  cbn [mbind prog_bind bind await run perform].
  destruct (messages_create _ w) as [[response'|e] w'] eqn:Hcreate; cbn -[getTextFromContent].
  - destruct (getTextFromContent (CBlocks (response_content response'))); cbn.
    + split; [exists []; split; reflexivity|]. intros st' [= <-]. auto.
    + split; [exists []; split; reflexivity|]. discriminate.
  - split; [exists []; split; reflexivity|]. discriminate.
Qed.

Lemma run_turn (tools : list ToolDefinition) (st : Turn) (w : World) (parsed : list Invocation) :
  parse_invocations (text st) = Ok parsed ->
  (functions st ++ parsed)%list <> [] ->
  run (turn tools st) w =
  and_then (run (execute_each tools (functions st ++ parsed)) w)
    (fun executed w' => run (feedback st (functions st ++ parsed) executed.2) w').
Proof.
  intros Hparse Hsome. unfold turn. rewrite Hparse. cbn [lift mbind prog_bind bind].
  destruct (functions st ++ parsed)%list as [|f fs] eqn:Hfs; [congruence|].
  cbn [length Nat.ltb Nat.leb]. apply run_bind.
Qed.
















End Buffered_rounds.

(** ** What a streamed round feeds back *)

Section Streamed_feedback.
Context `{Externals}.

Lemma existsb_filter_true {A} (p q : A -> bool) (l : list A) :
  existsb p (List.filter q l) = true -> existsb p l = true.
Proof.
  induction l as [|x l IH]; cbn; [auto|].
  destruct (q x); cbn; [|intros Hl; rewrite (IH Hl); apply orb_true_r].
  destruct (p x); cbn; auto.
Qed.

Lemma existsb_filter_false {A} (p q : A -> bool) (l : list A) :
  existsb p l = false -> existsb p (List.filter q l) = false.
Proof.
  intros Hl. destruct (existsb p (List.filter q l)) eqn:Hf; [|reflexivity].
  apply existsb_filter_true in Hf. congruence.
Qed.

(** In a round in which [stream] hands on a [tool_error], it hands on no
    [tool_results]: the event that carries the serialized result block and
    the follow-up message is never produced, since the generator is closed
    at the [tool_error], before the reset of the block (v2.ts:283) and
    before the block is closed and pushed (v2.ts:300-316). *)
Lemma error_round_has_no_result_block (tools : list ToolDefinition) (tools_model : string)
    (calls : list FunctionCall) (r : option (list MessageParam * gmap string value))
    (w : World) :
  let evs := events (run (for_await (invokeFunctions calls tools tools_model) forward r) w) in
  existsb is_tool_error evs = true -> existsb is_tool_results evs = false.
Proof.
  cbn zeta. destruct (stream_forwards (invokeFunctions calls tools tools_model) r w) as (-> & _).
  unfold invokeFunctions, taken. rewrite run_for_await_mbind.
  fold (taken (invoke_each tools tools_model calls
                 {| functionResults := function_results_open; results := ∅ |})).
  destruct (taken_invoke_each tools tools_model calls
              {| functionResults := function_results_open; results := ∅ |} w)
    as (_ & _ & _ & Hnone & Hdone).
  set (o := run (taken (invoke_each tools tools_model calls _)) w) in *.
  unfold and_then. destruct (final o) as [[[st'|] []]|e] eqn:Hfinal;
    cbn [events final fst snd run for_await take_event bind emitted is_tool_error].
  - destruct (Hdone st' eq_refl) as (_ & Hq). intros Herr.
    apply existsb_filter_true in Herr. rewrite existsb_app, Hq in Herr. discriminate.
  - intros _. rewrite app_nil_r. apply existsb_filter_false, Hnone.
  - intros _. apply existsb_filter_false, Hnone.
Qed.

Lemma stream_requests_app (t1 t2 : list io) :
  stream_requests (t1 ++ t2) = (stream_requests t1 ++ stream_requests t2)%list.
Proof. apply omap_app. Qed.

(** The actions [stream] performs on a generator are the first of those
    the generator performs when it runs to its end. *)
Lemma trace_taken_prefix {R} (g : prog AnthropicStreamEvent R) (w : World) :
  exists rest, trace (run g w) = (trace (run (taken g) w) ++ rest)%list.
Proof.
  revert w. induction g as [r|e|ev k IH|A a k IH]; intros w.
  - exists []. reflexivity.
  - exists []. reflexivity.
  - unfold taken. cbn [for_await take_event bind run fst snd].
    destruct (is_tool_error ev); cbn.
    + exists (trace (run k w)). reflexivity.
    + apply IH.
  - unfold taken. cbn [for_await run]. cbn [trace performed].
    destruct (IH (perform a w).1 (perform a w).2) as (rest & Hrest).
    exists rest. rewrite Hrest. reflexivity.
Qed.

(** A round sends no request for a streamed response: its requests are
    those of the parameter resolver. *)
Lemma round_sends_no_stream_request (tools : list ToolDefinition) (tools_model : string)
    (calls : list FunctionCall) (st : Round) (w : World) :
  stream_requests (trace (run (invoke_each tools tools_model calls st) w)) = [].
Proof.
  revert st w. induction calls as [|func rest IH]; intros st w; [reflexivity|].
  destruct (find_tool tools (call_tool_name func)) as [tool|] eqn:Hfind.
  2:{ cbn [invoke_each]. rewrite Hfind. reflexivity. }
  rewrite (run_invoke_each_cons _ _ _ _ _ _ _ Hfind), run_invokeFunction. cbn zeta.
  set (aw := messages_tool_stream _ w). rewrite and_then_performed.
  cbn [trace emitted performed].
  destruct (aw.1 ≫= resolved_parameters tool) as [[e|parsed]|e].
  - unfold and_then, reported. cbn. apply IH.
  - rewrite and_then_performed. unfold and_then, reported. cbn. apply IH.
  - reflexivity.
Qed.

Lemma processChunk_performs_nothing (cs : list MessageStreamEvent) (content : Content)
    (w : World) :
  trace (run (for_chunks cs processChunk content) w) = []
  /\ world (run (for_chunks cs processChunk content) w) = w.
Proof.
  revert content. induction cs as [|c cs IH]; intros content; [split; reflexivity|].
  cbn [for_chunks]. rewrite run_bind. unfold and_then.
  destruct c as [| | |index text|index text|index]; cbn; try apply IH.
  destruct (array_get index content); cbn; [apply IH | split; reflexivity].
Qed.

Lemma forward_chunks_perform_nothing (cs : list MessageStreamEvent) (w : World) :
  trace (run (for_chunks cs (fun chunk (_ : unit) => Yield (provider_event chunk) (Ret ())) ()) w)
  = [].
Proof.
  induction cs as [|c cs IH]; [reflexivity|].
  cbn [for_chunks bind run trace emitted]. exact IH.
Qed.

Lemma sendFinalResponse_requests (body : MessageCreateParams) (msgs : list MessageParam)
    (w : World) :
  stream_requests (trace (run (sendFinalResponse body msgs) w)) = [final_request body msgs].
Proof.
  unfold sendFinalResponse. cbn [mbind prog_bind bind await run perform trace performed].
  cbn [stream_requests omap stream_request_of]. f_equal.
  destruct (messages_stream (final_request body msgs) w) as [[src|e] w']; cbn; [|reflexivity].
  unfold for_await_stream. rewrite run_bind. unfold and_then.
  destruct (final (run (for_chunks (chunks src) _ ()) w')) eqn:Hfinal; cbn.
  - rewrite forward_chunks_perform_nothing. cbn. destruct (failure src); reflexivity.
  - rewrite forward_chunks_perform_nothing. reflexivity.
Qed.

(** The requests for a streamed response that one iteration of the stream
    sends all carry the messages of the caller's body, unchanged: the
    follow-up message that [invokeFunctions] builds is in none of them. *)
Lemma iteration_requests_carry_body_messages (s : Stream) (w : World) :
  Forall (fun req => req_messages req = messages (stream_body s))
    (stream_requests (trace (run (iterator_body s) w))).
Proof.
  assert (Htry : Forall (fun req => req_messages req = messages (stream_body s))
                   (stream_requests (trace (run (iterator_try s) w)))).
  { unfold iterator_try. rewrite run_mbind. unfold for_await_stream. rewrite run_bind.
    destruct (processChunk_performs_nothing (chunks (source s)) [] w) as (Htrace & Hworld).
    unfold and_then at 2.
    destruct (final (run (for_chunks (chunks (source s)) processChunk []) w)) as [content|e].
    2:{ unfold and_then. cbn. rewrite Htrace. constructor. }
    cbn [trace events final world]. rewrite Htrace, Hworld.
    destruct (failure (source s)) as [e|]; [unfold and_then; cbn; constructor|].
    unfold and_then. cbn [run final trace world app].
    unfold after_stream. destruct (array_get 0 content) as [txt|]; [|constructor].
    destruct (includes txt function_calls_open); [|constructor].
    destruct (extractFunctionCalls txt) as [calls|e]; cbn [lift mbind prog_bind bind];
      [|constructor].
    destruct (0 <? length calls)%nat; [|constructor].
    rewrite run_mbind.
    destruct (stream_forwards
                (invokeFunctions calls (stream_tools (stream_body s))
                   (stream_tools_model (stream_body s))) None w) as (_ & Htr & _).
    assert (Hround : stream_requests
                       (trace (run (for_await
                          (invokeFunctions calls (stream_tools (stream_body s))
                             (stream_tools_model (stream_body s))) forward None) w)) = []).
    { rewrite Htr.
      destruct (trace_taken_prefix
                  (invokeFunctions calls (stream_tools (stream_body s))
                     (stream_tools_model (stream_body s))) w) as (rest & Hrest).
      assert (Hall : stream_requests
                       (trace (run (invokeFunctions calls (stream_tools (stream_body s))
                                      (stream_tools_model (stream_body s))) w)) = []).
      { unfold invokeFunctions. rewrite run_mbind. unfold and_then.
        destruct (final (run (invoke_each _ _ calls _) w)); cbn [trace];
          rewrite ?stream_requests_app, round_sends_no_stream_request; reflexivity. }
      rewrite Hrest, stream_requests_app in Hall. apply app_eq_nil in Hall. apply Hall. }
    unfold and_then.
    destruct (final (run (for_await _ forward None) w)); cbn [trace].
    - rewrite stream_requests_app, Hround, sendFinalResponse_requests.
      constructor; [reflexivity | constructor].
    - rewrite Hround. constructor. }
  rewrite run_iterator_body, run_try_catch.
  destruct (final (run (iterator_try s) w)) as [[]|e]; [exact Htry|].
  cbn [trace]. rewrite stream_requests_app. apply Forall_app. split; [exact Htry|].
  cbn. destruct (is_abort_error e); constructor.
Qed.

End Streamed_feedback.

(** ** The block between the markers *)

Section Between_markers.
Context `{Externals}.

Lemma append_nil_r (s : string) : s ++ "" = s.
Proof. induction s as [|a s IH]; [reflexivity|]. rewrite append_cons, IH. reflexivity. Qed.

Lemma prefix_append (p s : string) : String.prefix p (p ++ s) = true.
Proof.
  induction p as [|a p IH]; [destruct s; reflexivity|].
  rewrite append_cons. cbn. destruct (Ascii.ascii_dec a a); [exact IH | congruence].
Qed.

Lemma includes_prefix (s sep : string) : String.prefix sep s = true -> includes s sep = true.
Proof. intros Hp. destruct s; cbn [includes]; rewrite Hp; reflexivity. Qed.

Lemma split_go_skip (sep u v piece : string) :
  split_go sep (String.length u) piece (u ++ v) = split_go sep 0 piece v.
Proof.
  induction u as [|a u IH]; [reflexivity|].
  rewrite append_cons. cbn [String.length split_go]. exact IH.
Qed.

Lemma split_go_without (sep s piece : string) :
  includes s sep = false -> split_go sep 0 piece s = [piece ++ s].
Proof.
  revert piece. induction s as [|a s IH]; intros piece; cbn [includes split_go].
  - intros _. rewrite append_nil_r. reflexivity.
  - destruct (String.prefix sep (String a s)); [discriminate|].
    intros Hs. rewrite (IH _ Hs), append_assoc. reflexivity.
Qed.

Lemma split_go_first (a : ascii) (sep' pre rest piece : string) :
  starts_none (String a sep') pre (String a sep' ++ rest) = true ->
  split_go (String a sep') 0 piece (pre ++ String a sep' ++ rest) =
  (piece ++ pre) :: split_go (String a sep') 0 "" rest.
Proof.
  revert piece. induction pre as [|c q IH]; intros piece.
  - intros _. change ("" ++ String a sep' ++ rest) with (String a sep' ++ rest).
    rewrite append_nil_r. rewrite append_cons. cbn [split_go].
    rewrite <- append_cons, prefix_append.
    replace (String.length (String a sep') - 1)%nat with (String.length sep')
      by (cbn; lia).
    rewrite split_go_skip. reflexivity.
  - cbn [starts_none]. intros Hnone. apply andb_true_iff in Hnone as (Hhere & Hlater).
    apply negb_true_iff in Hhere.
    rewrite append_cons in *. cbn [split_go]. rewrite Hhere.
    rewrite (IH _ Hlater), append_assoc. reflexivity.
Qed.

(** X1.  [extractFunctionCalls] and the buffered loop hand the XML parser
    the text between the first start marker and the next one: what comes
    before the first marker is dropped, and so is everything from a second
    marker on, so a second invocation block in the same reply is never
    parsed.  Without a second marker the block runs to the end of the
    reply. *)
Theorem block_is_between_markers (pre mid tail : string) :
  (starts_none function_calls_open pre (function_calls_open ++ mid) = true ->
   includes mid function_calls_open = false ->
   function_calls_block (pre ++ function_calls_open ++ mid) =
   function_calls_open ++ LF ++ mid ++ LF ++ function_calls_close)
  /\ (starts_none function_calls_open pre
        (function_calls_open ++ mid ++ function_calls_open ++ tail) = true ->
      starts_none function_calls_open mid (function_calls_open ++ tail) = true ->
      function_calls_block (pre ++ function_calls_open ++ mid ++ function_calls_open ++ tail) =
      function_calls_open ++ LF ++ mid ++ LF ++ function_calls_close).
Proof.
  unfold function_calls_block, split, function_calls_open. split.
  - intros Hpre Hmid. rewrite (split_go_first _ _ _ _ _ Hpre), (split_go_without _ _ _ Hmid).
    reflexivity.
  - intros Hpre Hmid. rewrite (split_go_first _ _ _ _ _ Hpre), (split_go_first _ _ _ _ _ Hmid).
    reflexivity.
Qed.

End Between_markers.

(** ** The text of the content blocks *)

Section Content_blocks.
Context `{Externals}.

Lemma array_get_set_same {A} (i : nat) (x : A) (a : list (option A)) :
  array_get i (array_set i x a) = Some x.
Proof.
  unfold array_get. revert a. induction i as [|i IH]; intros [|y a]; cbn; try reflexivity.
  - apply (IH []).
  - apply (IH a).
Qed.

Lemma array_get_set_other {A} (i j : nat) (x : A) (a : list (option A)) :
  i <> j -> array_get j (array_set i x a) = array_get j a.
Proof.
  unfold array_get.
  revert j a. induction i as [|i IH]; intros [|j] [|y a] Hij; cbn; try congruence.
  - destruct j; reflexivity.
  - etrans; [apply IH; congruence|]. destruct j; reflexivity.
  - apply IH. congruence.
Qed.

Lemma resolver_content_block (i : nat) (cs : list MessageStreamEvent) (c c' : Content) :
  resolver_content cs c = Ok c' -> array_get i c' = block_text i cs (array_get i c).
Proof.
  revert c. induction cs as [|chunk cs IH]; intros c; cbn [resolver_content block_text].
  - intros [= <-]. reflexivity.
  - destruct chunk as [| | |index text|index text|index]; try apply IH.
    + intros Hrest. rewrite (IH _ Hrest). destruct (Nat.eqb_spec index i) as [->|Hne].
      * rewrite array_get_set_same. reflexivity.
      * rewrite array_get_set_other by assumption. reflexivity.
    + destruct (array_get index c) as [old|] eqn:Hold; [|discriminate].
      intros Hrest. rewrite (IH _ Hrest). destruct (Nat.eqb_spec index i) as [->|Hne].
      * rewrite array_get_set_same, Hold. reflexivity.
      * rewrite array_get_set_other by assumption. reflexivity.
Qed.

Lemma run_processChunks (cs : list MessageStreamEvent) (c : Content) (w : World) :
  match resolver_content cs c with
  | Ok c' =>
      run (for_chunks cs processChunk c) w =
      {| events := map provider_event cs; trace := []; final := Ok c'; world := w |}
  | Throw e =>
      e = TypeError
      /\ exists k, (k < length cs)%nat
         /\ run (for_chunks cs processChunk c) w =
            {| events := map provider_event (take k cs); trace := [];
               final := Throw TypeError; world := w |}
  end.
Proof.
  revert c. induction cs as [|chunk cs IH]; intros c; [reflexivity|].
  cbn [for_chunks resolver_content]. rewrite run_bind.
  assert (Hstep : forall c1 : Content, run (Yield (provider_event chunk) (Ret c1)) w =
                             {| events := [provider_event chunk]; trace := [];
                                final := Ok c1; world := w |}) by reflexivity.
  assert (Hnext : forall c1 : Content,
    match resolver_content cs c1 with
    | Ok c' =>
        and_then {| events := [provider_event chunk]; trace := []; final := Ok c1; world := w |}
          (fun r w' => run (for_chunks cs processChunk r) w') =
        {| events := map provider_event (chunk :: cs); trace := []; final := Ok c'; world := w |}
    | Throw e =>
        e = TypeError
        /\ exists k, (k < length (chunk :: cs))%nat
           /\ and_then {| events := [provider_event chunk]; trace := []; final := Ok c1;
                          world := w |}
                (fun r w' => run (for_chunks cs processChunk r) w') =
              {| events := map provider_event (take k (chunk :: cs)); trace := [];
                 final := Throw TypeError; world := w |}
    end).
  { intros c1. specialize (IH c1). destruct (resolver_content cs c1) as [c'|e].
    - unfold and_then. cbn. rewrite IH. reflexivity.
    - destruct IH as (-> & k & Hk & Hrun). split; [reflexivity|].
      exists (S k). split; [cbn; lia|]. unfold and_then. cbn. rewrite Hrun. reflexivity. }
  destruct chunk as [| | |index text|index text|index]; cbn [processChunk];
    try (rewrite Hstep; apply Hnext).
  destruct (array_get index c) as [old|]; [rewrite Hstep; apply Hnext|].
  split; [reflexivity|]. exists 0%nat. split; [cbn; lia | reflexivity].
Qed.

(** X2.  The iteration hands on every event of the provider's stream,
    unchanged and in order, and performs nothing while it does; the text it
    keeps for block [i] is the text of the start of block [i] followed by
    the texts of its deltas, whatever chunks of other blocks come in
    between. *)
Theorem provider_events_are_forwarded (cs : list MessageStreamEvent) (c c' : Content)
    (w : World) :
  resolver_content cs c = Ok c' ->
  run (for_chunks cs processChunk c) w =
    {| events := map provider_event cs; trace := []; final := Ok c'; world := w |}
  /\ forall i, array_get i c' = block_text i cs (array_get i c).
Proof.
  intros Hc. split.
  - pose proof (run_processChunks cs c w) as Hrun. rewrite Hc in Hrun. exact Hrun.
  - intros i. apply resolver_content_block, Hc.
Qed.

(** X3.  A delta for a block that has not started makes the bookkeeping
    throw a [TypeError]: the iteration has handed on the chunks before it,
    aborts the controller and throws, without looking at the text. *)
Theorem delta_before_start_throws (s : Stream) (w : World) (e : value) :
  resolver_content (chunks (source s)) [] = Throw e ->
  exists k, (k < length (chunks (source s)))%nat
    /\ run (iterator_body s) w =
       {| events := map provider_event (take k (chunks (source s)));
          trace := [Io abort]; final := Throw TypeError; world := controller_abort w |}.
Proof.
  intros He. pose proof (run_processChunks (chunks (source s)) [] w) as Hrun.
  rewrite He in Hrun. destruct Hrun as (_ & k & Hk & Hrun).
  exists k. split; [exact Hk|].
  rewrite run_iterator_body, run_try_catch.
  assert (Htry : run (iterator_try s) w =
                 {| events := map provider_event (take k (chunks (source s))); trace := [];
                    final := Throw TypeError; world := w |}).
  { unfold iterator_try. rewrite run_mbind. unfold for_await_stream. rewrite run_bind, Hrun.
    reflexivity. }
  rewrite Htry. cbn. rewrite app_nil_r. reflexivity.
Qed.

End Content_blocks.

(** ** The actions of one iteration of the stream *)

Section Iteration.
Context `{Externals}.

Lemma find_tool_registered (tools : list ToolDefinition) (name : value) (tool : ToolDefinition) :
  find_tool tools name = Some tool ->
  In tool tools /\ name = VStr (tool_name (anthropic tool)).
Proof.
  unfold find_tool. intros Hfind. apply find_some in Hfind. destruct Hfind as (Hin & Hname).
  split; [exact Hin|]. destruct name; try discriminate. cbn in Hname.
  apply String.eqb_eq in Hname. congruence.
Qed.

Lemma resolved_parameters_validated (tool : ToolDefinition) (src : ProviderStream)
    (parsed : value) :
  resolved_parameters tool src = Ok (inr parsed) ->
  exists input, safeParse (parameters (anthropic tool)) input = inl parsed.
Proof.
  unfold resolved_parameters.
  destruct (resolver_content (chunks src) []) as [content|e]; cbn; [|discriminate].
  destruct (failure src); [discriminate|].
  destruct (JSON_parse (replace_parameters (join_text content))) as [json|e]; [|discriminate].
  destruct (safeParse (parameters (anthropic tool)) json) as [p|z] eqn:Hsafe; [|discriminate].
  intros [= <-]. exists json. exact Hsafe.
Qed.

(** The actions of the generator of a round, run to its end. *)
Lemma round_actions (tools : list ToolDefinition) (tools_model : string)
    (calls : list FunctionCall) (st : Round) (w : World) :
  Forall (round_action tools) (trace (run (invoke_each tools tools_model calls st) w)).
Proof.
  revert st w. induction calls as [|func rest IH]; intros st w; [constructor|].
  destruct (find_tool tools (call_tool_name func)) as [tool|] eqn:Hfind.
  2:{ cbn [invoke_each]. rewrite Hfind. constructor. }
  destruct (find_tool_registered _ _ _ Hfind) as (Hin & _).
  rewrite (run_invoke_each_cons _ _ _ _ _ _ _ Hfind), run_invokeFunction. cbn zeta.
  set (aw := messages_tool_stream _ w). rewrite and_then_performed.
  cbn [trace emitted performed]. constructor; [exact I|].
  destruct aw as [[src|e] w1]; cbn [fst snd mbind result_bind]; [|constructor].
  destruct (resolved_parameters tool src) as [[e|parsed]|e] eqn:Hparams.
  - unfold and_then, reported. cbn. apply IH.
  - rewrite and_then_performed. cbn [trace performed]. constructor.
    + split; [exact Hin|]. eapply resolved_parameters_validated; eassumption.
    + unfold and_then, reported. cbn. apply IH.
  - constructor.
Qed.

Lemma Forall_prefix {A} (P : A -> Prop) (l1 l2 : list A) :
  Forall P (l1 ++ l2) -> Forall P l1.
Proof. intros Hall. apply Forall_app in Hall. apply Hall. Qed.

(** What [stream] performs on the generator of a round. *)
Lemma forwarded_round_actions (tools : list ToolDefinition) (tools_model : string)
    (calls : list FunctionCall) (r : option (list MessageParam * gmap string value))
    (w : World) :
  Forall (round_action tools)
    (trace (run (for_await (invokeFunctions calls tools tools_model) forward r) w)).
Proof.
  destruct (stream_forwards (invokeFunctions calls tools tools_model) r w) as (_ & -> & _).
  destruct (trace_taken_prefix (invokeFunctions calls tools tools_model) w) as (rest & Hrest).
  apply (Forall_prefix _ _ rest). rewrite <- Hrest.
  unfold invokeFunctions. rewrite run_mbind. unfold and_then.
  destruct (final (run (invoke_each _ _ calls _) w)); cbn [trace];
    rewrite ?app_nil_r; apply round_actions.
Qed.

Lemma sendFinalResponse_trace (body : MessageCreateParams) (msgs : list MessageParam)
    (w : World) :
  trace (run (sendFinalResponse body msgs) w) = [Io (create_stream (final_request body msgs))].
Proof.
  unfold sendFinalResponse. cbn [mbind prog_bind bind await run perform trace performed].
  f_equal.
  destruct (messages_stream (final_request body msgs) w) as [[src|e] w']; cbn; [|reflexivity].
  unfold for_await_stream. rewrite run_bind. unfold and_then.
  destruct (final (run (for_chunks (chunks src) _ ()) w')) eqn:Hfinal; cbn.
  - rewrite forward_chunks_perform_nothing. cbn. destruct (failure src); reflexivity.
  - rewrite forward_chunks_perform_nothing. reflexivity.
Qed.

(** The actions of the [try] block of the iteration: those of the round,
    then at most the one continuation request. *)
Lemma iterator_try_actions (s : Stream) (w : World) :
  exists round continuation,
    trace (run (iterator_try s) w) = (round ++ continuation)%list
    /\ Forall (round_action (stream_tools (stream_body s))) round
    /\ (continuation = []
        \/ continuation =
           [Io (create_stream (final_request (stream_body s) (messages (stream_body s))))]).
Proof.
  assert (Hnone : exists round continuation,
            @nil io = (round ++ continuation)%list
            /\ Forall (round_action (stream_tools (stream_body s))) round
            /\ (continuation = []
                \/ continuation =
                   [Io (create_stream
                          (final_request (stream_body s) (messages (stream_body s))))])).
  { exists [], []. split; [reflexivity|]. split; [constructor | left; reflexivity]. }
  unfold iterator_try. rewrite run_mbind. unfold for_await_stream. rewrite run_bind.
  destruct (processChunk_performs_nothing (chunks (source s)) [] w) as (Htrace & Hworld).
  unfold and_then at 2.
  destruct (final (run (for_chunks (chunks (source s)) processChunk []) w)) as [content|e].
  2:{ unfold and_then. cbn. rewrite Htrace. exact Hnone. }
  cbn [trace events final world]. rewrite Htrace, Hworld.
  destruct (failure (source s)) as [e|]; [unfold and_then; cbn; exact Hnone|].
  unfold and_then. cbn [run final trace world app].
  unfold after_stream. destruct (array_get 0 content) as [txt|]; [|exact Hnone].
  destruct (includes txt function_calls_open); [|exact Hnone].
  destruct (extractFunctionCalls txt) as [calls|e]; cbn [lift mbind prog_bind bind];
    [|exact Hnone].
  destruct (0 <? length calls)%nat; [|exact Hnone].
  rewrite run_mbind.
  pose proof (forwarded_round_actions (stream_tools (stream_body s))
                (stream_tools_model (stream_body s)) calls None w) as Hround.
  unfold and_then.
  destruct (final (run (for_await _ forward None) w)); cbn [trace].
  - rewrite sendFinalResponse_trace. eexists _, _. split; [reflexivity|].
    split; [exact Hround | right; reflexivity].
  - eexists _, []. rewrite app_nil_r. split; [reflexivity|].
    split; [exact Hround | left; reflexivity].
Qed.

(** X4.  Whatever the provider streams, one iteration of the stream
    performs, in this order: requests of the parameter resolver and calls
    of functions of registered tools, each with parameters that the tool's
    schema returned from [safeParse]; then at most one continuation request,
    which carries the caller's messages and is not looked at for further
    invocations; then at most one abort of the controller.  It performs
    nothing else. *)
Theorem iteration_actions (s : Stream) (w : World) :
  exists round continuation cleanup,
    trace (run (iterator_body s) w) = (round ++ continuation ++ cleanup)%list
    /\ Forall (round_action (stream_tools (stream_body s))) round
    /\ (continuation = []
        \/ continuation =
           [Io (create_stream (final_request (stream_body s) (messages (stream_body s))))])
    /\ (cleanup = [] \/ cleanup = [Io abort]).
Proof.
  destruct (iterator_try_actions s w) as (round & continuation & Htrace & Hround & Hcont).
  exists round, continuation.
  rewrite run_iterator_body, run_try_catch.
  destruct (final (run (iterator_try s) w)) as [[]|e].
  - exists []. rewrite app_nil_r. auto.
  - exists [Io abort]. cbn [trace]. rewrite Htrace, <- app_assoc.
    split; [|auto]. do 2 f_equal. cbn. destruct (is_abort_error e); reflexivity.
Qed.



End Iteration.

(** ** An iteration that its consumer leaves *)

Section Leaving.
Context `{Externals}.

Lemma run_leaving_stays {E R} (leave : option nat) (p closed : prog E R) (w : World) :
  leaves_early leave (length (events (run p w))) = false ->
  run (leaving leave p closed) w = run p w.
Proof.
  destruct leave as [n|]; [|intros _; apply same_run, same_leaving_none].
  cbn [leaves_early]. intros Hn. apply Nat.ltb_ge in Hn. revert n w Hn.
  induction p as [r|e|ev k IH|A a k IH]; intros n w Hn; cbn [leaving run].
  - reflexivity.
  - reflexivity.
  - cbn in Hn. destruct n as [|n]; [lia|]. rewrite IH by lia. reflexivity.
  - rewrite IH by exact Hn. reflexivity.
Qed.

Lemma run_leaving_leaves {E R} (n : nat) (p closed : prog E R) (w : World) :
  (n < length (events (run p w)))%nat ->
  exists t rest w',
    trace (run p w) = (t ++ rest)%list
    /\ run (leaving (Some n) p closed) w =
       {| events := take (S n) (events (run p w)) ++ events (run closed w');
          trace := t ++ trace (run closed w');
          final := final (run closed w');
          world := world (run closed w') |}.
Proof.
  revert n w. induction p as [r|e|ev k IH|A a k IH]; intros n w Hn; cbn [leaving run].
  - cbn in Hn. lia.
  - cbn in Hn. lia.
  - destruct n as [|n].
    + exists [], (trace (run k w)), w. split; [reflexivity|].
      cbn. rewrite take_0. destruct (run closed w); reflexivity.
    + cbn in Hn. destruct (IH n w) as (t & rest & w' & Htrace & Hrun); [lia|].
      exists t, rest, w'. split; [exact Htrace|]. rewrite Hrun. reflexivity.
  - destruct (IH (perform a w).1 n (perform a w).2 Hn) as (t & rest & w' & Htrace & Hrun).
    exists (Io a :: t), rest, w'. split; [cbn; rewrite Htrace; reflexivity|].
    cbn. rewrite Hrun. reflexivity.
Qed.

(** The iteration of a consumer that leaves, by the [try] block run to its
    end. *)
Lemma run_iteration (leave : option nat) (s : Stream) (w : World) :
  let block := run (iterator_try s) w in
  if leaves_early leave (length (events block)) then
    exists n t rest w',
      leave = Some n /\ trace block = (t ++ rest)%list
      /\ run (iteration leave s) w =
         {| events := take (S n) (events block); trace := t ++ [Io abort];
            final := Ok (); world := controller_abort w' |}
  else run (iteration leave s) w = run (iterator_body s) w.
Proof.
  cbn zeta. destruct (leaves_early leave _) eqn:Hleave.
  - destruct leave as [n|]; [|discriminate]. cbn in Hleave. apply Nat.ltb_lt in Hleave.
    destruct (run_leaving_leaves n (iterator_try s) (_ ← await abort; Ret ()) w Hleave)
      as (t & rest & w' & Htrace & Hrun).
    exists n, t, rest, w'. split; [reflexivity|]. split; [exact Htrace|].
    unfold iteration. rewrite run_try_catch, Hrun. cbn. rewrite app_nil_r. reflexivity.
  - rewrite run_iterator_body. unfold iteration. rewrite !run_try_catch.
    rewrite (run_leaving_stays _ _ _ _ Hleave). reflexivity.
Qed.


End Leaving.

(** ** The tool events that reach the consumer *)

Section Forwarded_events.
Context `{Externals}.

Lemma provider_events_are_no_invoke (cs : list MessageStreamEvent) :
  Forall (fun ev => is_tool_invoke ev = false) (map provider_event cs).
Proof. induction cs; constructor; auto. Qed.

Lemma forwarded_are_no_invoke (evs : list AnthropicStreamEvent) :
  Forall (fun ev => is_tool_invoke ev = false) (List.filter forwarded evs).
Proof.
  induction evs as [|ev evs IH]; [constructor|]. cbn [List.filter].
  destruct ev; cbn; try constructor; auto.
Qed.

Lemma forward_chunks_events (cs : list MessageStreamEvent) (w : World) :
  events (run (for_chunks cs (fun chunk (_ : unit) => Yield (provider_event chunk) (Ret ())) ()) w)
  = map provider_event cs.
Proof.
  induction cs as [|c cs IH]; [reflexivity|].
  cbn [for_chunks bind run events emitted map]. rewrite IH. reflexivity.
Qed.

Lemma sendFinalResponse_events (body : MessageCreateParams) (msgs : list MessageParam)
    (w : World) :
  Forall (fun ev => is_tool_invoke ev = false) (events (run (sendFinalResponse body msgs) w)).
Proof.
  unfold sendFinalResponse. cbn [mbind prog_bind bind await run perform events performed].
  destruct (messages_stream (final_request body msgs) w) as [[src|e] w']; cbn; [|constructor].
  unfold for_await_stream. rewrite run_bind. unfold and_then.
  destruct (final (run (for_chunks (chunks src) _ ()) w')) eqn:Hfinal; cbn;
    rewrite forward_chunks_events.
  - destruct (failure src); cbn; rewrite app_nil_r; apply provider_events_are_no_invoke.
  - apply provider_events_are_no_invoke.
Qed.

(** The [try] block of the iteration yields no [tool_invoke]: the loop of
    [stream] over [invokeFunctions] (v2.ts:109-123) has a branch for
    [tool_error], [tool_result] and [tool_results] and none for the event
    that [invokeFunctions] yields first. *)
Lemma iterator_try_yields_no_invoke (s : Stream) (w : World) :
  Forall (fun ev => is_tool_invoke ev = false) (events (run (iterator_try s) w)).
Proof.
  unfold iterator_try. rewrite run_mbind. unfold for_await_stream. rewrite run_bind.
  pose proof (run_processChunks (chunks (source s)) [] w) as Hchunks.
  destruct (resolver_content (chunks (source s)) []) as [content|e0].
  2:{ destruct Hchunks as (_ & k & _ & ->). unfold and_then. cbn.
      apply provider_events_are_no_invoke. }
  rewrite Hchunks. unfold and_then at 2. cbn [final events trace world].
  destruct (failure (source s)) as [e|]; cbn [run final events trace world].
  { unfold and_then. cbn. rewrite app_nil_r. apply provider_events_are_no_invoke. }
  unfold and_then. cbn [final events world]. rewrite app_nil_r.
  assert (Hafter : Forall (fun ev => is_tool_invoke ev = false)
                     (events (run (after_stream (stream_body s) content) w))).
  { unfold after_stream. destruct (array_get 0 content) as [txt|]; [|constructor].
    destruct (includes txt function_calls_open); [|constructor].
    destruct (extractFunctionCalls txt) as [calls|e]; cbn [lift mbind prog_bind bind];
      [|constructor].
    destruct (0 <? length calls)%nat; [|constructor].
    rewrite run_mbind.
    destruct (stream_forwards
                (invokeFunctions calls (stream_tools (stream_body s))
                   (stream_tools_model (stream_body s))) None w) as (Hevs & _).
    unfold and_then.
    destruct (final (run (for_await _ forward None) w)); cbn [events]; rewrite Hevs.
    - apply Forall_app. split; [apply forwarded_are_no_invoke | apply sendFinalResponse_events].
    - apply forwarded_are_no_invoke. }
  destruct (final (run (after_stream (stream_body s) content) w)); cbn [events];
    apply Forall_app; split; auto using provider_events_are_no_invoke.
Qed.

Lemma no_invoke_invoked (evs : list AnthropicStreamEvent) :
  Forall (fun ev => is_tool_invoke ev = false) evs -> invoked evs = [].
Proof.
  induction 1 as [|ev evs Hev _ IH]; [reflexivity|].
  destruct ev; try discriminate; exact IH.
Qed.

(** No [tool_invoke] reaches the consumer of the stream, whether it takes
    every event or leaves. *)
Lemma iteration_yields_no_invoke (leave : option nat) (s : Stream) (w : World) :
  invoked (events (run (iteration leave s) w)) = [].
Proof.
  apply no_invoke_invoked.
  pose proof (iterator_try_yields_no_invoke s w) as Hblock.
  pose proof (run_iteration leave s w) as Hrun. cbn zeta in Hrun.
  destruct (leaves_early leave _).
  - destruct Hrun as (n & t & rest & w' & _ & _ & ->). cbn [events].
    apply Forall_take, Hblock.
  - rewrite Hrun, run_iterator_body, run_try_catch.
    destruct (final (run (iterator_try s) w)) as [[]|e]; [exact Hblock|].
    cbn [events]. apply Forall_app. split; [exact Hblock|].
    cbn. destruct (is_abort_error e); constructor.
Qed.

End Forwarded_events.

(** ** A block the parser cannot make invocations of *)

Section Parse_failures.
Context `{Externals}.

(** The iteration when reading the invocations throws. *)
Lemma stream_parse_failure (s : Stream) (w : World) (content : Content) (txt : string)
    (e : value) :
  let o1 := run (for_await_stream (source s) processChunk []) w in
  final o1 = Ok content ->
  array_get 0 content = Some txt ->
  includes txt "<function_calls>" = true ->
  extractFunctionCalls txt = Throw e ->
  run (iterator_body s) w =
  {| events := events o1; trace := (trace o1 ++ [Io abort])%list;
     final := if is_abort_error e then Ok () else Throw e;
     world := controller_abort (world o1) |}.
Proof.
  cbn zeta. intros Hcontent Htext Hmarker Hcalls.
  rewrite run_iterator_body, run_try_catch.
  assert (Htry : run (iterator_try s) w =
                 failing (run (for_await_stream (source s) processChunk []) w) e).
  { unfold iterator_try. rewrite run_mbind. unfold and_then, failing. rewrite Hcontent.
    unfold after_stream, function_calls_open. rewrite Htext, Hmarker, Hcalls. cbn.
    rewrite ?app_nil_r. reflexivity. }
  rewrite Htry. cbn. destruct (is_abort_error e); cbn; rewrite app_nil_r; reflexivity.
Qed.

(** The buffered loop when reading the invocations throws. *)
Lemma buffered_parse_failure (fuel : nat) (tools : list ToolDefinition) (st : Turn) (w : World)
    (e : value) :
  includes (text st) "<function_calls>" = true ->
  parse_invocations (text st) = Throw e ->
  run (turn_loop (S fuel) tools st) w = thrown e w.
Proof.
  intros Hmarker Hparse. cbn [turn_loop]. unfold function_calls_open. rewrite Hmarker.
  unfold turn. rewrite Hparse. reflexivity.
Qed.

(** X6.  An exception of the XML parser is not caught by either client.
    [extractFunctionCalls] and the parsing of the buffered loop throw it; the
    streamed iteration has handed on the provider's events, aborts the
    controller and throws it (an [AbortError] ends the iteration instead);
    [runWithTools] throws it out of its loop before it calls a tool or sends
    a request. *)
Theorem parser_exception_is_fatal (txt : string) (e : value) :
  includes txt "<function_calls>" = true ->
  XMLParser_parse (function_calls_block txt) = Throw e ->
  extractFunctionCalls txt = Throw e
  /\ parse_invocations txt = Throw e
  /\ (forall (s : Stream) (w : World) (content : Content),
        let o1 := run (for_await_stream (source s) processChunk []) w in
        final o1 = Ok content ->
        array_get 0 content = Some txt ->
        run (iterator_body s) w =
        {| events := events o1; trace := (trace o1 ++ [Io abort])%list;
           final := if is_abort_error e then Ok () else Throw e;
           world := controller_abort (world o1) |})
  /\ (forall (fuel : nat) (tools : list ToolDefinition) (st : Turn) (w : World),
        text st = txt ->
        run (turn_loop (S fuel) tools st) w = thrown e w).
Proof.
  intros Hmarker Hparse.
  assert (Hcalls : extractFunctionCalls txt = Throw e).
  { unfold extractFunctionCalls, function_calls_open. rewrite Hmarker, Hparse. reflexivity. }
  assert (Hinvs : parse_invocations txt = Throw e).
  { unfold parse_invocations. rewrite Hparse. reflexivity. }
  split; [exact Hcalls|]. split; [exact Hinvs|]. split.
  - intros s w content o1 Hcontent Htext.
    apply (stream_parse_failure s w content txt e Hcontent Htext Hmarker Hcalls).
  - intros fuel tools st w Htxt. subst txt. apply buffered_parse_failure; assumption.
Qed.

(** X7.  A block without an [invoke] element, such as the empty block that
    the parser turns into an empty string, or a document without a
    [function_calls] element: the clients read [tool_name] off [undefined]
    and throw a [TypeError]; they do not take the block for an empty list of
    invocations.  The streamed iteration aborts and throws, the buffered
    loop throws without a call or a request. *)
Theorem block_without_invoke_throws (txt : string) (root holder : value) :
  includes txt "<function_calls>" = true ->
  XMLParser_parse (function_calls_block txt) = Ok root ->
  get_opt root "function_calls" = holder ->
  isArray holder = false ->
  nullish (get_opt holder "invoke") = true ->
  extractFunctionCalls txt = Throw TypeError
  /\ parse_invocations txt = Throw TypeError
  /\ (forall (s : Stream) (w : World) (content : Content),
        let o1 := run (for_await_stream (source s) processChunk []) w in
        final o1 = Ok content ->
        array_get 0 content = Some txt ->
        run (iterator_body s) w =
        {| events := events o1; trace := (trace o1 ++ [Io abort])%list;
           final := Throw TypeError; world := controller_abort (world o1) |})
  /\ (forall (fuel : nat) (tools : list ToolDefinition) (st : Turn) (w : World),
        text st = txt ->
        run (turn_loop (S fuel) tools st) w = thrown TypeError w).
Proof.
  intros Hmarker Hparse Hholder Harr Hinvoke.
  assert (Hread : forall A (k : value -> result A),
            (invoke ← get holder "invoke"; name ← get invoke "tool_name"; k name)
            = Throw TypeError).
  { intros A k. revert Hinvoke. unfold get_opt.
    destruct holder; cbn; try discriminate; try reflexivity.
    destruct (assoc "invoke" fields); cbn; try discriminate; reflexivity. }
  assert (Hroot : get root "function_calls" = Ok holder \/ get root "function_calls" = Throw TypeError).
  { revert Hholder. unfold get_opt. destruct root; cbn; intros <-; auto. }
  assert (Hcalls : extractFunctionCalls txt = Throw TypeError).
  { unfold extractFunctionCalls, function_calls_open. rewrite Hmarker, Hparse. cbn.
    destruct Hroot as [-> | ->]; [|reflexivity]. cbn.
    assert (Hcall : call_of_invoke holder = Throw TypeError) by apply Hread.
    destruct holder; try discriminate; rewrite Hcall; reflexivity. }
  assert (Hinvs : parse_invocations txt = Throw TypeError).
  { unfold parse_invocations. rewrite Hparse. cbn.
    destruct Hroot as [-> | ->]; [|reflexivity]. cbn.
    assert (Hinv : invocation_of holder = Throw TypeError) by apply Hread.
    destruct holder; try discriminate; cbn [map_result]; rewrite Hinv; reflexivity. }
  split; [exact Hcalls|]. split; [exact Hinvs|]. split.
  - intros s w content o1 Hcontent Htext.
    apply (stream_parse_failure s w content txt TypeError Hcontent Htext Hmarker Hcalls).
  - intros fuel tools st w Htxt. subst txt. apply buffered_parse_failure; assumption.
Qed.

Lemma find_tool_undefined (tools : list ToolDefinition) : find_tool tools VUndefined = None.
Proof. unfold find_tool. induction tools as [|tool tools IH]; [reflexivity | exact IH]. Qed.

(** X8.  A reply with several [invoke] elements in its block, the grammar
    of the system prompt, makes both clients fail whatever tools are
    registered: the one record they read has [undefined] for its name and no
    tool has that name.  The streamed iteration makes no resolver request
    and no tool call, aborts and throws [Tool [object Object] not found].
    [runWithTools] throws [Tool undefined not found]: at once when the reply
    is the first of the call, after its one request and before any tool
    call; in a later round after the invocations of the earlier rounds,
    which run first, when they all go through. *)
Theorem repeated_invoke_is_tool_not_found (txt : string) (root : value)
    (fields : list (string * value)) (elements : list value) :
  includes txt "<function_calls>" = true ->
  XMLParser_parse (function_calls_block txt) = Ok root ->
  get root "function_calls" = Ok (VObj fields) ->
  assoc "invoke" fields = VArr elements ->
  (forall (s : Stream) (w : World) (content : Content),
     let o1 := run (for_await_stream (source s) processChunk []) w in
     final o1 = Ok content ->
     array_get 0 content = Some txt ->
     run (iterator_body s) w =
     {| events := events o1; trace := (trace o1 ++ [Io abort])%list;
        final := Throw (VError "Error" "Tool [object Object] not found");
        world := controller_abort (world o1) |})
  /\ (forall (fuel : nat) (body : MessageCreateParams) (system' : string) (reply : Message)
            (w w1 : World),
        buffered_system (or_nil (tools body)) (system body) = Ok system' ->
        messages_create (buffered_request body system') w = (Ok reply, w1) ->
        getTextFromContent (CBlocks (response_content reply)) = Some txt ->
        run (runWithTools (S fuel) body) w =
        {| events := []; trace := [Io (create (buffered_request body system'))];
           final := Throw (VError "Error" "Tool undefined not found"); world := w1 |})
  /\ (forall (fuel : nat) (tools : list ToolDefinition) (st : Turn) (w : World)
            (block : string),
        text st = txt ->
        final (run (for_each (functions st) (execute_one tools) function_results_open) w)
          = Ok (Continue, block) ->
        run (turn_loop (S fuel) tools st) w =
        failing (run (for_each (functions st) (execute_one tools) function_results_open) w)
          (VError "Error" "Tool undefined not found")).
Proof.
  intros Hmarker Hparse Hcalls Hinvoke.
  assert (Hinvocations : parse_invocations txt =
            Ok [{| inv_name := VUndefined; inv_parameters := VObj (for_in VUndefined) |}]).
  { unfold parse_invocations. rewrite Hparse. cbn. rewrite Hcalls. cbn.
    unfold invocation_of. cbn. rewrite Hinvoke. reflexivity. }
  assert (Hloop : forall (fuel : nat) (tools : list ToolDefinition) (st : Turn) (w : World)
                         (block : string),
            text st = txt ->
            final (run (for_each (functions st) (execute_one tools) function_results_open) w)
              = Ok (Continue, block) ->
            run (turn_loop (S fuel) tools st) w =
            failing (run (for_each (functions st) (execute_one tools) function_results_open) w)
              (VError "Error" "Tool undefined not found")).
  { intros fuel tools st w block Htxt Hpre.
    cbn [turn_loop]. unfold function_calls_open. rewrite Htxt, Hmarker.
    rewrite run_mbind. unfold turn. rewrite Htxt, Hinvocations.
    cbn [lift mbind prog_bind bind]. rewrite length_app. cbn [length].
    replace (0 <? length (functions st) + 1)%nat with true
      by (symmetry; apply Nat.ltb_lt; lia).
    rewrite run_mbind,
      (execute_each_not_found tools (functions st) []
         {| inv_name := VUndefined; inv_parameters := VObj (for_in VUndefined) |} w block
         (find_tool_undefined tools) Hpre).
    unfold and_then, failing. reflexivity. }
  split; [|split; [|exact Hloop]].
  - intros s w content o1 Hcontent Htext. subst o1.
    rewrite run_iterator_body, run_try_catch.
    assert (Htry : run (iterator_try s) w =
                   failing (run (for_await_stream (source s) processChunk []) w)
                     tool_not_found_v2).
    { unfold iterator_try. rewrite run_mbind. unfold and_then, failing. rewrite Hcontent.
      unfold after_stream, function_calls_open. rewrite Htext, Hmarker.
      unfold extractFunctionCalls, function_calls_open. rewrite Hmarker, Hparse. cbn.
      rewrite Hcalls. cbn. unfold call_of_invoke. cbn. rewrite Hinvoke. cbn.
      rewrite find_tool_undefined. cbn. rewrite ?app_nil_r. reflexivity. }
    rewrite Htry. cbn. rewrite app_nil_r. reflexivity.
  - intros fuel body system' reply w w1 Hsystem Hcreate Htext.
    unfold runWithTools. rewrite Hsystem.
    cbn [lift mbind prog_bind bind await run perform]. rewrite Hcreate.
    cbn [fst snd lift mbind prog_bind bind]. rewrite Htext.
    rewrite (Hloop fuel _ _ w1 function_results_open); reflexivity.
Qed.

End Parse_failures.

(** ** The outcomes of a streamed round *)

Section Streamed_outcomes.
Context `{Externals}.

Lemma for_await_resolver_chunks {R} (tool : ToolDefinition) (cs : list MessageStreamEvent)
    (content : Content) (g : Content -> prog FunctionOutcome Content)
    (f : Content -> prog FunctionOutcome R) (st : Round) :
  for_await (bind (bind (for_chunks cs resolver_chunk content) g) f) (on_outcome tool) st =
  match resolver_content cs content with
  | Ok c => for_await (bind (g c) f) (on_outcome tool) st
  | Throw e => Raise e
  end.
Proof.
  revert content. induction cs as [|c cs IH]; intros content; [reflexivity|].
  destruct c as [| | |index text|index text|index]; cbn; try apply IH.
  destruct (array_get index content) as [old|]; cbn; [apply IH | reflexivity].
Qed.

(** The inner loop of [invokeFunctions] is the merged one. *)
Lemma same_invocation (tool : ToolDefinition) (tools_model : string) (context : value)
    (st : Round) :
  same (for_await (invokeFunction tool tools_model context) (on_outcome tool) st)
       (invocation tool tools_model context st).
Proof.
  unfold invokeFunction, invocation, resolver_request. cbn -[for_await_stream].
  constructor. intros [src|e]; cbn -[for_await_stream]; [|constructor].
  unfold for_await_stream, resolved_parameters, mbind at 1, prog_bind at 1.
  rewrite for_await_resolver_chunks.
  destruct (resolver_content (chunks src) []) as [content|e]; cbn; [|constructor].
  destruct (failure src) as [e|]; cbn; [constructor|].
  destruct (JSON_parse (replace_parameters (join_text content))) as [json|e]; cbn;
    [|apply same_refl].
  destruct (safeParse (parameters (anthropic tool)) json) as [parsed|zod_error]; cbn;
    [|apply same_refl].
  constructor. intros [v|e]; apply same_refl.
Qed.

(** What [stream] takes out of a round that starts with an invocation of a
    registered tool. *)
Lemma run_forward_invoke_each_cons (tools : list ToolDefinition) (tools_model : string)
    (func : FunctionCall) (rest : list FunctionCall) (st : Round)
    (r : option (list MessageParam * gmap string value)) (w : World) (tool : ToolDefinition) :
  find_tool tools (call_tool_name func) = Some tool ->
  run (for_await (invoke_each tools tools_model (func :: rest) st) forward r) w =
  and_then (run (for_await (invocation tool tools_model (call_context func) st) forward r) w)
    (fun os w' =>
       match os.1 with
       | Some inner => run (for_await (invoke_each tools tools_model rest inner.2) forward os.2) w'
       | None => run (Ret (None, os.2)) w'
       end).
Proof.
  intros Hfind. cbn [invoke_each]. rewrite Hfind.
  cbn [for_await forward bind fst snd]. rewrite run_for_await_mbind.
  rewrite (same_run _ _ w (same_for_await _ _ forward r
             (same_invocation tool tools_model (call_context func) st))).
  reflexivity.
Qed.

(** The same for a round in which invocations [pre] come first. *)
Lemma run_forward_invoke_each_app (tools : list ToolDefinition) (tools_model : string)
    (pre post : list FunctionCall) (st : Round)
    (r : option (list MessageParam * gmap string value)) (w : World) :
  run (for_await (invoke_each tools tools_model (pre ++ post) st) forward r) w =
  and_then (run (for_await (invoke_each tools tools_model pre st) forward r) w)
    (fun os w' =>
       match os.1 with
       | Some st' => run (for_await (invoke_each tools tools_model post st') forward os.2) w'
       | None => run (Ret (None, os.2)) w'
       end).
Proof.
  rewrite (same_run _ _ w (same_for_await _ _ forward r
             (invoke_each_app tools tools_model pre post st))).
  apply run_for_await_bind.
Qed.

Lemma run_forward_invokeFunctions (tools : list ToolDefinition) (tools_model : string)
    (calls : list FunctionCall) (r : option (list MessageParam * gmap string value))
    (w : World) :
  run (for_await (invokeFunctions calls tools tools_model) forward r) w =
  and_then (run (for_await (invoke_each tools tools_model calls round_start) forward r) w)
    (fun os w' =>
       match os.1 with
       | Some st =>
           {| events := [tool_results (tools_by_name tools) (results st) [follow_up st]];
              trace := [];
              final := Ok (Some (), Some ([follow_up st], results st));
              world := w' |}
       | None => run (Ret (None, os.2)) w'
       end).
Proof.
  unfold invokeFunctions. rewrite run_for_await_mbind. fold round_start.
  apply and_then_ext. intros [[st|] r'] w'; reflexivity.
Qed.

(** X9.  The first error of a streamed round ends the round.  When the
    invocations before went through and the parameters of an invocation
    cannot be parsed or fail the schema of its tool, or the function of the
    tool rejects, the consumer gets the [tool_error] with that error as the
    last event of the round: the invocations after it are neither resolved
    nor run, no [tool_results] follows, and on a parse or schema failure the
    function of the tool is not called. *)
Theorem streamed_first_error (tools : list ToolDefinition) (tools_model : string)
    (pre rest : list FunctionCall) (func : FunctionCall) (tool : ToolDefinition)
    (src : ProviderStream) (st1 : Round)
    (r r1 : option (list MessageParam * gmap string value)) (w w1 : World) :
  let o := run (for_await (invoke_each tools tools_model pre round_start) forward r) w in
  let ask := Io (create_tool_stream (resolver_request tool tools_model (call_context func))) in
  final o = Ok (Some st1, r1) ->
  find_tool tools (call_tool_name func) = Some tool ->
  messages_tool_stream (resolver_request tool tools_model (call_context func)) (world o)
    = (Ok src, w1) ->
  (forall e,
     resolved_parameters tool src = Ok (inl e) ->
     truthy e = true ->
     run (for_await (invokeFunctions (pre ++ func :: rest) tools tools_model) forward r) w =
     {| events := events o ++ [tool_error tool e]; trace := trace o ++ [ask];
        final := Ok (None, r1); world := w1 |})
  /\ (forall parsed e w2,
        resolved_parameters tool src = Ok (inr parsed) ->
        function tool parsed w1 = (Rejected e, w2) ->
        truthy e = true ->
        run (for_await (invokeFunctions (pre ++ func :: rest) tools tools_model) forward r) w =
        {| events := events o ++ [tool_error tool e];
           trace := trace o ++ [ask; Io (call tool parsed)];
           final := Ok (None, r1); world := w2 |}).
Proof.
  cbn zeta. intros Hpre Hfind Hstream.
  assert (Hround : forall o',
            run (for_await (invocation tool tools_model (call_context func) st1) forward r1)
              (world (run (for_await (invoke_each tools tools_model pre round_start) forward r) w))
              = o' ->
            final o' = Ok (None, r1) ->
            run (for_await (invokeFunctions (pre ++ func :: rest) tools tools_model) forward r) w =
            {| events := events (run (for_await (invoke_each tools tools_model pre round_start)
                                        forward r) w) ++ events o';
               trace := trace (run (for_await (invoke_each tools tools_model pre round_start)
                                      forward r) w) ++ trace o';
               final := Ok (None, r1); world := world o' |}).
  { intros o' Ho' Hfinal. rewrite run_forward_invokeFunctions, run_forward_invoke_each_app.
    rewrite and_then_assoc. unfold and_then at 1. rewrite Hpre. cbn [fst snd].
    rewrite (run_forward_invoke_each_cons _ _ _ _ _ _ _ _ Hfind), Ho'.
    unfold and_then. rewrite Hfinal. cbn. rewrite !app_nil_r. reflexivity. }
  split.
  - intros e Hparams He.
    apply (Hround {| events := [tool_error tool e];
                     trace := [Io (create_tool_stream
                                     (resolver_request tool tools_model (call_context func)))];
                     final := Ok (None, r1); world := w1 |}); [|reflexivity].
    unfold invocation. cbn [for_await run perform]. rewrite Hstream.
    cbn [fst snd mbind result_bind]. rewrite Hparams. unfold one_outcome. cbn.
    unfold on_outcome. cbn. rewrite He. reflexivity.
  - intros parsed e w2 Hparams Hcall He.
    apply (Hround {| events := [tool_error tool e];
                     trace := [Io (create_tool_stream
                                     (resolver_request tool tools_model (call_context func)));
                               Io (call tool parsed)];
                     final := Ok (None, r1); world := w2 |}); [|reflexivity].
    unfold invocation. cbn [for_await run perform]. rewrite Hstream.
    cbn [fst snd mbind result_bind]. rewrite Hparams. cbn [for_await run perform].
    rewrite Hcall. unfold one_outcome. cbn.
    unfold on_outcome. cbn. rewrite He. reflexivity.
Qed.

(** X10.  A tool whose function rejects with a falsy value ([undefined],
    [null], [0], [false] or the empty string) is not reported: the test
    [if (result.error)] fails and [data] is [undefined], so the invocation
    leaves its [tool_invoke] and nothing else, no [tool_error] and no
    [tool_result], the locals of the round are as before and the loop goes
    on with the next invocation. *)
Theorem falsy_rejection_is_silent (tools : list ToolDefinition) (tools_model : string)
    (func : FunctionCall) (rest : list FunctionCall) (st : Round) (w w1 w2 : World)
    (tool : ToolDefinition) (src : ProviderStream) (parsed e : value) :
  find_tool tools (call_tool_name func) = Some tool ->
  messages_tool_stream (resolver_request tool tools_model (call_context func)) w = (Ok src, w1) ->
  resolved_parameters tool src = Ok (inr parsed) ->
  function tool parsed w1 = (Rejected e, w2) ->
  truthy e = false ->
  run (invoke_each tools tools_model (func :: rest) st) w =
  emitted (tool_invoke tool)
    (performed (Io (create_tool_stream (resolver_request tool tools_model (call_context func))))
       (performed (Io (call tool parsed))
          (run (invoke_each tools tools_model rest st) w2))).
Proof.
  intros Hfind Hstream Hparams Hcall He.
  rewrite (run_invoke_each_cons _ _ _ _ _ _ _ Hfind), run_invokeFunction.
  rewrite Hstream. cbn [fst snd mbind result_bind]. rewrite Hparams, Hcall.
  cbn [fst snd outcome_of].
  rewrite !and_then_performed. do 2 f_equal.
  unfold and_then, reported, outcome_events, round_after. cbn. rewrite He. cbn.
  destruct (run (invoke_each tools tools_model rest st) w2); reflexivity.
Qed.

End Streamed_outcomes.

(** ** The event that sums up a round *)

Section Round_summary.
Context `{Externals}.

Lemma until_error_exists (evs : list AnthropicStreamEvent) :
  existsb is_tool_error (until_error evs) = existsb is_tool_error evs.
Proof.
  induction evs as [|ev evs IH]; [reflexivity|]. cbn.
  destruct (is_tool_error ev) eqn:Hev; cbn; rewrite Hev; [reflexivity | exact IH].
Qed.

Lemma until_error_quiet (evs : list AnthropicStreamEvent) :
  existsb is_tool_error evs = false -> until_error evs = evs.
Proof.
  induction evs as [|ev evs IH]; [reflexivity|]. cbn.
  destruct (is_tool_error ev); [discriminate|]. cbn. intros Hq. rewrite IH; auto.
Qed.

Lemma concat_map_app {A} (f : A -> string) (l1 l2 : list A) :
  concat_map f (l1 ++ l2) = concat_map f l1 ++ concat_map f l2.
Proof.
  induction l1 as [|x l1 IH]; [reflexivity|]. cbn [app concat_map].
  rewrite IH, append_assoc. reflexivity.
Qed.

Lemma results_of_app (l1 l2 : list AnthropicStreamEvent) (m : gmap string value) :
  results_of (l1 ++ l2) m = results_of l2 (results_of l1 m).
Proof. apply foldl_app. Qed.

Lemma results_of_forwarded (l : list AnthropicStreamEvent) (m : gmap string value) :
  results_of (List.filter forwarded l) m = results_of l m.
Proof.
  revert m. induction l as [|ev l IH]; intros m; [reflexivity|]. cbn [List.filter].
  destruct ev; cbn; apply IH.
Qed.

Lemma fragments_forwarded (l : list AnthropicStreamEvent) :
  concat_map fragment_of (List.filter forwarded l) = concat_map fragment_of l.
Proof.
  induction l as [|ev l IH]; [reflexivity|]. cbn [List.filter].
  destruct ev; cbn; rewrite IH; reflexivity.
Qed.

(** What one outcome adds to the locals of the round. *)
Lemma reported_sums (tool : ToolDefinition) (r : FunctionOutcome) (st : Round) :
  existsb is_tool_error (outcome_events tool r) = false ->
  results (round_after tool r st) = results_of (outcome_events tool r) (results st)
  /\ functionResults (round_after tool r st) =
     functionResults st ++ concat_map fragment_of (outcome_events tool r).
Proof.
  unfold outcome_events, round_after. destruct (truthy (error r)); [discriminate|].
  intros _. destruct (defined (data r)); cbn.
  - rewrite append_nil_r. auto.
  - rewrite append_nil_r. auto.
Qed.

(** The locals of a round that ran to its end without an error are what
    its [tool_result] events say. *)
Lemma round_sums (tools : list ToolDefinition) (tools_model : string)
    (calls : list FunctionCall) (st st' : Round) (w : World) :
  let o := run (invoke_each tools tools_model calls st) w in
  existsb is_tool_error (events o) = false ->
  final o = Ok st' ->
  results st' = results_of (events o) (results st)
  /\ functionResults st' = functionResults st ++ concat_map fragment_of (events o).
Proof.
  cbn zeta. revert st w. induction calls as [|func rest IH]; intros st w.
  - cbn. intros _ [= <-]. rewrite append_nil_r. auto.
  - destruct (find_tool tools (call_tool_name func)) as [tool|] eqn:Hfind.
    2:{ cbn [invoke_each]. rewrite Hfind. cbn. discriminate. }
    rewrite (run_invoke_each_cons _ _ _ _ _ _ _ Hfind), run_invokeFunction. cbn zeta.
    set (aw := messages_tool_stream _ w). rewrite and_then_performed.
    assert (Hreport : forall r w1,
      let o := and_then (reported tool r st w1)
                 (fun inner w' => run (invoke_each tools tools_model rest inner.2) w') in
      existsb is_tool_error (events o) = false ->
      final o = Ok st' ->
      results st' = results_of (events o) (results st)
      /\ functionResults st' = functionResults st ++ concat_map fragment_of (events o)).
    { intros r w1. cbn zeta. unfold and_then, reported. cbn [final events trace world fst snd].
      rewrite existsb_app. intros Hq Hfinal. apply orb_false_elim in Hq as (Hq1 & Hq2).
      destruct (reported_sums tool r st Hq1) as (Hres & Hblock).
      destruct (IH _ _ Hq2 Hfinal) as (Hres' & Hblock').
      rewrite results_of_app, concat_map_app, Hres', Hblock', Hres, Hblock, append_assoc. auto. }
    cbn [events final emitted performed existsb is_tool_error orb results_of foldl
         concat_map fragment_of].
    destruct (aw.1 ≫= resolved_parameters tool) as [[e|parsed]|e].
    + change (String.append "" ?s) with s. apply Hreport.
    + rewrite and_then_performed. cbn [events final performed]. apply Hreport.
    + cbn. discriminate.
Qed.

(** X11.  A [tool_results] event is the last event of its round and sums
    up the [tool_result] events the consumer got before it: its [results]
    is the map those events build (a later result of a tool name replacing
    an earlier one), its one message is the block of their fragments in
    order, between [<function_results>] and [</function_results>], and its
    [tools] is the registry by name.  No [tool_error] comes before it. *)
Theorem tool_results_sums_up_the_round (tools : list ToolDefinition) (tools_model : string)
    (calls : list FunctionCall) (r : option (list MessageParam * gmap string value))
    (w : World) (ts : gmap string ToolDefinition) (rs : gmap string value)
    (ms : list MessageParam) :
  let evs := events (run (for_await (invokeFunctions calls tools tools_model) forward r) w) in
  In (tool_results ts rs ms) evs ->
  exists pre,
    evs = (pre ++ [tool_results ts rs ms])%list
    /\ existsb is_tool_error pre = false
    /\ existsb is_tool_results pre = false
    /\ ts = tools_by_name tools
    /\ rs = results_of pre ∅
    /\ ms = [result_message (function_results_open ++ concat_map fragment_of pre)].
Proof.
  cbn zeta. destruct (stream_forwards (invokeFunctions calls tools tools_model) r w) as (-> & _).
  unfold invokeFunctions, taken. rewrite run_for_await_mbind. fold round_start.
  fold (taken (invoke_each tools tools_model calls round_start)).
  destruct (taken_invoke_each tools tools_model calls round_start w)
    as (_ & _ & _ & Hnone & Hdone).
  destruct (run_taken (invoke_each tools tools_model calls round_start) w)
    as (Hevs & Hquiet & _).
  set (o := run (taken (invoke_each tools tools_model calls round_start)) w) in *.
  assert (Hnot : forall l, existsb is_tool_results l = false ->
                           In (tool_results ts rs ms) (List.filter forwarded l) -> False).
  { intros l Hl Hin. apply filter_In in Hin as (Hin & _).
    assert (Hex : existsb is_tool_results l = true)
      by (apply existsb_exists; exists (tool_results ts rs ms); auto).
    congruence. }
  unfold and_then. destruct (final o) as [[[st'|] []]|e] eqn:Hfinal;
    cbn [events final fst snd run for_await take_event bind emitted is_tool_error].
  - destruct (Hdone st' eq_refl) as (_ & Hq).
    assert (Hfull : existsb is_tool_error
                      (events (run (invoke_each tools tools_model calls round_start) w)) = false).
    { rewrite <- until_error_exists, <- Hevs. exact Hq. }
    destruct (Hquiet Hfull) as (_ & _ & Hfin).
    destruct (final (run (invoke_each tools tools_model calls round_start) w)) as [st''|e]
      eqn:Hround; [|discriminate].
    injection Hfin as <-.
    destruct (round_sums tools tools_model calls round_start st' w Hfull Hround)
      as (Hres & Hblock).
    rewrite <- (until_error_quiet _ Hfull), <- Hevs in Hres, Hblock.
    rewrite List.filter_app. cbn [List.filter forwarded is_tool_error is_tool_result
                             is_tool_results orb].
    intros Hin. apply in_app_or in Hin as [Hin | Hin]; [destruct (Hnot _ Hnone Hin)|].
    destruct Hin as [Heq | []]. injection Heq as <- <- <-.
    exists (List.filter forwarded (events o)).
    split; [reflexivity|].
    split; [apply existsb_filter_false, Hq|].
    split; [apply existsb_filter_false, Hnone|].
    split; [reflexivity|].
    rewrite results_of_forwarded, fragments_forwarded.
    split; [exact Hres|].
    unfold follow_up, result_message. rewrite Hblock. reflexivity.
  - rewrite app_nil_r. intros Hin. destruct (Hnot _ Hnone Hin).
  - intros Hin. destruct (Hnot _ Hnone Hin).
Qed.

End Round_summary.

(** ** The registry by name *)

Section Registry.
Context `{Externals}.

Lemma tools_by_name_rev (tools : list ToolDefinition) :
  tools_by_name tools =
  foldr (fun tool m => <[tool_name (anthropic tool) := tool]> m) ∅ (rev tools).
Proof.
  unfold tools_by_name. generalize (∅ : gmap string ToolDefinition).
  induction tools as [|tool tools IH]; intros m; [reflexivity|].
  cbn [foldl rev]. rewrite IH, foldr_app. reflexivity.
Qed.

(** X12.  The [tools] object of a [tool_results] event maps a name to the
    last registered tool of that name, while an invocation runs the first
    one: with two tools of one name the event shows a tool that was not the
    one invoked.  A name is a key of the object exactly when an invocation
    of that name finds a tool. *)
Theorem registry_by_name (tools : list ToolDefinition) (name : string) :
  tools_by_name tools !! name = find_tool (rev tools) (VStr name)
  /\ (is_Some (tools_by_name tools !! name) <-> is_Some (find_tool tools (VStr name))).
Proof.
  assert (Hlast : tools_by_name tools !! name = find_tool (rev tools) (VStr name)).
  { rewrite tools_by_name_rev. induction (rev tools) as [|tool l IH]; [reflexivity|].
    cbn [foldr]. unfold find_tool. cbn [List.find is_string].
    destruct (String.eqb_spec (tool_name (anthropic tool)) name) as [->|Hne].
    - apply lookup_insert_eq.
    - rewrite lookup_insert_ne by exact Hne. exact IH. }
  split; [exact Hlast|]. rewrite Hlast. unfold find_tool.
  split; intros [tool Hfind]; apply find_some in Hfind as (Hin & Hname).
  - apply in_rev in Hin.
    destruct (List.find (fun t => is_string (tool_name (anthropic t)) (VStr name)) tools)
      as [t|] eqn:Hnone; [eauto|].
    rewrite (find_none _ _ Hnone tool Hin) in Hname. discriminate.
  - apply in_rev in Hin.
    destruct (List.find (fun t => is_string (tool_name (anthropic t)) (VStr name)) (rev tools))
      as [t|] eqn:Hnone; [eauto|].
    rewrite (find_none _ _ Hnone tool Hin) in Hname. discriminate.
Qed.

End Registry.

(** ** The other functions *)

Section Others.
Context `{Externals}.

Lemma final_text_joins (content : Content) (acc : string) :
  Forall is_Some content -> final_text content acc = Ok (acc ++ join_text content).
Proof.
  intros Hall. revert acc. induction Hall as [|slot content [text ->] _ IH]; intros acc; cbn.
  - rewrite append_nil_r. reflexivity.
  - rewrite IH. unfold join_text. cbn. rewrite append_assoc. reflexivity.
Qed.

Lemma final_text_hole (content : Content) (acc : string) :
  In None content -> final_text content acc = Throw TypeError.
Proof.
  revert acc. induction content as [|[text|] content IH]; intros acc; cbn.
  - intros [].
  - intros [Heq | Hin]; [discriminate | apply IH, Hin].
  - reflexivity.
Qed.

(** X13.  [updateMessages] returns the messages it was given followed by
    one assistant message whose text is the texts of the blocks in order.
    On an array with a hole (a block index the stream skipped) it throws a
    [TypeError]. *)
Theorem updateMessages_appends_the_text (messages : list MessageParam) (content : Content) :
  (Forall is_Some content ->
   updateMessages messages content =
   Ok (messages ++ [{| role := assistant; content := CString (join_text content) |}])%list)
  /\ (In None content -> updateMessages messages content = Throw TypeError).
Proof.
  unfold updateMessages. split.
  - intros Hall. rewrite (final_text_joins content "" Hall). reflexivity.
  - intros Hin. rewrite (final_text_hole content "" Hin). reflexivity.
Qed.

(** X14.  [runWithStructuredOutput] throws before it sends anything when
    the body has no [response_format].  Otherwise it sends one request and
    nothing else; without a schema the system prompt has the word [null]
    where the schema sentence would be; and the transcript it returns is
    the caller's messages followed by the reply as one assistant message,
    [filteredMessages] being that transcript without the messages whose text
    has a marker. *)
Theorem structured_output_is_one_request (body : StructuredParams) (w : World) :
  let o := run (runWithStructuredOutput body) w in
  match response_format body with
  | None => o = thrown response_format_required w
  | Some fmt =>
      trace o = [Io (create (structured_request fmt body))]
      /\ (schema body = None ->
          req_system (structured_request fmt body) =
          Some ("You are a " ++ format_name fmt ++
                " generator. You will ALWAYS respond with valid " ++ format_name fmt ++
                ".null" ++ LF ++ or_empty (so_system body)))
      /\ (forall r, final o = Ok r ->
            messages_create (structured_request fmt body) w = (Ok (final_response r), world o)
            /\ fullMessages r =
               (so_messages body ++
                [{| role := assistant;
                    content := CBlocks (response_content (final_response r)) |}])%list
            /\ filteredMessages r = List.filter is_plain (fullMessages r))
  end.
Proof.
  cbn zeta. unfold runWithStructuredOutput. destruct (response_format body) as [fmt|];
    [|reflexivity].
  cbn [mbind prog_bind bind await run perform trace performed final world].
  destruct (messages_create (structured_request fmt body) w) as [[response|e] w'];
    cbn [fst snd lift bind run trace final world].
  - split; [reflexivity|]. split.
    + intros Hschema. unfold structured_request, structured_system, systemSchema.
      cbn [req_system]. rewrite Hschema. reflexivity.
    + intros r [= <-]. cbn. auto.
  - split; [reflexivity|]. split; [|discriminate].
    intros Hschema. unfold structured_request, structured_system, systemSchema.
    cbn [req_system]. rewrite Hschema. reflexivity.
Qed.

End Others.

(** ** A whole call of the buffered clients *)

Section Buffered_calls.
Context `{Externals}.

Lemma execute_each_actions (tools : list ToolDefinition) (fs : list Invocation)
    (b0 : string) (w : World) :
  Forall (buffered_action tools) (trace (run (for_each fs (execute_one tools) b0) w)).
Proof.
  revert b0 w. induction fs as [|func rest IH]; intros b0 w; [constructor|].
  cbn [for_each]. rewrite run_bind.
  remember (for_each rest (execute_one tools)) as loop eqn:Hloop.
  unfold execute_one.
  destruct (find_tool tools (inv_name func)) as [tool|] eqn:Hfind; [|constructor].
  destruct (find_tool_registered _ _ _ Hfind) as (Hin & _).
  destruct (safeParse (parameters (anthropic tool)) (inv_parameters func))
    as [parsed|zod_error] eqn:Hsafe; [|constructor].
  cbn [mbind prog_bind bind await run]. rewrite and_then_performed.
  cbn [perform trace performed]. constructor; [split; eauto|].
  destruct (function tool parsed w) as [[v|e] w']; cbn [fst snd run]; unfold and_then;
    cbn [final fst snd events trace world app].
  - subst loop. apply IH.
  - constructor.
Qed.

Lemma feedback_trace (st : Turn) (fs : list Invocation) (block : string) (w : World) :
  trace (run (feedback st fs block) w) = [Io (create (feedback_request st block))].
Proof.
  unfold feedback, feedback_request, result_message.
  cbn [mbind prog_bind bind await run perform trace performed].
  destruct (messages_create _ w) as [[response'|e] w']; cbn -[getTextFromContent];
    [|reflexivity].
  destruct (getTextFromContent (CBlocks (response_content response'))); reflexivity.
Qed.

Lemma turn_actions (tools : list ToolDefinition) (st : Turn) (w : World) :
  Forall (buffered_action tools) (trace (run (turn tools st) w)).
Proof.
  unfold turn. destruct (parse_invocations (text st)) as [parsed|e];
    cbn [lift mbind prog_bind bind]; [|constructor].
  destruct (0 <? length (functions st ++ parsed))%nat; [|constructor].
  rewrite run_mbind. unfold and_then.
  pose proof (execute_each_actions tools (functions st ++ parsed) function_results_open w)
    as Hexec.
  fold (execute_each tools (functions st ++ parsed)) in Hexec.
  destruct (final (run (execute_each tools (functions st ++ parsed)) w)); cbn [trace];
    [|exact Hexec].
  rewrite feedback_trace. apply Forall_app. split; [exact Hexec|].
  constructor; [exact I | constructor].
Qed.

Lemma turn_loop_actions (fuel : nat) (tools : list ToolDefinition) (st : Turn) (w : World) :
  Forall (buffered_action tools) (trace (run (turn_loop fuel tools st) w)).
Proof.
  revert st w. induction fuel as [|fuel IH]; intros st w; cbn [turn_loop];
    destruct (includes (text st) function_calls_open); try constructor.
  rewrite run_mbind. unfold and_then.
  pose proof (turn_actions tools st w) as Hturn.
  destruct (final (run (turn tools st) w)) as [[done|st']|e]; cbn [trace].
  - rewrite app_nil_r. exact Hturn.
  - apply Forall_app. split; [exact Hturn | apply IH].
  - exact Hturn.
Qed.

(** X15.  Whatever the model replies and however many rounds it takes,
    [runWithTools] performs only requests for a buffered response and calls
    of functions of the tools of its body, each with parameters that the
    schema of the tool returned from [safeParse]: it never calls a tool with
    parameters that were not validated, nor a tool that is not registered. *)
Theorem runWithTools_calls_are_validated (fuel : nat) (body : MessageCreateParams)
    (w : World) :
  Forall (buffered_action (or_nil (tools body))) (trace (run (runWithTools fuel body) w)).
Proof.
  unfold runWithTools.
  destruct (buffered_system (or_nil (tools body)) (system body)) as [system'|e];
    cbn [lift mbind prog_bind bind await run perform trace performed]; [|constructor].
  constructor; [exact I|].
  destruct (messages_create (buffered_request body system') w) as [[response|e] w'];
    cbn [fst snd lift mbind prog_bind bind run trace]; [|constructor].
  destruct (getTextFromContent (CBlocks (response_content response))); [|constructor].
  apply turn_loop_actions.
Qed.

Lemma invoke_execute_each_actions (allTools : list ToolDefinition) (fs : list Invocation)
    (b0 : string) (w : World) :
  Forall (fun func => exists parameters, inv_parameters func = VObj (for_in parameters)) fs ->
  Forall (invoke_action allTools) (trace (run (for_each fs (invoke_execute_one allTools) b0) w)).
Proof.
  intros Hfs. revert b0 w. induction Hfs as [|func rest Hfunc _ IH]; intros b0 w; [constructor|].
  cbn [for_each]. rewrite run_bind.
  remember (for_each rest (invoke_execute_one allTools)) as loop eqn:Hloop.
  unfold invoke_execute_one.
  destruct (find_tool allTools (inv_name func)) as [tool|] eqn:Hfind; [|constructor].
  destruct (find_tool_registered _ _ _ Hfind) as (Hin & _).
  cbn [mbind prog_bind bind await run]. rewrite and_then_performed.
  cbn [perform trace performed]. constructor; [split; assumption|].
  destruct (function tool (inv_parameters func) w) as [[v|e] w']; cbn [fst snd run];
    unfold and_then; cbn [final fst snd events trace world app].
  - subst loop. apply IH.
  - constructor.
Qed.

Lemma parsed_parameters_are_objects (txt : string) (parsed : list Invocation) :
  parse_invocations txt = Ok parsed ->
  Forall (fun func => exists parameters, inv_parameters func = VObj (for_in parameters)) parsed.
Proof.
  unfold parse_invocations.
  destruct (XMLParser_parse (function_calls_block txt)) as [root|e]; cbn; [|discriminate].
  destruct (get root "function_calls") as [calls|e]; cbn; [|discriminate].
  generalize (match calls with VArr items => items | _ => [calls] end).
  intros holders. revert parsed. induction holders as [|holder holders IH]; intros parsed; cbn.
  - intros [= <-]. constructor.
  - destruct (invocation_of holder) as [func|e] eqn:Hfunc; cbn; [|discriminate].
    destruct (map_result invocation_of holders) as [funcs|e]; cbn; [|discriminate].
    intros [= <-]. constructor; [|apply IH; reflexivity].
    revert Hfunc. unfold invocation_of.
    destruct (get holder "invoke") as [inner|e]; cbn; [|discriminate].
    destruct (get inner "tool_name") as [name|e]; cbn; [|discriminate].
    destruct (get inner "parameters") as [parameters|e]; cbn; [|discriminate].
    intros [= <-]. eexists. reflexivity.
Qed.

Lemma invoke_loop_actions (fuel : nat) (allTools : list ToolDefinition) (st : Turn)
    (w : World) :
  Forall (fun func => exists parameters, inv_parameters func = VObj (for_in parameters))
    (functions st) ->
  Forall (invoke_action allTools) (trace (run (invoke_loop fuel allTools st) w)).
Proof.
  revert st w. induction fuel as [|fuel IH]; intros st w Hfs; cbn [invoke_loop];
    destruct (includes (text st) function_calls_open); try constructor.
  rewrite run_mbind. unfold invoke_turn.
  destruct (parse_invocations (text st)) as [parsed|e] eqn:Hparse;
    cbn [lift mbind prog_bind bind]; [|constructor].
  assert (Hall : Forall (fun func => exists parameters,
                           inv_parameters func = VObj (for_in parameters))
                   (functions st ++ parsed)).
  { apply Forall_app. split; [exact Hfs|]. eapply parsed_parameters_are_objects; eassumption. }
  destruct (0 <? length (functions st ++ parsed))%nat.
  - rewrite run_mbind, and_then_assoc. unfold and_then at 1.
    pose proof (invoke_execute_each_actions allTools (functions st ++ parsed)
                  function_results_open w Hall) as Hexec.
    fold (invoke_execute_each allTools (functions st ++ parsed)) in Hexec.
    destruct (final (run (invoke_execute_each allTools (functions st ++ parsed)) w))
      as [executed|e]; cbn [trace]; [|exact Hexec].
    apply Forall_app. split; [exact Hexec|].
    unfold and_then.
    pose proof (feedback_trace st (functions st ++ parsed) executed.2
                  (world (run (invoke_execute_each allTools (functions st ++ parsed)) w)))
      as Htrace.
    pose proof (proj2 (run_feedback st (functions st ++ parsed) executed.2
                  (world (run (invoke_execute_each allTools (functions st ++ parsed)) w))))
      as Hnext.
    cbn zeta in Hnext.
    destruct (final (run (feedback st (functions st ++ parsed) executed.2) _))
      as [[done|st']|e]; cbn [trace]; rewrite Htrace.
    + constructor; [exact I | constructor].
    + constructor; [exact I|]. apply IH.
      destruct (Hnext st' eq_refl) as (-> & _). exact Hall.
    + constructor; [exact I | constructor].
  - unfold and_then. cbn. apply IH. cbn. exact Hall.
Qed.

(** X16.  The first client, [invoke], has no schema check: it performs
    requests for a buffered response and calls of functions of the tools of
    the client and of its body, and every call gets the parameter object of
    an invocation as the parser left it, a fresh object with the properties
    of the [parameters] element. *)
Theorem invoke_calls_with_parsed_parameters (this_tools : list ToolDefinition) (fuel : nat)
    (body : MessageCreateParams) (w : World) :
  Forall (invoke_action (this_tools ++ or_nil (tools body)))
    (trace (run (invoke this_tools fuel body) w)).
Proof.
  unfold invoke.
  destruct (buffered_system (this_tools ++ or_nil (tools body)) (system body)) as [system'|e];
    cbn [lift mbind prog_bind bind await run perform trace performed]; [|constructor].
  constructor; [exact I|].
  destruct (messages_create _ w) as [[response|e] w'];
    cbn [fst snd lift mbind prog_bind bind run trace]; [|constructor].
  destruct (getTextFromContent (CBlocks (response_content response))); [|constructor].
  apply invoke_loop_actions. constructor.
Qed.

End Buffered_calls.

(** ** The transcript of the buffered clients *)

Section Transcript.
Context `{Externals}.

Lemma is_plain_spec (m : MessageParam) : is_plain m = true <-> free_of_markers m.
Proof.
  unfold is_plain, free_of_markers. destruct (getTextFromMessage m) as [txt|].
  - rewrite andb_true_iff, !negb_true_iff. split.
    + intros Hm txt' [= <-]. exact Hm.
    + intros Hm. apply Hm. reflexivity.
  - split; [discriminate | reflexivity].
Qed.

Lemma prefix_app_l (p s t : string) :
  String.prefix p s = true -> String.prefix p (s ++ t) = true.
Proof.
  revert s. induction p as [|a p IH]; intros s; [destruct s, t; reflexivity|].
  destruct s as [|b s]; [discriminate|]. rewrite append_cons. cbn.
  destruct (Ascii.ascii_dec a b); [apply IH | discriminate].
Qed.

(** A message that carries a result block is dropped from
    [filteredMessages]. *)
Lemma result_message_not_plain (block : string) :
  String.prefix "<function_results>" block = true -> is_plain (result_message block) = false.
Proof.
  intros Hblock. unfold is_plain, getTextFromMessage, result_message. cbn [content getTextFromContent].
  destruct block as [|c block]; [discriminate|]. rewrite append_cons. cbn [nonempty String.eqb].
  rewrite <- append_cons.
  rewrite (includes_prefix _ "<function_results>" (prefix_app_l _ _ _ Hblock)).
  apply andb_false_r.
Qed.

Lemma for_each_block {A} (body : A -> string -> prog Empty_set (control * string))
    (P : string -> Prop) (fs : list A) (b0 b : string) (c : control) (w : World) :
  (forall x s w' c' s', P s -> final (run (body x s) w') = Ok (c', s') -> P s') ->
  P b0 ->
  final (run (for_each fs body b0) w) = Ok (c, b) ->
  P b.
Proof.
  intros Hbody. revert b0 w. induction fs as [|x fs IH]; intros b0 w Hb0; cbn [for_each].
  - intros [= <- <-]. exact Hb0.
  - rewrite run_bind. unfold and_then.
    destruct (final (run (body x b0) w)) as [[c' s']|e] eqn:Hx; [|discriminate].
    pose proof (Hbody _ _ _ _ _ Hb0 Hx) as Hs'. cbn [fst snd final].
    destruct c'; cbn [final run].
    + apply IH, Hs'.
    + intros [= <- <-]. exact Hs'.
Qed.

Lemma execute_one_block (tools : list ToolDefinition) (func : Invocation) (s s' : string)
    (c : control) (w : World) :
  String.prefix "<function_results>" s = true ->
  final (run (execute_one tools func s) w) = Ok (c, s') ->
  String.prefix "<function_results>" s' = true.
Proof.
  intros Hs. unfold execute_one.
  destruct (find_tool tools (inv_name func)) as [tool|]; [|discriminate].
  destruct (safeParse (parameters (anthropic tool)) (inv_parameters func)) as [parsed|z].
  - cbn. destruct (function tool parsed w) as [[v|e] w']; cbn; intros [= <- <-].
    + apply prefix_app_l, Hs.
    + reflexivity.
  - cbn. intros [= <- <-]. reflexivity.
Qed.

Lemma invoke_execute_one_block (tools : list ToolDefinition) (func : Invocation)
    (s s' : string) (c : control) (w : World) :
  String.prefix "<function_results>" s = true ->
  final (run (invoke_execute_one tools func s) w) = Ok (c, s') ->
  String.prefix "<function_results>" s' = true.
Proof.
  intros Hs. unfold invoke_execute_one.
  destruct (find_tool tools (inv_name func)) as [tool|]; [|discriminate].
  cbn. destruct (function tool (inv_parameters func) w) as [[v|e] w']; cbn; intros [= <- <-].
  - apply prefix_app_l, Hs.
  - reflexivity.
Qed.

Lemma execute_each_block (tools : list ToolDefinition) (fs : list Invocation) (c : control)
    (b : string) (w : World) :
  final (run (execute_each tools fs) w) = Ok (c, b) ->
  String.prefix "<function_results>" b = true.
Proof.
  apply (for_each_block (execute_one tools)
           (fun s => String.prefix "<function_results>" s = true)); [|reflexivity].
  intros x s w' c' s' Hs Hx. eapply execute_one_block; eassumption.
Qed.

Lemma invoke_execute_each_block (tools : list ToolDefinition) (fs : list Invocation)
    (c : control) (b : string) (w : World) :
  final (run (invoke_execute_each tools fs) w) = Ok (c, b) ->
  String.prefix "<function_results>" b = true.
Proof.
  apply (for_each_block (invoke_execute_one tools)
           (fun s => String.prefix "<function_results>" s = true)); [|reflexivity].
  intros x s w' c' s' Hs Hx. eapply invoke_execute_one_block; eassumption.
Qed.

Lemma grown_from_more (start more : list MessageParam) (r : RunResult) :
  Forall (fun m => role m = assistant \/ is_plain m = false) more ->
  grown_from (start ++ more) r -> grown_from start r.
Proof.
  intros Hmore ((more' & Hfull & Hmore') & Hfiltered). split; [|exact Hfiltered].
  exists (more ++ more')%list. rewrite app_assoc. split; [exact Hfull|].
  apply Forall_app. auto.
Qed.

Lemma round_transcript (exec : prog Empty_set (control * string)) (st : Turn)
    (fs : list Invocation) (w : World) :
  (forall c b, final (run exec w) = Ok (c, b) -> String.prefix "<function_results>" b = true) ->
  match final (run (executed ← exec; feedback st fs executed.2) w) with
  | Ok (inl r) => grown_from (req_messages (request st)) r
  | Ok (inr st') =>
      exists more, req_messages (request st') = (req_messages (request st) ++ more)%list
                   /\ Forall (fun m => role m = assistant \/ is_plain m = false) more
  | Throw _ => True
  end.
Proof.
  intros Hexec. rewrite run_mbind. unfold and_then.
  destruct (final (run exec w)) as [[c b]|e] eqn:Hb; [|exact I].
  pose proof (result_message_not_plain b (Hexec _ _ eq_refl)) as Hdrop.
  cbn [final fst snd]. unfold feedback.
  cbn [mbind prog_bind bind await run perform final performed].
  destruct (messages_create _ (world (run exec w))) as [[response'|e] w'];
    cbn -[getTextFromContent]; [|exact I].
  assert (Hmore : Forall (fun m => role m = assistant \/ is_plain m = false)
                    ((if first st then [] else [assistant_text (response st)]) ++
                     [{| role := user; content := CString (b ++ "</function_results>") |}])).
  { apply Forall_app. split.
    - destruct (first st); constructor; [left; reflexivity | constructor].
    - constructor; [right; exact Hdrop | constructor]. }
  destruct (getTextFromContent (CBlocks (response_content response'))); cbn.
  - eexists. split; [reflexivity | exact Hmore].
  - split; [|reflexivity]. eexists. split; [reflexivity | exact Hmore].
Qed.

Lemma idle_transcript (st : Turn) :
  Forall (fun m => role m = assistant \/ is_plain m = false)
    (if first st then [] else [assistant_text (response st)]).
Proof. destruct (first st); constructor; [left; reflexivity | constructor]. Qed.

Lemma idle_messages (st : Turn) :
  (if first st then req_messages (request st)
   else (req_messages (request st) ++ [assistant_text (response st)])%list) =
  (req_messages (request st) ++ (if first st then [] else [assistant_text (response st)]))%list.
Proof. destruct (first st); [rewrite app_nil_r|]; reflexivity. Qed.

Lemma turn_loop_transcript (fuel : nat) (tools : list ToolDefinition) (st : Turn) (w : World)
    (r : RunResult) :
  final (run (turn_loop fuel tools st) w) = Ok (Some r) ->
  grown_from (req_messages (request st)) r.
Proof.
  revert st w. induction fuel as [|fuel IH]; intros st w; cbn [turn_loop];
    destruct (includes (text st) function_calls_open);
    try (cbn; intros [= <-]; rewrite idle_messages;
         split; [eexists; split; [reflexivity | apply idle_transcript] | reflexivity]).
  - discriminate.
  - rewrite run_mbind. unfold turn.
    destruct (parse_invocations (text st)) as [parsed|e]; cbn [lift mbind prog_bind bind];
      [|discriminate].
    destruct (0 <? length (functions st ++ parsed))%nat.
    + pose proof (round_transcript (execute_each tools (functions st ++ parsed)) st
                    (functions st ++ parsed) w) as Hround.
      unfold and_then.
      destruct (final (run (executed ← execute_each tools (functions st ++ parsed);
                            feedback st (functions st ++ parsed) executed.2) w))
        as [[done|st']|e]; cbn [final run]; try discriminate.
      * intros [= <-]. apply Hround.
        intros c b. apply execute_each_block.
      * intros Hrest. destruct Hround as (more & Hmore & Hall).
        { intros c b. apply execute_each_block. }
        apply (grown_from_more _ more _ Hall). rewrite <- Hmore. eapply IH. exact Hrest.
    + unfold and_then. cbn [final run world fst snd]. intros Hrest.
      apply IH in Hrest. cbn [request req_messages with_messages] in Hrest.
      rewrite idle_messages in Hrest.
      apply (grown_from_more _ _ _ (idle_transcript st) Hrest).
Qed.

Lemma invoke_loop_transcript (fuel : nat) (tools : list ToolDefinition) (st : Turn) (w : World)
    (r : RunResult) :
  final (run (invoke_loop fuel tools st) w) = Ok (Some r) ->
  grown_from (req_messages (request st)) r.
Proof.
  revert st w. induction fuel as [|fuel IH]; intros st w; cbn [invoke_loop];
    destruct (includes (text st) function_calls_open);
    try (cbn; intros [= <-]; rewrite idle_messages;
         split; [eexists; split; [reflexivity | apply idle_transcript] | reflexivity]).
  - discriminate.
  - rewrite run_mbind. unfold invoke_turn.
    destruct (parse_invocations (text st)) as [parsed|e]; cbn [lift mbind prog_bind bind];
      [|discriminate].
    destruct (0 <? length (functions st ++ parsed))%nat.
    + pose proof (round_transcript (invoke_execute_each tools (functions st ++ parsed)) st
                    (functions st ++ parsed) w) as Hround.
      unfold and_then.
      destruct (final (run (executed ← invoke_execute_each tools (functions st ++ parsed);
                            feedback st (functions st ++ parsed) executed.2) w))
        as [[done|st']|e]; cbn [final run]; try discriminate.
      * intros [= <-]. apply Hround.
        intros c b. apply invoke_execute_each_block.
      * intros Hrest. destruct Hround as (more & Hmore & Hall).
        { intros c b. apply invoke_execute_each_block. }
        apply (grown_from_more _ more _ Hall). rewrite <- Hmore. eapply IH. exact Hrest.
    + unfold and_then. cbn [final run world fst snd]. intros Hrest.
      apply IH in Hrest. cbn [request req_messages with_messages] in Hrest.
      rewrite idle_messages in Hrest.
      apply (grown_from_more _ _ _ (idle_transcript st) Hrest).
Qed.

Lemma no_events (l : list Empty_set) : l = [].
Proof. destruct l as [|[] ?]; reflexivity. Qed.

Lemma grown_from_reply (start : list MessageParam) (reply : list ContentBlock)
    (r : RunResult) :
  grown_from (start ++ [{| role := assistant; content := CBlocks reply |}]) r ->
  exists more,
    fullMessages r = (start ++ {| role := assistant; content := CBlocks reply |} :: more)%list
    /\ Forall (fun m => role m = assistant \/ is_plain m = false) more
    /\ filteredMessages r = List.filter is_plain (fullMessages r)
    /\ (forall m, In m (filteredMessages r) <-> In m (fullMessages r) /\ free_of_markers m).
Proof.
  intros ((more & Hfull & Hmore) & Hfiltered). exists more.
  split; [rewrite Hfull, <- app_assoc; reflexivity|].
  split; [exact Hmore|]. split; [exact Hfiltered|].
  intros m. rewrite Hfiltered, List.filter_In, is_plain_spec. reflexivity.
Qed.

(** X17.  The transcript that [runWithTools] and [invoke] return only
    grows: [fullMessages] is the caller's messages, unchanged and in order,
    then the first reply as one assistant message with the reply's blocks,
    then what the rounds appended; every message the rounds appended is an
    assistant message or is dropped by the filter, so no result block is in
    [filteredMessages]; and [filteredMessages] is [fullMessages] without the
    messages whose text has one of the two markers, in the same order. *)
Theorem transcript_only_grows (this_tools : list ToolDefinition) (fuel : nat)
    (body : MessageCreateParams) (w : World) (r : RunResult) :
  final (run (runWithTools fuel body) w) = Ok (Some r)
  \/ final (run (invoke this_tools fuel body) w) = Ok (Some r) ->
  exists reply more,
    fullMessages r =
      (messages body ++ {| role := assistant; content := CBlocks reply |} :: more)%list
    /\ Forall (fun m => role m = assistant \/ is_plain m = false) more
    /\ filteredMessages r = List.filter is_plain (fullMessages r)
    /\ (forall m, In m (filteredMessages r) <-> In m (fullMessages r) /\ free_of_markers m).
Proof.
  assert (Hdone : forall response,
            grown_from (messages body ++
                        [{| role := assistant; content := CBlocks (response_content response) |}])
              (finished response
                 (messages body ++
                  [{| role := assistant; content := CBlocks (response_content response) |}]))).
  { intros response. split; [|reflexivity]. exists []. rewrite app_nil_r. split; constructor. }
  intros [Hrun | Hrun]; revert Hrun.
  - unfold runWithTools.
    destruct (buffered_system (or_nil (tools body)) (system body)) as [system'|e];
      cbn [lift mbind prog_bind bind await run perform final performed]; [|discriminate].
    destruct (messages_create (buffered_request body system') w) as [[response|e] w'];
      cbn [fst snd lift mbind prog_bind bind run final]; [|discriminate].
    destruct (getTextFromContent (CBlocks (response_content response))).
    + intros Hloop. apply turn_loop_transcript in Hloop.
      exists (response_content response). apply grown_from_reply. exact Hloop.
    + cbn. intros [= <-]. exists (response_content response).
      apply grown_from_reply, Hdone.
  - unfold invoke.
    destruct (buffered_system (this_tools ++ or_nil (tools body)) (system body))
      as [system'|e];
      cbn [lift mbind prog_bind bind await run perform final performed]; [|discriminate].
    destruct (messages_create _ w) as [[response|e] w'];
      cbn [fst snd lift mbind prog_bind bind run final]; [|discriminate].
    destruct (getTextFromContent (CBlocks (response_content response))).
    + intros Hloop. apply invoke_loop_transcript in Hloop.
      exists (response_content response). apply grown_from_reply. exact Hloop.
    + cbn. intros [= <-]. exists (response_content response).
      apply grown_from_reply, Hdone.
Qed.

(** X18.  The transcript of a call with one round.  The first reply is
    stored with its blocks, the results go back as one user message, and the
    reply to them is stored as a text message when it has a text (and no
    further block); when it has no text the call returns at once and the
    transcript ends with the result message: that reply is in [response]
    only.  The call sends two requests, the second with the transcript up to
    the result message, and between them performs what the loop over the
    invocations performs. *)
Theorem one_round_transcript (fuel : nat) (body : MessageCreateParams) (system' : string)
    (reply reply' : Message) (txt block : string) (parsed : list Invocation) (c : control)
    (w w1 w3 : World) :
  let tools := or_nil (tools body) in
  let loop := run (execute_each tools parsed) w1 in
  let st := first_turn body system' reply txt in
  let transcript :=
    (messages body ++
     [{| role := assistant; content := CBlocks (response_content reply) |};
      result_message block])%list in
  buffered_system tools (system body) = Ok system' ->
  messages_create (buffered_request body system') w = (Ok reply, w1) ->
  getTextFromContent (CBlocks (response_content reply)) = Some txt ->
  includes txt "<function_calls>" = true ->
  parse_invocations txt = Ok parsed ->
  parsed <> [] ->
  final loop = Ok (c, block) ->
  messages_create (feedback_request st block) (world loop) = (Ok reply', w3) ->
  let o := run (runWithTools (S fuel) body) w in
  let performs :=
    (Io (create (buffered_request body system')) :: trace loop ++
     [Io (create (with_messages (buffered_request body system') transcript))])%list in
  (getTextFromContent (CBlocks (response_content reply')) = None ->
   o = {| events := []; trace := performs;
          final := Ok (Some (finished reply' transcript)); world := w3 |})
  /\ (forall txt',
        getTextFromContent (CBlocks (response_content reply')) = Some txt' ->
        includes txt' "<function_calls>" = false ->
        o = {| events := []; trace := performs;
               final := Ok (Some (finished reply' (transcript ++ [assistant_text reply'])));
               world := w3 |}).
Proof.
  cbn zeta. intros Hsystem Hcreate Htext Hmarker Hparse Hsome Hloop Hcreate'.
  set (st := first_turn body system' reply txt) in *.
  set (loop := run (execute_each (or_nil (tools body)) parsed) w1) in *.
  assert (Hrequest : feedback_request st block =
                     with_messages (buffered_request body system')
                       (messages body ++
                        [{| role := assistant; content := CBlocks (response_content reply) |};
                         result_message block])).
  { unfold feedback_request, with_messages. cbn. rewrite <- app_assoc. reflexivity. }
  assert (Hevents : events loop = []) by apply no_events.
  assert (Hrun : run (runWithTools (S fuel) body) w =
                 performed (Io (create (buffered_request body system')))
                   {| events := [];
                      trace := trace loop ++ Io (create (feedback_request st block)) ::
                        trace (run match getTextFromContent (CBlocks (response_content reply')) with
                                   | Some txt' =>
                                       turn_loop fuel (or_nil (tools body))
                                         {| request := feedback_request st block;
                                            response := reply'; text := txt'; first := false;
                                            functions := parsed |}
                                   | None =>
                                       Ret (Some (finished reply'
                                                    (req_messages (feedback_request st block))))
                                   end w3);
                      final :=
                        final (run match getTextFromContent (CBlocks (response_content reply')) with
                                   | Some txt' =>
                                       turn_loop fuel (or_nil (tools body))
                                         {| request := feedback_request st block;
                                            response := reply'; text := txt'; first := false;
                                            functions := parsed |}
                                   | None =>
                                       Ret (Some (finished reply'
                                                    (req_messages (feedback_request st block))))
                                   end w3);
                      world :=
                        world (run match getTextFromContent (CBlocks (response_content reply')) with
                                   | Some txt' =>
                                       turn_loop fuel (or_nil (tools body))
                                         {| request := feedback_request st block;
                                            response := reply'; text := txt'; first := false;
                                            functions := parsed |}
                                   | None =>
                                       Ret (Some (finished reply'
                                                    (req_messages (feedback_request st block))))
                                   end w3) |}).
  { unfold runWithTools. rewrite Hsystem.
    cbn [lift mbind prog_bind bind await run perform]. rewrite Hcreate.
    cbn [fst snd lift mbind prog_bind bind]. rewrite Htext.
    fold (first_turn body system' reply txt). fold st.
    cbn [turn_loop]. unfold function_calls_open.
    change (text st) with txt. rewrite Hmarker, run_mbind.
    rewrite (run_turn _ st w1 parsed Hparse) by exact Hsome.
    change (functions st ++ parsed)%list with parsed. fold loop.
    rewrite and_then_assoc. unfold and_then at 1. rewrite Hloop, Hevents. cbn [fst snd].
    unfold feedback. cbn [mbind prog_bind bind await run perform].
    fold (result_message block). fold (feedback_request st block).
    rewrite Hcreate'. cbn [fst snd lift mbind prog_bind bind].
    f_equal. unfold and_then.
    destruct (getTextFromContent (CBlocks (response_content reply'))); cbn;
      f_equal; apply no_events. }
  rewrite Hrun. split.
  - intros Htext'. rewrite Htext', Hrequest. reflexivity.
  - intros txt' Htext' Hplain. rewrite Htext'.
    assert (Hnext : run (turn_loop fuel (or_nil (tools body))
                     {| request := feedback_request st block; response := reply';
                        text := txt'; first := false; functions := parsed |}) w3 =
              {| events := []; trace := [];
                 final := Ok (Some (finished reply'
                            (req_messages (feedback_request st block) ++
                             [assistant_text reply']))); world := w3 |}).
    { destruct fuel; cbn [turn_loop]; unfold function_calls_open;
        cbn [text]; rewrite Hplain; reflexivity. }
    rewrite Hnext, Hrequest. reflexivity.
Qed.

End Transcript.

(** ** The two parsers on one block *)

Section Two_parsers.
Context `{Externals}.

Lemma holder_names (holder : value) :
  match call_of_invoke holder, invocation_of holder with
  | Ok c, Ok i => inv_name i = call_tool_name c
  | Throw e, Throw e' => e = e'
  | _, _ => False
  end.
Proof.
  unfold call_of_invoke, invocation_of.
  destruct (get holder "invoke") as [inner|e]; cbn; [|reflexivity].
  destruct (get inner "tool_name") as [name|e] eqn:Hname; cbn.
  - destruct inner; try discriminate; reflexivity.
  - destruct inner; try discriminate; cbn; congruence.
Qed.

Lemma holders_names (holders : list value) :
  match map_result call_of_invoke holders, map_result invocation_of holders with
  | Ok cs, Ok invs => map inv_name invs = map call_tool_name cs
  | Throw e, Throw e' => e = e'
  | _, _ => False
  end.
Proof.
  induction holders as [|holder holders IH]; cbn; [reflexivity|].
  pose proof (holder_names holder) as Hholder.
  destruct (call_of_invoke holder) as [c|e], (invocation_of holder) as [i|e']; cbn;
    try contradiction; [|exact Hholder].
  destruct (map_result call_of_invoke holders) as [cs|e],
           (map_result invocation_of holders) as [invs|e']; cbn;
    try contradiction; [|exact IH].
  rewrite Hholder, IH. reflexivity.
Qed.

(** X20.  On one block the two clients read the same invocations: where
    the streamed parser returns records, the buffered parser returns as
    many invocations with the same tool names in the same order, and where
    one of them throws the other throws the same error. *)
Theorem clients_read_the_same_names (txt : string) :
  includes txt "<function_calls>" = true ->
  match extractFunctionCalls txt, parse_invocations txt with
  | Ok calls, Ok invocations => map inv_name invocations = map call_tool_name calls
  | Throw e, Throw e' => e = e'
  | _, _ => False
  end.
Proof.
  intros Hmarker. unfold extractFunctionCalls, parse_invocations, function_calls_open.
  rewrite Hmarker. cbn [negb].
  destruct (XMLParser_parse (function_calls_block txt)) as [root|e]; cbn; [|reflexivity].
  destruct (get root "function_calls") as [calls|e]; cbn; [|reflexivity].
  assert (Hone : match (c ← call_of_invoke calls; Ok [c]),
                       map_result invocation_of [calls] with
                 | Ok cs, Ok invs => map inv_name invs = map call_tool_name cs
                 | Throw e, Throw e' => e = e'
                 | _, _ => False
                 end).
  { pose proof (holders_names [calls]) as Hholders. cbn in Hholders |- *.
    destruct (call_of_invoke calls), (invocation_of calls); exact Hholders. }
  destruct calls; try exact Hone. apply holders_names.
Qed.

(** X21.  A provider stream that never starts block [0] (an empty stream,
    or one whose first block has another index) makes the iteration throw a
    [TypeError] when it reads [content[0].text]: the consumer gets the
    provider's events, then the controller is aborted and the error is
    thrown.  The iteration does not end quietly on such a stream. *)
Theorem stream_without_first_block_throws (s : Stream) (w : World) (content : Content) :
  resolver_content (chunks (source s)) [] = Ok content ->
  failure (source s) = None ->
  block_text 0 (chunks (source s)) None = None ->
  run (iterator_body s) w =
  {| events := map provider_event (chunks (source s)); trace := [Io abort];
     final := Throw TypeError; world := controller_abort w |}.
Proof.
  intros Hcontent Hfailure Hblock.
  pose proof (run_processChunks (chunks (source s)) [] w) as Hrun. rewrite Hcontent in Hrun.
  pose proof (resolver_content_block 0 _ _ _ Hcontent) as Hzero.
  change (array_get 0 []) with (@None string) in Hzero. rewrite Hblock in Hzero.
  rewrite run_iterator_body, run_try_catch.
  assert (Htry : run (iterator_try s) w =
                 {| events := map provider_event (chunks (source s)); trace := [];
                    final := Throw TypeError; world := w |}).
  { unfold iterator_try. rewrite run_mbind. unfold for_await_stream.
    rewrite run_bind, Hrun, Hfailure. unfold and_then. cbn.
    unfold after_stream. rewrite Hzero. cbn. rewrite !app_nil_r. reflexivity. }
  rewrite Htry. cbn. rewrite app_nil_r. reflexivity.
Qed.

End Two_parsers.

(** ** The clients on concrete conversations *)

Module Conversations.
Import Demo.

Example demo_parse_one :
  extractFunctionCalls (asking (invoke_context "lookup" "France")) =
  Ok [{| call_tool_name := VStr "lookup"; call_context := VStr "France" |}].
Proof. reflexivity. Qed.

Example demo_invokeFunctions_drained :
  map label (events (run
    (invokeFunctions
       [{| call_tool_name := VStr "lookup"; call_context := VStr "a" |};
        {| call_tool_name := VStr "compute"; call_context := VStr "b" |};
        {| call_tool_name := VStr "lookup"; call_context := VStr "c" |}]
       registry "claude")
    (script [] [] 3))) =
  ["invoke lookup"; "result lookup"; "invoke compute"; "error compute";
   "invoke lookup"; "result lookup"; "results"].
Proof. vm_compute. reflexivity. Qed.

(** The round of three invocations of which the second fails, as [stream]
    takes it out of the generator and as [stream] hands it on: the third
    tool is not called, and no [tool_invoke] reaches the consumer. *)
Example three_invocations_second_fails :
  let g := invokeFunctions [call_of "lookup"; call_of "compute"; call_of "lookup"]
             registry "claude" in
  labels (run (taken g) provider)
    = ["invoke lookup"; "result lookup"; "invoke compute"; "error compute"]
  /\ labels (run (for_await g forward None) provider) = ["result lookup"; "error compute"]
  /\ names_called (run (for_await g forward None) provider) = ["lookup"; "compute"].
Proof. vm_compute. repeat split. Qed.

(** The buffered client on a reply without an invocation block: one request,
    and the transcript grows by the reply. *)
Example buffered_plain_reply :
  let o := run (runWithTools 0 (body registry)) (script ["The capital is Paris."] [] 0) in
  length (trace o) = 1%nat
  /\ match final o with
     | Ok (Some r) => length (fullMessages r) = 2%nat
     | _ => False
     end.
Proof. vm_compute. repeat split. Qed.

(** The buffered client on a reply that asks for [strict], whose schema
    accepts no parameters: the function is not called and the block sent
    back holds the one error fragment. *)
Example buffered_invalid_parameters :
  let o := run (runWithTools 1 (body registry))
             (script [asking (invoke_q "strict" "x"); "Sorry."] [] 0) in
  names_called o = []
  /\ match final o with
     | Ok (Some r) =>
         nth_error (fullMessages r) 2 =
         Some (result_message (error_block "Invalid parameters passed to the function"))
     | _ => False
     end.
Proof. vm_compute. repeat split. Qed.

(** C3 at an input on which the streamed client fails.  The reply asks for
    [compute], whose function rejects.  The iteration yields the
    [tool_error] and goes on to the continuation request: no
    [tool_results] event is yielded, so no result block with the error
    fragment is serialized, and the continuation request carries the
    caller's one message.  When another consumer runs the generator to its
    end on three invocations of which the second fails, the third tool is
    still called and its fragment follows the error fragment in the
    block. *)
Theorem streamed_error_round_has_no_block :
  let o := run (iterator (asked (invoke_context "compute" "France"))).2 provider in
  labels o = ["chunk"; "chunk"; "chunk"; "chunk"; "chunk"; "error compute";
              "chunk"; "chunk"; "chunk"; "chunk"; "chunk"]
  /\ result_blocks o = []
  /\ map req_messages (stream_requests (trace o)) = [[question]]
  /\ final o = Ok ()
  /\ let drained := run (invokeFunctions [call_of "lookup"; call_of "compute"; call_of "lookup"]
                           registry "claude") provider in
     names_called drained = ["lookup"; "compute"; "lookup"]
     /\ result_blocks drained =
        [{| role := user;
            content := CString
              (error_block "{}" ++ function_result "lookup" (DQ ++ "Paris" ++ DQ) ++
               "</function_results>") |}].
Proof. vm_compute. repeat split. Qed.

(** C4 at an input on which the streamed client fails.  The reply asks for
    [lookup], whose function resolves.  The [tool_results] event carries the
    follow-up user message with the result block, but the continuation
    request, the only request sent after the tool ran, carries the caller's
    one message: [sendFinalResponse] is given [body.messages], and the
    messages collected in [result] are never read. *)
Theorem continuation_request_omits_results :
  let o := run (iterator (asked (invoke_context "lookup" "France"))).2 provider in
  names_called o = ["lookup"]
  /\ result_blocks o =
     [{| role := user;
         content := CString
           (function_results_open ++ function_result "lookup" (DQ ++ "Paris" ++ DQ) ++
            "</function_results>") |}]
  /\ map req_messages (stream_requests (trace o)) = [[question]]
  /\ final o = Ok ().
Proof. vm_compute. repeat split. Qed.

(** C1 at an input on which the streamed client fails.  The reply asks for
    [lookup] once and the function of the tool resolves.  One invocation
    record is parsed, and [invokeFunctions] yields its [tool_invoke] and
    then its [tool_result], as the invariant says.  But the loop of [stream]
    (v2.ts:109-123) has no branch for [tool_invoke]: it hands on the
    [tool_result] and the [tool_results] only, so the consumer gets no
    [tool_invoke] for the turn and the [tool_result] it gets follows none.
    No [tool_invoke] reaches the consumer on any stream, whether it takes
    every event or leaves, so the invariant fails on every turn with an
    invocation record. *)
Theorem tool_invoke_never_reaches_the_consumer :
  (forall (leave : option nat) (s : Stream) (w : World) (calls : list FunctionCall),
     invoked (events (run (iteration leave s) w)) = []
     /\ (calls <> [] -> ~ one_outcome_per_record calls (events (run (iteration leave s) w))))
  /\ let o := run (iterator (asked (invoke_context "lookup" "France"))).2 provider in
     let generator := run (invokeFunctions [call_of "lookup"] registry "claude") provider in
     extractFunctionCalls (asking (invoke_context "lookup" "France")) = Ok [call_of "lookup"]
     /\ labels generator = ["invoke lookup"; "result lookup"; "results"]
     /\ one_outcome_per_record [call_of "lookup"] (events generator)
     /\ labels o = ["chunk"; "chunk"; "chunk"; "chunk"; "chunk"; "result lookup"; "results";
                    "chunk"; "chunk"; "chunk"; "chunk"; "chunk"]
     /\ length (invoked (events o)) = 0%nat
     /\ names_called o = ["lookup"]
     /\ final o = Ok ().
Proof.
  split.
  - intros leave s w calls. pose proof (iteration_yields_no_invoke leave s w) as Hnone.
    split; [exact Hnone|]. intros Hcalls (Hcount & _). rewrite Hnone in Hcount.
    destruct calls; [congruence | discriminate].
  - vm_compute. repeat split.
Qed.

(** *** The theorems above at concrete inputs *)

Lemma no_marker_witness :
  extractFunctionCalls "The capital is Paris." = Ok []
  /\ after_stream (body registry) [Some "The capital is Paris."] = Ret ().
Proof.
  destruct (no_marker_no_invocations "The capital is Paris." eq_refl) as (Hparse & Hstream & _).
  split; [exact Hparse | apply Hstream; reflexivity].
Defined.

Lemma prompt_witness :
  req_system (stream_request (body [lookup; compute])) =
    Some "In this environment you have access to a set of tools you can use to answer the user's questions.
You will be given the name and description of each tool, and you just need to call the tool by name. Another model will handle calling the tool with the correct parameters. You MUST NOT write any parameters yourself.

You may call one or more tools like this, the tools will be called in the order they are listed, but the result of each tool will NOT be passed to the next tool:
<function_calls>
<invoke>
<tool_name>$TOOL_NAME</tool_name>
<context>$ALL_NECESSARY_CONTEXT_TO_SEND_TO_THE_OTHER_MODEL</context>
</invoke>
<invoke>
<tool_name>$TOOL_NAME</tool_name>
<context>$ALL_NECESSARY_CONTEXT_TO_SEND_TO_THE_OTHER_MODEL</context>
</invoke>
...
</function_calls>

Here are the tools available:
<tools>
<tool_description>
<name>lookup</name>
<description>lookup tool</description>
</tool_description>
<tool_description>
<name>compute</name>
<description>compute tool</description>
</tool_description>
</tools>
Be brief."
  /\ req_stop_sequences (stream_request (body [lookup; compute])) =
     Some ["STOP"; "</function_calls>"]
  /\ @buffered_system documented [finder] (Some "Be brief.") =
     Ok "In this environment you have access to a set of tools you can use to answer the user's question.

You may call them like this:
<function_calls>
<invoke>
<tool_name>$TOOL_NAME</tool_name>
<parameters>
<$PARAMETER_NAME>$PARAMETER_VALUE</$PARAMETER_NAME>
...
</parameters>
</invoke>
</function_calls>

Here are the tools available:
<tools>
<tool_description>
<name>finder</name>
<description>finds things</description>
<parameters>
<parameter>
<name>q</name>
<type>string</type>
<description>the query</description>
</parameter>
<parameter>
<name>tags</name>
<type>array</type>
<description>the tags</description>
<items></items>
</parameter>
</parameters>
</tool_description>
</tools>
Be brief."
  /\ req_stop_sequences (@buffered_request documented catalogue "") =
     Some ["STOP"; "</function_calls>"]
  /\ req_system (stream_request (body [])) = Some "Be brief."
  /\ req_stop_sequences (stream_request (body [])) = Some []
  /\ buffered_system [] (system (body [])) = Ok "Be brief."
  /\ req_stop_sequences (buffered_request (body []) "Be brief.") = Some ["STOP"].
Proof.
  destruct (system_prompt_and_stop_sequences (body [lookup; compute])) as (_ & Hsome).
  destruct Hsome as (Hprompt & Hstop & _); [discriminate|].
  destruct (@system_prompt_and_stop_sequences documented catalogue) as (_ & Hdocumented).
  destruct Hdocumented as (_ & _ & Hbuffered & _ & Hmarker); [discriminate|].
  destruct (system_prompt_and_stop_sequences (body [])) as (Hnone & _).
  destruct Hnone as (Hsystem & Hempty & Hplain & Hkept); [reflexivity|].
  split; [exact Hprompt|]. split; [exact Hstop|].
  split; [apply Hbuffered; repeat constructor|].
  split; [exact (Hmarker "")|].
  split; [exact Hsystem|]. split; [exact Hempty|].
  split; [exact Hplain | exact (Hkept "Be brief.")].
Defined.

Lemma single_consumer_witness :
  let s := asked (invoke_context "lookup" "France") in
  (iterator (iterator (iterator s).1).1).2 = Raise consumed_error.
Proof.
  cbn zeta.
  destruct (stream_single_consumer (asked (invoke_context "lookup" "France")) eq_refl)
    as (_ & Hagain).
  exact (proj1 (Hagain 1%nat provider)).
Defined.

Lemma tool_not_found_witness :
  final (run (iterator_body (asked (invoke_context "translate" "France"))) provider)
    = Throw tool_not_found_v2
  /\ final (run (turn_loop 1 registry second_round) provider)
    = Throw (tool_not_found (VStr "translate")).
Proof.
  destruct (tool_not_found_is_fatal registry) as (Hstream & Hbuffered). split.
  - rewrite (Hstream (asked (invoke_context "translate" "France")) provider
               [Some (asking (invoke_context "translate" "France"))]
               (asking (invoke_context "translate" "France"))
               [] [] unknown_call round_start None);
      reflexivity.
  - rewrite (Hbuffered 0%nat second_round provider [unknown_invocation]
               [lookup_invocation] [] unknown_invocation
               (function_results_open ++ function_result "lookup" (DQ ++ "Paris" ++ DQ)));
      reflexivity.
Defined.

Lemma undefined_result_witness :
  labels (run (invoke_each registry "claude" [call_of "silent"] round_start) provider)
  = ["invoke silent"].
Proof.
  rewrite (undefined_result_is_silent registry "claude" (call_of "silent") [] round_start
             provider (script [] ["The capital is Paris."] 2) (script [] ["The capital is Paris."] 2)
             silent empty_json (VObj []));
    reflexivity.
Defined.


Lemma repeated_invoke_witness :
  extractFunctionCalls
    (asking (invoke_context "lookup" "France" ++ invoke_context "compute" "2+2"))
  = Ok [{| call_tool_name := VUndefined; call_context := VUndefined |}].
Proof.
  refine (proj1 (repeated_invoke_collapses
                   (asking (invoke_context "lookup" "France" ++ invoke_context "compute" "2+2"))
                   _ _ _ eq_refl eq_refl eq_refl eq_refl)).
Defined.

(** *** Where the specification's statements fail *)


End Conversations.

(** ** The other properties at concrete inputs *)

Module Coverage.
Import Demo.

Lemma block_witness :
  function_calls_block (asking (invoke_context "lookup" "France")) =
  function_calls_open ++ LF ++ (LF ++ invoke_context "lookup" "France") ++ LF ++
  function_calls_close.
Proof.
  exact (proj1 (block_is_between_markers "Let me check. "
                  (LF ++ invoke_context "lookup" "France") "") eq_refl eq_refl).
Defined.

Lemma forwarding_witness :
  events (run (for_chunks (chunks (streaming "Hello")) processChunk []) provider) =
    map provider_event (chunks (streaming "Hello"))
  /\ block_text 0 (chunks (streaming "Hello")) None = Some "Hello".
Proof.
  destruct (@provider_events_are_forwarded externals (chunks (streaming "Hello")) [] [Some "Hello"]
              provider eq_refl) as (Hrun & Hblock).
  split; [exact (f_equal events Hrun) | exact (eq_sym (Hblock 0%nat))].
Defined.

Lemma unstarted_witness :
  exists k, (k < 2)%nat
    /\ run (iterator_body unstarted) provider =
       {| events := map provider_event (take k (chunks (source unstarted)));
          trace := [Io abort]; final := Throw TypeError; world := controller_abort provider |}.
Proof. exact (delta_before_start_throws unstarted provider TypeError eq_refl). Defined.

Lemma parser_exception_witness :
  @extractFunctionCalls rejecting (asking (invoke_context "lookup" "France")) = Throw malformed
  /\ final (@run rejecting _ _ (@iterator_body rejecting unparsed) provider) = Throw malformed.
Proof.
  destruct (@parser_exception_is_fatal rejecting (asking (invoke_context "lookup" "France"))
              malformed eq_refl eq_refl) as (Hcalls & _ & Hstream & _).
  split; [exact Hcalls|].
  exact (f_equal (@final rejecting _ _)
           (Hstream unparsed provider [Some (asking (invoke_context "lookup" "France"))]
              eq_refl eq_refl)).
Defined.

Lemma empty_block_witness :
  extractFunctionCalls (asking "") = Throw TypeError
  /\ final (run (iterator_body (asked "")) provider) = Throw TypeError.
Proof.
  destruct (@block_without_invoke_throws externals (asking "") _ (VStr "")
              eq_refl eq_refl eq_refl eq_refl eq_refl) as (Hcalls & _ & Hstream & _).
  split; [exact Hcalls|].
  exact (f_equal final (Hstream (asked "") provider [Some (asking "")] eq_refl eq_refl)).
Defined.

Lemma repeated_invoke_fatal_witness :
  let elements := invoke_context "lookup" "France" ++ invoke_context "compute" "2+2" in
  final (run (iterator_body (asked elements)) provider)
    = Throw (VError "Error" "Tool [object Object] not found")
  /\ run (runWithTools 1 (body registry)) (script [asking elements] [] 0)
    = {| events := []; trace := [Io (create (buffered_request (body registry) registry_system))];
         final := Throw (VError "Error" "Tool undefined not found");
         world := script [] [] 0 |}
  /\ names_called (run (turn_loop 1 registry
                          {| request := buffered_request (body registry) "Be brief.";
                             response := replying (asking elements);
                             text := asking elements; first := false;
                             functions := [lookup_invocation] |}) provider)
    = ["lookup"].
Proof.
  cbn zeta.
  destruct (@repeated_invoke_is_tool_not_found externals
              (asking (invoke_context "lookup" "France" ++ invoke_context "compute" "2+2"))
              _ _ _ eq_refl eq_refl eq_refl eq_refl) as (Hstream & Hfirst & Hlater).
  split; [|split].
  - exact (f_equal final
             (Hstream (asked (invoke_context "lookup" "France" ++
                              invoke_context "compute" "2+2")) provider
                [Some (asking (invoke_context "lookup" "France" ++
                               invoke_context "compute" "2+2"))] eq_refl eq_refl)).
  - exact (Hfirst 0%nat (body registry) registry_system
             (replying (asking (invoke_context "lookup" "France" ++
                                invoke_context "compute" "2+2")))
             (script [asking (invoke_context "lookup" "France" ++
                              invoke_context "compute" "2+2")] [] 0)
             (script [] [] 0) eq_refl eq_refl eq_refl).
  - exact (f_equal names_called
             (Hlater 0%nat registry
                {| request := buffered_request (body registry) "Be brief.";
                   response := replying (asking (invoke_context "lookup" "France" ++
                                                 invoke_context "compute" "2+2"));
                   text := asking (invoke_context "lookup" "France" ++
                                   invoke_context "compute" "2+2");
                   first := false; functions := [lookup_invocation] |}
                provider
                (function_results_open ++ function_result "lookup" (DQ ++ "Paris" ++ DQ))
                eq_refl eq_refl)).
Defined.

Lemma first_error_witness :
  events (run (for_await (invokeFunctions [call_of "strict"; call_of "lookup"] registry "claude")
                 forward None) provider)
    = [tool_error strict (VError "ZodError" "invalid")]
  /\ names_called (run (for_await (invokeFunctions [call_of "compute"; call_of "lookup"]
                                     registry "claude") forward None) provider)
    = ["compute"].
Proof.
  split.
  - exact (f_equal events
             (proj1 (streamed_first_error registry "claude" [] [call_of "lookup"]
                       (call_of "strict") strict empty_json round_start None None provider
                       (script [] ["The capital is Paris."] 2) eq_refl eq_refl eq_refl)
                (VError "ZodError" "invalid") eq_refl eq_refl)).
  - exact (f_equal names_called
             (proj2 (streamed_first_error registry "claude" [] [call_of "lookup"]
                       (call_of "compute") compute empty_json round_start None None provider
                       (script [] ["The capital is Paris."] 2) eq_refl eq_refl eq_refl)
                (VObj []) (VError "Error" "boom") (script [] ["The capital is Paris."] 2)
                eq_refl eq_refl eq_refl)).
Defined.

Lemma falsy_rejection_witness :
  labels (run (invoke_each [faint] "claude" [call_of "faint"] round_start) provider)
  = ["invoke faint"].
Proof.
  rewrite (falsy_rejection_is_silent [faint] "claude" (call_of "faint") [] round_start
             provider (script [] ["The capital is Paris."] 2) (script [] ["The capital is Paris."] 2)
             faint empty_json (VObj []) VNull);
    reflexivity.
Defined.

Lemma round_summary_witness :
  let evs := events (run (for_await (invokeFunctions [call_of "lookup"] registry "claude")
                            forward None) provider) in
  exists pre,
    evs = (pre ++ [tool_results (tools_by_name registry) (<["lookup" := VStr "Paris"]> ∅)
                     [result_message (function_results_open ++
                                      function_result "lookup" (DQ ++ "Paris" ++ DQ))]])%list
    /\ results_of pre ∅ = <["lookup" := VStr "Paris"]> ∅.
Proof.
  cbn zeta.
  destruct (tool_results_sums_up_the_round registry "claude" [call_of "lookup"] None provider
              (tools_by_name registry) (<["lookup" := VStr "Paris"]> ∅)
              [result_message (function_results_open ++
                               function_result "lookup" (DQ ++ "Paris" ++ DQ))])
    as (pre & Hevs & _ & _ & _ & Hresults & _).
  - right. left. reflexivity.
  - exists pre. split; [exact Hevs | exact (eq_sym Hresults)].
Defined.

Lemma updateMessages_witness :
  updateMessages [question] [Some "The capital "; Some "is Paris."] =
    Ok [question; {| role := assistant; content := CString "The capital is Paris." |}]
  /\ updateMessages [question] [Some "The capital "; None; Some "is Paris."] = Throw TypeError.
Proof.
  split.
  - apply (proj1 (updateMessages_appends_the_text [question]
                    [Some "The capital "; Some "is Paris."])).
    repeat constructor; eexists; reflexivity.
  - apply (proj2 (updateMessages_appends_the_text [question]
                    [Some "The capital "; None; Some "is Paris."])).
    right. left. reflexivity.
Defined.

Lemma structured_output_witness :
  trace (run (runWithStructuredOutput structured) (script ["{}"] [] 0)) =
    [Io (create (structured_request json structured))]
  /\ req_system (structured_request json structured) =
     Some ("You are a json generator. You will ALWAYS respond with valid json.null" ++ LF ++
           "Be brief.").
Proof.
  destruct (structured_output_is_one_request structured (script ["{}"] [] 0))
    as (Htrace & Hnull & _).
  split; [exact Htrace | exact (Hnull eq_refl)].
Defined.

Lemma transcript_witness :
  match final (run (runWithTools 2 (body registry)) one_round) with
  | Ok (Some r) =>
      exists reply more,
        fullMessages r =
          (messages (body registry) ++
           {| role := assistant; content := CBlocks reply |} :: more)%list
        /\ Forall (fun m => role m = assistant \/ is_plain m = false) more
        /\ filteredMessages r = List.filter is_plain (fullMessages r)
        /\ (forall m, In m (filteredMessages r) <-> In m (fullMessages r) /\ free_of_markers m)
  | _ => False
  end.
Proof.
  destruct (final (run (runWithTools 2 (body registry)) one_round)) as [[r|]|e] eqn:Hrun.
  - apply (transcript_only_grows [] 2 (body registry) one_round r). left. exact Hrun.
  - vm_compute in Hrun. discriminate.
  - vm_compute in Hrun. discriminate.
Defined.

Lemma one_round_witness :
  final (run (runWithTools 1 (body registry)) one_round) =
  Ok (Some (finished (replying "The capital is Paris.")
              [question;
               {| role := assistant;
                  content := CBlocks [TextBlock (asking (invoke_q "lookup" "France"))] |};
               result_message (function_results_open ++
                               function_result "lookup" (DQ ++ "Paris" ++ DQ));
               {| role := assistant; content := CString "The capital is Paris." |}])).
Proof.
  refine (f_equal final
            (proj2 (one_round_transcript 0 (body registry) registry_system
                      (replying (asking (invoke_q "lookup" "France")))
                      (replying "The capital is Paris.")
                      (asking (invoke_q "lookup" "France"))
                      (function_results_open ++ function_result "lookup" (DQ ++ "Paris" ++ DQ))
                      [lookup_invocation] Continue one_round
                      (script ["The capital is Paris."] [] 0) (script [] [] 0)
                      _ _ _ _ _ _ _ _)
               "The capital is Paris." eq_refl eq_refl));
    try reflexivity; try discriminate.
Defined.


Lemma same_names_witness :
  match extractFunctionCalls (asking (invoke_q "lookup" "France")),
        parse_invocations (asking (invoke_q "lookup" "France")) with
  | Ok calls, Ok invocations => map inv_name invocations = map call_tool_name calls
  | Throw e, Throw e' => e = e'
  | _, _ => False
  end.
Proof. exact (clients_read_the_same_names (asking (invoke_q "lookup" "France")) eq_refl). Defined.

Lemma empty_stream_witness :
  run (iterator_body nothing) provider =
  {| events := []; trace := [Io abort]; final := Throw TypeError;
     world := controller_abort provider |}.
Proof. exact (stream_without_first_block_throws nothing provider [] eq_refl eq_refl eq_refl). Defined.


End Coverage.
